(** * csi-lvm external provisioner: volume provisioning workflow

    A shallow embedding of [pkg/controller] (the CSI provisioner of
    dearcode/csi-lvm): [makeVolumeName], [Provision],
    [getVolumeContentSource], [Delete], [getSecretReference],
    [resolveTemplate], [getCredentials] and [bytesToGiQuantity], together
    with the library functions they call ([strings.Replace], [os.Expand],
    [validation.IsDNS1123Label], [validation.IsDNS1123Subdomain],
    [wait.ExponentialBackoff]); and of [waitForDriverReady] of
    [cmd/attacher].

    Conventions.
    - Go [string] is a byte string: [String.string]; [len] is [String.length].
    - Go [int] and [int64] values are [Z].
    - [map[string]string] is [gmap string string]; a nil map is the empty map.
    - A Go result pair [(v, err)] is a pair whose second component is an
      [option error], [None] being [nil].
    - A run-time panic is an explicit [Panic] outcome. *)

From Stdlib Require Import ZArith String Ascii List Lia Bool DecimalString.
From stdpp Require Import base option list gmap strings sorting.

Local Open Scope string_scope.
Local Open Scope Z_scope.

(** ** Errors

    [fmt.Errorf(format, args...)] is kept as the format with its operands, so
    that what a message names can be read off the value. *)

Inductive error : Type :=
| Errorf (format : string) (args : list operand)
| errorString (msg : string)
| statusError (code : N) (desc : string)
with operand : Type :=
| VString (s : string)
| VInt (n : Z)
| VStrings (l : list string)
| VError (e : error).

(** *** Messages

    [Error()]: the text of an error. [Sprintf] covers the verbs [%s], [%v]
    and [%d] on strings, integers and errors; a format outside of that
    (the quoting verb [%q]) has no text here. *)

Module codes.
Definition Unknown : N := 2.
Definition DeadlineExceeded : N := 4.

(** [Code.String()] *)
Definition String (c : N) : string :=
  match c with
  | 0 => "OK" | 1 => "Canceled" | 2 => "Unknown" | 3 => "InvalidArgument"
  | 4 => "DeadlineExceeded" | 5 => "NotFound" | 6 => "AlreadyExists"
  | 7 => "PermissionDenied" | 8 => "ResourceExhausted"
  | 9 => "FailedPrecondition" | 10 => "Aborted" | 11 => "OutOfRange"
  | 12 => "Unimplemented" | 13 => "Internal" | 14 => "Unavailable"
  | 15 => "DataLoss" | 16 => "Unauthenticated"
  | _ => "Code(" ++ NilZero.string_of_uint (N.to_uint c) ++ ")"
  end%N.
End codes.

Module fmt.

(** The format with each verb replaced by the text of its operand;
    [ops] gives, for each operand, its text under a verb. *)
Fixpoint Sprintf (format : string) (ops : list (ascii -> option string))
  : option string :=
  match format with
  | EmptyString =>
      match ops with [] => Some EmptyString | _ :: _ => None end
  | String c rest =>
      if Ascii.eqb c "%" then
        match rest, ops with
        | String verb rest', o :: ops' =>
            match o verb, Sprintf rest' ops' with
            | Some v, Some r => Some (v ++ r)
            | _, _ => None
            end
        | _, _ => None
        end
      else
        match Sprintf rest ops with
        | Some r => Some (String c r)
        | None => None
        end
  end.

End fmt.

Fixpoint Error (e : error) : option string :=
  match e with
  | Errorf format args => fmt.Sprintf format (map operandText args)
  | errorString msg => Some msg
  | statusError code desc =>
      Some ("rpc error: code = " ++ codes.String code ++ " desc = " ++ desc)
  end
with operandText (o : operand) (verb : ascii) : option string :=
  match o with
  | VString s =>
      if Ascii.eqb verb "s" || Ascii.eqb verb "v" then Some s else None
  | VInt n =>
      if Ascii.eqb verb "d" || Ascii.eqb verb "v"
      then Some (NilZero.string_of_int (Z.to_int n)) else None
  | VStrings _ => None
  | VError e =>
      if Ascii.eqb verb "s" || Ascii.eqb verb "v" then Error e else None
  end.

(** Run-time panics of the Go runtime. *)
Inductive panic : Type :=
| SliceBoundsOutOfRange
| NilPointerDereference.

Inductive outcome (A : Type) : Type :=
| Ret (a : A)
| Panic (p : panic).
Arguments Ret {A} a.
Arguments Panic {A} p.

Definition obind {A B} (x : outcome A) (k : A -> outcome B) : outcome B :=
  match x with
  | Ret a => k a
  | Panic p => Panic p
  end.

(** ** Package [strings] *)

Module strings.

(** [strings.Replace(s, old, new, -1)] for a one-byte [old]: every
    occurrence of the byte is replaced. *)
Fixpoint ReplaceAll (s : string) (old : ascii) (new : string) : string :=
  match s with
  | EmptyString => EmptyString
  | String c rest =>
      if Ascii.eqb c old then new ++ ReplaceAll rest old new
      else String c (ReplaceAll rest old new)
  end.

(** [strings.Contains(s, c)] for a one-byte needle. *)
Fixpoint ContainsByte (s : string) (c : ascii) : bool :=
  match s with
  | EmptyString => false
  | String d rest => Ascii.eqb d c || ContainsByte rest c
  end.

End strings.

(** [len(s)] *)
Definition len (s : string) : Z := Z.of_nat (String.length s).

(** The slice expression [s[0:hi]]: panics unless [0 <= hi <= len(s)]. *)
Definition slice0 (s : string) (hi : Z) : outcome string :=
  if (0 <=? hi) && (hi <=? len s)
  then Ret (String.substring 0 (Z.to_nat hi) s)
  else Panic SliceBoundsOutOfRange.

(** ** [makeVolumeName] *)

Definition makeVolumeName (prefix pvcUID : string) (volumeNameUUIDLength : Z)
  : outcome (string * option error) :=
  if len prefix =? 0 then
    Ret ("", Some (Errorf "Volume name prefix cannot be of length 0" []))
  else if len pvcUID =? 0 then
    Ret ("", Some (Errorf "corrupted PVC object, it is missing UID" []))
  else if volumeNameUUIDLength =? -1 then
    Ret (prefix ++ "-" ++ pvcUID, None)
  else
    obind (slice0 (strings.ReplaceAll pvcUID "-" "") volumeNameUUIDLength)
      (fun id => Ret (prefix ++ "-" ++ id, None)).

(** ** Package [os]: [os.Expand]

    As in the Go standard library: a name is [${...}] up to the first
    closing brace, a one-byte shell special variable, or the longest run of
    letters, digits and underscores; malformed brace syntax is eaten and a
    dollar sign that no name follows is kept. *)

Module os.

Definition isShellSpecialVar (c : ascii) : bool :=
  strings.ContainsByte "*#$@!?-0123456789" c.

Definition isAlphaNum (c : ascii) : bool :=
  let n := N_of_ascii c in
  (Ascii.eqb c "_"
   || ((48 <=? n) && (n <=? 57))
   || ((97 <=? n) && (n <=? 122))
   || ((65 <=? n) && (n <=? 90)))%N.

(** The bytes of [s] before its first closing brace, if it has one. *)
Fixpoint beforeBrace (s : string) : option string :=
  match s with
  | EmptyString => None
  | String c rest =>
      if Ascii.eqb c "}" then Some EmptyString
      else option_map (String c) (beforeBrace rest)
  end.

(** The longest alphanumeric prefix of [s]. *)
Fixpoint alphaNumPrefix (s : string) : string :=
  match s with
  | EmptyString => EmptyString
  | String c rest =>
      if isAlphaNum c then String c (alphaNumPrefix rest) else EmptyString
  end.

(** [getShellName(s)]: the name that begins [s] and the number of bytes
    consumed for it. [Expand] calls it on a non-empty string only. *)
Definition getShellName (s : string) : string * nat :=
  match s with
  | EmptyString => (EmptyString, 0%nat)
  | String c rest =>
      if Ascii.eqb c "{" then
        match rest with
        | String c1 (String c2 _) =>
            if isShellSpecialVar c1 && Ascii.eqb c2 "}"
            then (String c1 EmptyString, 3%nat)
            else
              match beforeBrace rest with
              | Some EmptyString => (EmptyString, 2%nat)
              | Some name => (name, S (S (String.length name)))
              | None => (EmptyString, 1%nat)
              end
        | _ =>
            match beforeBrace rest with
            | Some EmptyString => (EmptyString, 2%nat)
            | Some name => (name, S (S (String.length name)))
            | None => (EmptyString, 1%nat)
            end
        end
      else if isShellSpecialVar c then (String c EmptyString, 1%nat)
      else
        let name := alphaNumPrefix s in (name, String.length name)
  end.

Section Expand.
(** The [mapping] callback may update state of its own (a closure over
    a variable): it is a state-passing function over [St]. *)
Context {St : Type} (mapping : string -> St -> string * St).

(** The loop of [Expand] from index [j] on; [skip] is the number of
    bytes the last [j += w] still has to step over. *)
Fixpoint expandFrom (skip : nat) (s : string) (st : St) : string * St :=
  match s with
  | EmptyString => (EmptyString, st)
  | String c rest =>
      match skip with
      | S k => expandFrom k rest st
      | O =>
          if Ascii.eqb c "$" && negb (String.eqb rest EmptyString) then
            let '(name, w) := getShellName rest in
            if String.eqb name EmptyString then
              if (0 <? w)%nat then
                (* invalid syntax: the bytes are eaten *)
                expandFrom w rest st
              else
                (* no name follows: the dollar sign is kept *)
                let '(r, st') := expandFrom w rest st in
                (String c r, st')
            else
              let '(v, st1) := mapping name st in
              let '(r, st2) := expandFrom w rest st1 in
              (v ++ r, st2)
          else
            let '(r, st') := expandFrom O rest st in
            (String c r, st')
      end
  end.

Definition Expand (s : string) (st : St) : string * St :=
  expandFrom O s st.
End Expand.

End os.

(** ** Package [sets]: [sets.String] *)

Module sets.

Definition string_le (x y : string) : Prop := Is_true (String.leb x y).

(** [List()]: the members in increasing (byte-wise) order. *)
Definition List (s : gset string) : list string :=
  merge_sort string_le (elements s).

End sets.

(** ** [resolveTemplate] *)

(** The closure handed to [os.Expand]: the value of [k], and [k] added to
    [missingParams] when it has none. *)
Definition lookupOrRecord (params : gmap string string)
    (k : string) (missingParams : gset string) : string * gset string :=
  match params !! k with
  | Some v => (v, missingParams)
  | None => (EmptyString, {[ k ]} ∪ missingParams)
  end.

Definition resolveTemplate (template : string) (params : gmap string string)
  : string * option error :=
  let '(resolved, missingParams) :=
    os.Expand (lookupOrRecord params) template ∅ in
  if (0 <? Z.of_nat (size missingParams)) then
    ("", Some (Errorf "invalid tokens: %q" [VStrings (sets.List missingParams)]))
  else (resolved, None).



(** ** Package [validation] (k8s.io/apimachinery/pkg/util/validation) *)

Module validation.

Inductive problem : Type :=
| MaxLenError (n : Z)
| RegexError.

Definition DNS1123LabelMaxLength : Z := 63.
Definition DNS1123SubdomainMaxLength : Z := 253.

(** [[a-z0-9]] *)
Definition isLowerAlnum (c : ascii) : bool :=
  let n := N_of_ascii c in
  (((97 <=? n) && (n <=? 122)) || ((48 <=? n) && (n <=? 57)))%N.

(** [[-a-z0-9]] *)
Definition isLabelByte (c : ascii) : bool :=
  Ascii.eqb c "-" || isLowerAlnum c.

(** [s] matches [[-a-z0-9]*[a-z0-9]]. *)
Fixpoint matchLabelTail (s : string) : bool :=
  match s with
  | EmptyString => false
  | String c EmptyString => isLowerAlnum c
  | String c rest => isLabelByte c && matchLabelTail rest
  end.

(** [s] matches [^[a-z0-9]([-a-z0-9]*[a-z0-9])?$]. *)
Definition matchLabel (s : string) : bool :=
  match s with
  | EmptyString => false
  | String c EmptyString => isLowerAlnum c
  | String c rest => isLowerAlnum c && matchLabelTail rest
  end.

(** The pieces of [s] between dots; [cur] is the piece being read. *)
Fixpoint splitDots (cur s : string) : list string :=
  match s with
  | EmptyString => [cur]
  | String c rest =>
      if Ascii.eqb c "." then cur :: splitDots EmptyString rest
      else splitDots (cur ++ String c EmptyString) rest
  end.

(** [s] matches [^label(\.label)*$]. *)
Definition matchSubdomain (s : string) : bool :=
  forallb matchLabel (splitDots EmptyString s).

Definition IsDNS1123Label (value : string) : list problem :=
  (if DNS1123LabelMaxLength <? len value
   then [MaxLenError DNS1123LabelMaxLength] else [])
  ++ (if negb (matchLabel value) then [RegexError] else []).

Definition IsDNS1123Subdomain (value : string) : list problem :=
  (if DNS1123SubdomainMaxLength <? len value
   then [MaxLenError DNS1123SubdomainMaxLength] else [])
  ++ (if negb (matchSubdomain value) then [RegexError] else []).

End validation.

(** ** API objects (the fields the provisioner reads) *)

(** [v1.SecretReference] *)
Record SecretReference : Type := {
  ref_Name : string;
  ref_Namespace : string
}.

(** [v1.TypedLocalObjectReference] *)
Record TypedLocalObjectReference : Type := {
  ds_APIGroup : option string;
  ds_Kind : string;
  ds_Name : string
}.

(** [v1.PersistentVolumeAccessMode] is a string type. *)
Definition ReadWriteOnce : string := "ReadWriteOnce".
Definition ReadOnlyMany : string := "ReadOnlyMany".
Definition ReadWriteMany : string := "ReadWriteMany".

(** [v1.ResourceStorage] *)
Definition ResourceStorage : string := "storage".

(** [v1.PersistentVolumeClaim]. A [resource.Quantity] is kept as its
    [Value()], an [int64]; a label selector as its presence only. *)
Record PersistentVolumeClaim : Type := {
  pvc_Name : string;
  pvc_Namespace : string;
  pvc_UID : string;
  pvc_Annotations : gmap string string;
  pvc_Selector : option unit;
  pvc_DataSource : option TypedLocalObjectReference;
  pvc_AccessModes : list string;
  pvc_Requests : gmap string Z
}.

(** ** [getSecretReference] *)

(** The tokens a secret namespace template can use. *)
Definition namespaceParams (pvName : string) (pvc : option PersistentVolumeClaim)
  : gmap string string :=
  let m := {[ "pv.name" := pvName ]} in
  match pvc with
  | Some c => <[ "pvc.namespace" := pvc_Namespace c ]> m
  | None => m
  end.

(** The tokens a secret name template can use. *)
Definition nameParams (pvName : string) (pvc : option PersistentVolumeClaim)
  : gmap string string :=
  let m := {[ "pv.name" := pvName ]} in
  match pvc with
  | Some c =>
      map_fold
        (fun k v (acc : gmap string string) =>
           <[ "pvc.annotations['" ++ k ++ "']" := v ]> acc)
        (<[ "pvc.namespace" := pvc_Namespace c ]>
           (<[ "pvc.name" := pvc_Name c ]> m))
        (pvc_Annotations c)
  | None => m
  end.

Definition getSecretReference (nameKey namespaceKey : string)
    (storageClassParams : gmap string string) (pvName : string)
    (pvc : option PersistentVolumeClaim)
  : option SecretReference * option error :=
  let nameTemplate := default "" (storageClassParams !! nameKey) in
  let hasName := bool_decide (is_Some (storageClassParams !! nameKey)) in
  let namespaceTemplate := default "" (storageClassParams !! namespaceKey) in
  let hasNamespace := bool_decide (is_Some (storageClassParams !! namespaceKey)) in
  if negb hasName && negb hasNamespace then (None, None)
  else if (len nameTemplate =? 0) || (len namespaceTemplate =? 0) then
    (None, Some (Errorf "%s and %s parameters must be specified together"
                   [VString nameKey; VString namespaceKey]))
  else
    match resolveTemplate namespaceTemplate (namespaceParams pvName pvc) with
    | (_, Some err) =>
        (None, Some (Errorf "error resolving %s value %q: %v"
                       [VString namespaceKey; VString namespaceTemplate; VError err]))
    | (resolvedNamespace, None) =>
        if 0 <? Z.of_nat (length (validation.IsDNS1123Label resolvedNamespace)) then
          if negb (String.eqb namespaceTemplate resolvedNamespace) then
            (None, Some (Errorf "%s parameter %q resolved to %q which is not a valid namespace name"
                           [VString namespaceKey; VString namespaceTemplate;
                            VString resolvedNamespace]))
          else
            (None, Some (Errorf "%s parameter %q is not a valid namespace name"
                           [VString namespaceKey; VString namespaceTemplate]))
        else
          match resolveTemplate nameTemplate (nameParams pvName pvc) with
          | (_, Some err) =>
              (None, Some (Errorf "error resolving %s value %q: %v"
                             [VString nameKey; VString nameTemplate; VError err]))
          | (resolvedName, None) =>
              if 0 <? Z.of_nat (length (validation.IsDNS1123Subdomain resolvedName)) then
                if negb (String.eqb nameTemplate resolvedName) then
                  (None, Some (Errorf "%s parameter %q resolved to %q which is not a valid secret name"
                                 [VString nameKey; VString nameTemplate;
                                  VString resolvedName]))
                else
                  (None, Some (Errorf "%s parameter %q is not a valid secret name"
                                 [VString nameKey; VString nameTemplate]))
              else
                (Some {| ref_Name := resolvedName;
                         ref_Namespace := resolvedNamespace |}, None)
          end
    end.


(** ** CSI messages ([csi.v0]) *)

Inductive VolumeCapability_AccessMode_Mode : Type :=
| SINGLE_NODE_WRITER
| MULTI_NODE_MULTI_WRITER
| MULTI_NODE_READER_ONLY.

(** Every capability the provisioner builds has the mount access type. *)
Record VolumeCapability : Type := {
  cap_Mode : VolumeCapability_AccessMode_Mode
}.

(** A content source of snapshot type, with the snapshot's id. *)
Record VolumeContentSource : Type := {
  src_SnapshotId : string
}.

Record CreateVolumeRequest : Type := {
  req_Name : string;
  req_Parameters : gmap string string;
  req_VolumeCapabilities : list VolumeCapability;
  req_RequiredBytes : Z;
  req_VolumeContentSource : option VolumeContentSource;
  req_ControllerCreateSecrets : gmap string string
}.

Record Volume : Type := {
  vol_CapacityBytes : Z;
  vol_Id : string;
  vol_Attributes : gmap string string
}.

Record CreateVolumeResponse : Type := {
  rep_Volume : option Volume
}.

(** The nil-safe getters of the generated messages. *)
Definition GetCapacityBytes (v : option Volume) : Z :=
  match v with Some v => vol_CapacityBytes v | None => 0 end.
Definition GetId (v : option Volume) : string :=
  match v with Some v => vol_Id v | None => "" end.

Record DeleteVolumeRequest : Type := {
  del_VolumeId : string;
  del_ControllerDeleteSecrets : gmap string string
}.

(** ** Snapshot API objects ([volumesnapshot/v1alpha1]) *)

Record ObjectReference : Type := {
  oref_Namespace : string;
  oref_Name : string;
  oref_UID : string
}.

Record VolumeSnapshot : Type := {
  snap_Name : string;
  snap_Namespace : string;
  snap_UID : string;
  snap_DeletionTimestamp : option Z;
  snap_SnapshotContentName : string;
  snap_Ready : bool;
  snap_RestoreSize : option Z
}.

Record CSIVolumeSnapshotSource : Type := {
  css_SnapshotHandle : string
}.

Record VolumeSnapshotContent : Type := {
  content_VolumeSnapshotRef : option ObjectReference;
  content_CSI : option CSIVolumeSnapshotSource
}.

(** ** Persistent volumes *)

(** The operand of [resource.MustParse]: a whole number and a suffix. *)
Record Quantity : Type := {
  q_num : Z;
  q_suffix : string
}.

Record CSIPersistentVolumeSource : Type := {
  csi_Driver : string;
  csi_VolumeHandle : string;
  csi_FSType : string;
  csi_VolumeAttributes : gmap string string;
  csi_ControllerPublishSecretRef : option SecretReference;
  csi_NodeStageSecretRef : option SecretReference;
  csi_NodePublishSecretRef : option SecretReference
}.

Record PersistentVolume : Type := {
  pv_Name : string;
  pv_PersistentVolumeReclaimPolicy : string;
  pv_AccessModes : list string;
  pv_Capacity : gmap string Quantity;
  pv_CSI : option CSIPersistentVolumeSource
}.

(** [controller.VolumeOptions] *)
Record VolumeOptions : Type := {
  PersistentVolumeReclaimPolicy : string;
  PVC : PersistentVolumeClaim;
  Parameters : gmap string string
}.

(** ** Constants *)

Definition provisionerSecretNameKey := "csiProvisionerSecretName".
Definition provisionerSecretNamespaceKey := "csiProvisionerSecretNamespace".
Definition controllerPublishSecretNameKey := "csiControllerPublishSecretName".
Definition controllerPublishSecretNamespaceKey := "csiControllerPublishSecretNamespace".
Definition nodeStageSecretNameKey := "csiNodeStageSecretName".
Definition nodeStageSecretNamespaceKey := "csiNodeStageSecretNamespace".
Definition nodePublishSecretNameKey := "csiNodePublishSecretName".
Definition nodePublishSecretNamespaceKey := "csiNodePublishSecretNamespace".

(** [time.Second * 5] *)
Definition backoffDuration : Z := 1000000000 * 5.
(** [1.2] *)
Definition backoffFactor : Z * Z := (12, 10).
Definition backoffSteps : Z := 10.
Definition defaultFSType := "ext4".
Definition snapshotKind := "VolumeSnapshot".
Definition snapshotAPIGroup := "snapshot.storage.k8s.io".
Definition provisionerIDKey := "storage.kubernetes.io/csiProvisionerIdentity".

(** ** Package [status] (google.golang.org/grpc) *)

Module status.
(** [FromError(err)] for a non-nil [err]: the code of a status error, and
    [Unknown] with [ok = false] for any other error. *)
Definition FromError (err : error) : N * bool :=
  match err with
  | statusError c _ => (c, true)
  | _ => (codes.Unknown, false)
  end.
End status.

(** ** Package [wait] (k8s.io/apimachinery/pkg/util/wait) *)

Module wait.

Definition ErrWaitTimeout : error :=
  errorString "timed out waiting for the condition".

(** [Duration] is in nanoseconds; [Factor], a float, is kept as a fraction.
    The delays they give are slept between attempts and leave no trace in
    the state; [Steps] bounds the attempts. *)
Record Backoff : Type := {
  Duration : Z;
  Factor : Z * Z;
  Steps : Z
}.

Section ExponentialBackoff.
Context {St : Type} (condition : St -> (bool * option error) * St).

(** [for i := 0; i < Steps; i++ { if ok, err := condition(); err != nil
    || ok { return err } }; return ErrWaitTimeout], with [n] attempts
    left. *)
Fixpoint attempts (n : nat) (st : St) : option error * St :=
  match n with
  | O => (Some ErrWaitTimeout, st)
  | S k =>
      let '((ok, err), st') := condition st in
      if bool_decide (is_Some err) || ok then (err, st')
      else attempts k st'
  end.

Definition ExponentialBackoff (backoff : Backoff) (st : St)
  : option error * St :=
  attempts (Z.to_nat (Steps backoff)) st.
End ExponentialBackoff.

End wait.

(** ** Control flow of a Go function body

    A statement either falls through to the next one, returns from the
    function, or panics. *)

Inductive flow (R A : Type) : Type :=
| Next (a : A)
| Return (r : R)
| Abort (p : panic).
Arguments Next {R A} a.
Arguments Return {R A} r.
Arguments Abort {R A} p.

(** A statement over a state [W]. *)
Definition stmt (W R A : Type) : Type := W -> flow R A * W.

Definition seq {W R A B} (m : stmt W R A) (k : A -> stmt W R B) : stmt W R B :=
  fun w =>
    match m w with
    | (Next a, w') => k a w'
    | (Return r, w') => (Return r, w')
    | (Abort p, w') => (Abort p, w')
    end.

Definition next {W R A} (a : A) : stmt W R A := fun w => (Next a, w).
Definition ret {W R A} (r : R) : stmt W R A := fun w => (Return r, w).

(** [if c { return r }] *)
Definition returnIf {W R} (c : bool) (r : R) : stmt W R unit :=
  if c then ret r else next tt.

(** A pure computation that may panic. *)
Definition lift {W R A} (x : outcome A) : stmt W R A :=
  fun w => match x with Ret a => (Next a, w) | Panic p => (Abort p, w) end.

(** [*ptr] *)
Definition deref {A} (ptr : option A) : outcome A :=
  match ptr with Some a => Ret a | None => Panic NilPointerDereference end.

(** The body of a function whose last statement returns. *)
Definition body {W R} (m : stmt W R R) : W -> outcome R * W :=
  fun w =>
    match m w with
    | (Next r, w') => (Ret r, w')
    | (Return r, w') => (Ret r, w')
    | (Abort p, w') => (Panic p, w')
    end.

Declare Scope stmt_scope.
Delimit Scope stmt_scope with stmt.
Notation "x <- m ;; k" := (seq m (fun x => k))
  (at level 100, m at next level, right associativity) : stmt_scope.
Notation "m ;; k" := (seq m (fun _ => k))
  (at level 100, right associativity) : stmt_scope.

(** ** The provisioner *)

(** [kubernetes.Secret]: its [Data], each value read as a string. *)
Record Secret : Type := {
  secret_Data : gmap string string
}.

(** [csiProvisioner]. The three clients are kept as the calls the
    provisioner makes through them. A client returns either an object or
    an error. The driver behind [csiClient] has a state of type [D] that
    each call may change; objects read from the API server are looked up
    in a fixed store. The per-call [timeout] only bounds how long a call
    may take and is left out. *)
Record csiProvisioner (D : Type) : Type := {
  client_Secrets_Get : string -> string -> Secret + error;
  csiClient_CreateVolume :
    CreateVolumeRequest -> D -> (CreateVolumeResponse + error) * D;
  csiClient_DeleteVolume :
    DeleteVolumeRequest -> D -> option error * D;
  snapshotClient_VolumeSnapshots_Get :
    string -> string -> VolumeSnapshot + error;
  snapshotClient_VolumeSnapshotContents_Get :
    string -> VolumeSnapshotContent + error;
  identity : string;
  volumeNamePrefix : string;
  volumeNameUUIDLength : Z
}.
Arguments client_Secrets_Get {D} _.
Arguments csiClient_CreateVolume {D} _.
Arguments csiClient_DeleteVolume {D} _.
Arguments snapshotClient_VolumeSnapshots_Get {D} _.
Arguments snapshotClient_VolumeSnapshotContents_Get {D} _.
Arguments identity {D} _.
Arguments volumeNamePrefix {D} _.
Arguments volumeNameUUIDLength {D} _.

(** The calls that reach the driver, in order. *)
Inductive call : Type :=
| CreateVolumeCall (req : CreateVolumeRequest) (res : CreateVolumeResponse + error)
| DeleteVolumeCall (req : DeleteVolumeRequest) (err : option error).

Record world (D : Type) : Type := {
  driver : D;
  calls : list call
}.
Arguments driver {D} _.
Arguments calls {D} _.

Definition isCreate (c : call) : bool :=
  match c with CreateVolumeCall _ _ => true | DeleteVolumeCall _ _ => false end.
Definition isDelete (c : call) : bool :=
  match c with CreateVolumeCall _ _ => false | DeleteVolumeCall _ _ => true end.

(** ** [getCredentials] *)

Definition getCredentials {D} (p : csiProvisioner D) (ref : option SecretReference)
  : gmap string string * option error :=
  match ref with
  | None => (∅, None)
  | Some ref =>
      match client_Secrets_Get p (ref_Namespace ref) (ref_Name ref) with
      | inr err =>
          (∅, Some (Errorf "error getting secret %s in namespace %s: %v"
                      [VString (ref_Name ref); VString (ref_Namespace ref); VError err]))
      | inl secret =>
          (map_fold (fun key value (credentials : gmap string string) =>
                       <[ key := value ]> credentials) ∅ (secret_Data secret),
           None)
      end
  end.

(** ** [bytesToGiQuantity] *)

(** [float64(n)] for an [int64]: the nearest number with a 53-bit
    significand, ties to even. The result is a whole number. *)
Definition float64_of_int (n : Z) : Z :=
  let a := Z.abs n in
  let e := Z.log2 a - 52 in
  if e <=? 0 then n
  else
    let q := Z.shiftr a e in
    let r := a - Z.shiftl q e in
    let half := Z.shiftl 1 (e - 1) in
    let q' := if (half <? r) || ((half =? r) && Z.odd q) then q + 1 else q in
    Z.sgn n * Z.shiftl q' e.

(** [math.Ceil(a / b)] for whole [a] and a power of two [b]. *)
Definition ceilDiv (a b : Z) : Z := - ((- a) / b).

Definition bytesToGiQuantity (bytes : Z) : Quantity :=
  let floatBytes := float64_of_int bytes in
  let MiB := 1024 * 1024 in
  let GiB := MiB * 1024 in
  if floatBytes <? GiB then
    {| q_num := ceilDiv floatBytes MiB; q_suffix := "Mi" |}
  else
    {| q_num := ceilDiv floatBytes GiB; q_suffix := "Gi" |}.

(** ** [strings.ToLower]

    Lower-casing of the ASCII letters. [Provision] compares the result with
    an ASCII literal only, and no byte outside ASCII lower-cases to an ASCII
    letter of that literal. *)
Definition toLowerByte (c : ascii) : ascii :=
  let n := N_of_ascii c in
  if ((65 <=? n) && (n <=? 90))%N then ascii_of_N (n + 32) else c.

Fixpoint ToLower (s : string) : string :=
  match s with
  | EmptyString => EmptyString
  | String c rest => String (toLowerByte c) (ToLower rest)
  end.

(** What [Provision] returns. *)
Definition result : Type := option PersistentVolume * option error.

Section Provisioner.
Context {D : Type}.

(** [DriverName], a package-level name declared outside this file. *)
Variable DriverName : string.

Variable p : csiProvisioner D.

(** *** [getVolumeContentSource] *)

Definition errNotBound : error :=
  Errorf "snapshot in dataSource not bound or invalid" [].

Definition getVolumeContentSource (options : VolumeOptions)
  : outcome (option VolumeContentSource * option error) :=
  fst (body (W := unit) (
    dataSource <- lift (deref (pvc_DataSource (PVC options))) ;;
    match snapshotClient_VolumeSnapshots_Get p
            (pvc_Namespace (PVC options)) (ds_Name dataSource) with
    | inr err =>
        ret (None, Some (Errorf "error getting snapshot %s from api server: %v"
                           [VString (ds_Name dataSource); VError err]))
    | inl snapshotObj =>
        returnIf (negb (snap_Ready snapshotObj))
          (None, Some (Errorf "snapshot %s is not Ready"
                         [VString (ds_Name dataSource)])) ;;
        returnIf (bool_decide (is_Some (snap_DeletionTimestamp snapshotObj)))
          (None, Some (Errorf "snapshot %s is currently being deleted"
                         [VString (ds_Name dataSource)])) ;;
        match snapshotClient_VolumeSnapshotContents_Get p
                (snap_SnapshotContentName snapshotObj) with
        | inr err => ret (None, Some errNotBound)
        | inl snapContentObj =>
            match content_VolumeSnapshotRef snapContentObj with
            | None => ret (None, Some errNotBound)
            | Some ref =>
                returnIf
                  (negb (String.eqb (oref_UID ref) (snap_UID snapshotObj))
                   || negb (String.eqb (oref_Namespace ref) (snap_Namespace snapshotObj))
                   || negb (String.eqb (oref_Name ref) (snap_Name snapshotObj)))
                  (None, Some errNotBound) ;;
                match content_CSI snapContentObj with
                | None => ret (None, Some errNotBound)
                | Some csiSource =>
                    let snapshotSource :=
                      {| src_SnapshotId := css_SnapshotHandle csiSource |} in
                    match snap_RestoreSize snapshotObj with
                    | Some restoreSize =>
                        match pvc_Requests (PVC options) !! ResourceStorage with
                        | None =>
                            ret (None, Some (Errorf
                              "error getting capacity for PVC %s when creating snapshot %s"
                              [VString (pvc_Name (PVC options));
                               VString (snap_Name snapshotObj)]))
                        | Some volSizeBytes =>
                            returnIf (volSizeBytes <? restoreSize)
                              (None, Some (Errorf
                                "requested volume size %d is less than the size %d for the source snapshot %s"
                                [VInt volSizeBytes; VInt restoreSize;
                                 VString (snap_Name snapshotObj)])) ;;
                            (* a larger request is logged as a warning *)
                            ret (Some snapshotSource, None)
                        end
                    | None => ret (Some snapshotSource, None)
                    end
                end
            end
        end
    end)%stmt tt).


(** *** [Provision] *)

(** The variables of [Provision] that the backoff closure assigns. *)
Record locals : Type := {
  l_rep : option CreateVolumeResponse;
  l_err : option error
}.

(** The variables [Provision] has set when it reaches the backoff loop. *)
Record prepared : Type := {
  pvName : string;
  volSizeBytes : Z;
  req : CreateVolumeRequest;
  provisionerCredentials : gmap string string;
  controllerPublishSecretRef : option SecretReference;
  nodeStageSecretRef : option SecretReference;
  nodePublishSecretRef : option SecretReference
}.

Definition volumeIdToHandle (id : string) : string := id.

Definition accessModeCapabilities (modes : list string) : list VolumeCapability :=
  flat_map (fun cap =>
    if String.eqb cap ReadWriteOnce then [{| cap_Mode := SINGLE_NODE_WRITER |}]
    else if String.eqb cap ReadWriteMany then [{| cap_Mode := MULTI_NODE_MULTI_WRITER |}]
    else if String.eqb cap ReadOnlyMany then [{| cap_Mode := MULTI_NODE_READER_ONLY |}]
    else []) modes.

(** [Provision] up to the backoff loop: the checks of the claim, the
    volume name, the request and the secret references. No call reaches
    the driver here. *)
Definition prepare {W} (options : VolumeOptions) : stmt W result prepared :=
  (returnIf (bool_decide (is_Some (pvc_Selector (PVC options))))
     (None, Some (Errorf "claim Selector is not supported" [])) ;;
   needSnapshotSupport <-
     match pvc_DataSource (PVC options) with
     | Some dataSource =>
         returnIf (String.eqb (ds_Name dataSource) "")
           (None, Some (Errorf "the PVC source not found for PVC %s"
                          [VString (pvc_Name (PVC options))])) ;;
         returnIf (negb (String.eqb (ds_Kind dataSource) snapshotKind))
           (None, Some (Errorf "the PVC source is not the right type. Expected %s, Got %s"
                          [VString snapshotKind; VString (ds_Kind dataSource)])) ;;
         apiGroup <- lift (deref (ds_APIGroup dataSource)) ;;
         returnIf (negb (String.eqb apiGroup snapshotAPIGroup))
           (None, Some (Errorf "the PVC source does not belong to the right APIGroup. Expected %s, Got %s"
                          [VString snapshotAPIGroup; VString apiGroup])) ;;
         next true
     | None => next false
     end ;;
   named <- lift (makeVolumeName (volumeNamePrefix p) (pvc_UID (PVC options))
                    (volumeNameUUIDLength p)) ;;
   let pvName := fst named in
   returnIf (bool_decide (is_Some (snd named))) (None, snd named) ;;
   let volSizeBytes := default 0 (pvc_Requests (PVC options) !! ResourceStorage) in
   let volumeCaps := accessModeCapabilities (pvc_AccessModes (PVC options)) in
   contentSource <-
     (if needSnapshotSupport : bool then
        got <- lift (getVolumeContentSource options) ;;
        match snd got with
        | Some err =>
            dataSource <- lift (deref (pvc_DataSource (PVC options))) ;;
            ret (None, Some (Errorf "error getting snapshot handle for snapshot %s: %v"
                               [VString (ds_Name dataSource); VError err]))
        | None => next (fst got)
        end
      else next None) ;;
   let provisionerSecret :=
     getSecretReference provisionerSecretNameKey provisionerSecretNamespaceKey
       (Parameters options) pvName None in
   returnIf (bool_decide (is_Some (snd provisionerSecret))) (None, snd provisionerSecret) ;;
   let credentials := getCredentials p (fst provisionerSecret) in
   returnIf (bool_decide (is_Some (snd credentials))) (None, snd credentials) ;;
   let controllerPublishSecret :=
     getSecretReference controllerPublishSecretNameKey controllerPublishSecretNamespaceKey
       (Parameters options) pvName (Some (PVC options)) in
   returnIf (bool_decide (is_Some (snd controllerPublishSecret)))
     (None, snd controllerPublishSecret) ;;
   let nodeStageSecret :=
     getSecretReference nodeStageSecretNameKey nodeStageSecretNamespaceKey
       (Parameters options) pvName (Some (PVC options)) in
   returnIf (bool_decide (is_Some (snd nodeStageSecret))) (None, snd nodeStageSecret) ;;
   let nodePublishSecret :=
     getSecretReference nodePublishSecretNameKey nodePublishSecretNamespaceKey
       (Parameters options) pvName (Some (PVC options)) in
   returnIf (bool_decide (is_Some (snd nodePublishSecret))) (None, snd nodePublishSecret) ;;
   next {| pvName := pvName;
           volSizeBytes := volSizeBytes;
           req := {| req_Name := pvName;
                     req_Parameters := Parameters options;
                     req_VolumeCapabilities := volumeCaps;
                     req_RequiredBytes := volSizeBytes;
                     req_VolumeContentSource := contentSource;
                     req_ControllerCreateSecrets := fst credentials |};
           provisionerCredentials := fst credentials;
           controllerPublishSecretRef := fst controllerPublishSecret;
           nodeStageSecretRef := fst nodeStageSecret;
           nodePublishSecretRef := fst nodePublishSecret |})%stmt.

(** The closure passed to [wait.ExponentialBackoff]: one [CreateVolume]
    call, assigning [rep] and [err]. *)
Definition createVolumeAttempt (req : CreateVolumeRequest)
    (st : locals * world D) : (bool * option error) * (locals * world D) :=
  let w := snd st in
  let '(res, d') := csiClient_CreateVolume p req (driver w) in
  let w' := {| driver := d'; calls := calls w ++ [CreateVolumeCall req res] |} in
  match res with
  | inl r =>
      (* CreateVolume has finished successfully *)
      ((true, None), ({| l_rep := Some r; l_err := None |}, w'))
  | inr e =>
      let l' := {| l_rep := None; l_err := Some e |} in
      let '(code, ok) := status.FromError e in
      if ok && (code =? codes.DeadlineExceeded)%N then
        (* CreateVolume timed out, give it another chance to complete *)
        ((false, None), (l', w'))
      else
        (* CreateVolume failed, no reason to retry *)
        ((false, Some e), (l', w'))
  end.

(** The backoff loop and the assignment of its result to [err]. *)
Definition createVolume {R} (req : CreateVolumeRequest) : stmt (world D) R locals :=
  fun w =>
    let opts := {| wait.Duration := backoffDuration;
                   wait.Factor := backoffFactor;
                   wait.Steps := backoffSteps |} in
    let '(err, (l, w')) :=
      wait.ExponentialBackoff (createVolumeAttempt req) opts
        ({| l_rep := Some {| rep_Volume := None |}; l_err := None |}, w) in
    (Next {| l_rep := l_rep l; l_err := err |}, w').

(** One [DeleteVolume] call. *)
Definition deleteVolume {R} (delReq : DeleteVolumeRequest)
  : stmt (world D) R (option error) :=
  fun w =>
    let '(err, d') := csiClient_DeleteVolume p delReq (driver w) in
    (Next err, {| driver := d'; calls := calls w ++ [DeleteVolumeCall delReq err] |}).

(** [Provision] after the backoff loop. *)
Definition finish (options : VolumeOptions) (prep : prepared) (vars : locals)
  : stmt (world D) result result :=
  (returnIf (bool_decide (is_Some (l_err vars))) (None, l_err vars) ;;
   rep <- lift (deref (l_rep vars)) ;;
   volume <- lift (deref (rep_Volume rep)) ;;
   let volumeAttributes :=
     map_fold (fun k v (acc : gmap string string) => <[ k := v ]> acc)
       {[ provisionerIDKey := identity p ]} (vol_Attributes volume) in
   let respCap := GetCapacityBytes (rep_Volume rep) in
   (if respCap <? volSizeBytes prep then
      let capErr :=
        Errorf "created volume capacity %v less than requested capacity %v"
          [VInt respCap; VInt (volSizeBytes prep)] in
      let delReq :=
        {| del_VolumeId := GetId (rep_Volume rep);
           del_ControllerDeleteSecrets := provisionerCredentials prep |} in
      err <- deleteVolume delReq ;;
      match err with
      | Some err =>
          ret (None, Some (Errorf "%v. Cleanup of volume %s failed, volume is orphaned: %v"
                             [VError capErr; VString (pvName prep); VError err]))
      | None => ret (None, Some capErr)
      end
    else next tt) ;;
   (* Go ranges over the map in no fixed order; when several keys spell
      "fstype" the value kept here is the one the map's own order ends on *)
   let fsType :=
     map_fold (fun k v (fsType : string) =>
                 if String.eqb (ToLower k) "fstype" then v else fsType)
       "" (Parameters options) in
   let fsType := if len fsType =? 0 then defaultFSType else fsType in
   ret (Some
          {| pv_Name := pvName prep;
             pv_PersistentVolumeReclaimPolicy := PersistentVolumeReclaimPolicy options;
             pv_AccessModes := pvc_AccessModes (PVC options);
             pv_Capacity := {[ ResourceStorage := bytesToGiQuantity respCap ]};
             pv_CSI := Some
               {| csi_Driver := DriverName;
                  csi_VolumeHandle := volumeIdToHandle (vol_Id volume);
                  csi_FSType := fsType;
                  csi_VolumeAttributes := volumeAttributes;
                  csi_ControllerPublishSecretRef := controllerPublishSecretRef prep;
                  csi_NodeStageSecretRef := nodeStageSecretRef prep;
                  csi_NodePublishSecretRef := nodePublishSecretRef prep |} |},
        None))%stmt.

(** [Provision], run on a driver in state [d0]; the result comes with the
    driver's new state and the calls made to it. *)
Definition Provision (options : VolumeOptions) (d0 : D)
  : outcome result * world D :=
  body (prep <- prepare options ;;
        vars <- createVolume (req prep) ;;
        finish options prep vars)%stmt
    {| driver := d0; calls := [] |}.

End Provisioner.

(** ** Templates read as literal text and tokens

    A template in which every dollar sign opens a [${token}] form: a
    sequence of pieces, each a literal free of dollar signs or a token. *)

Inductive piece : Type :=
| Lit (s : string)
| Token (t : string).

Definition pieceText (x : piece) : string :=
  match x with
  | Lit s => s
  | Token t => "${" ++ t ++ "}"
  end.

Definition templateOf (ps : list piece) : string :=
  fold_right (fun x acc => pieceText x ++ acc) EmptyString ps.

Definition tokensOf (ps : list piece) : list string :=
  flat_map (fun x => match x with Lit _ => [] | Token t => [t] end) ps.

Definition wellFormed (x : piece) : bool :=
  match x with
  | Lit s => negb (strings.ContainsByte s "$")
  | Token t => negb (String.eqb t EmptyString) && negb (strings.ContainsByte t "}")
  end.

(** The tokens of [ps] that [params] does not define. *)
Definition missingTokens (params : gmap string string) (ps : list piece)
  : list string :=
  List.filter (fun t => bool_decide (params !! t = None)) (tokensOf ps).

Section ExpandPieces.
Context {St : Type} (mapping : string -> St -> string * St).

(** What [Expand] is expected to do on a sequence of pieces. *)
Fixpoint expandPieces (ps : list piece) (st : St) : string * St :=
  match ps with
  | [] => (EmptyString, st)
  | Lit s :: ps' =>
      let '(r, st') := expandPieces ps' st in (s ++ r, st')
  | Token t :: ps' =>
      let '(v, st1) := mapping t st in
      let '(r, st2) := expandPieces ps' st1 in
      (v ++ r, st2)
  end.

End ExpandPieces.

(** The template with each token replaced by its value. *)
Definition substitute (params : gmap string string) (ps : list piece) : string :=
  fold_right
    (fun x acc =>
       match x with
       | Lit s => s ++ acc
       | Token t => default EmptyString (params !! t) ++ acc
       end)
    EmptyString ps.

(** ** Snapshots and their content objects *)

(** The snapshot is ready, is not being deleted, and its content object
    [content] is bound to it and carries the driver's snapshot [handle]. *)
Definition usableSnapshot (snap : VolumeSnapshot) (content : VolumeSnapshotContent)
    (handle : string) : Prop :=
  snap_Ready snap = true
  /\ snap_DeletionTimestamp snap = None
  /\ (exists ref,
        content_VolumeSnapshotRef content = Some ref
        /\ oref_UID ref = snap_UID snap
        /\ oref_Namespace ref = snap_Namespace snap
        /\ oref_Name ref = snap_Name snap)
  /\ content_CSI content = Some {| css_SnapshotHandle := handle |}.

(** A content object that cannot stand for the snapshot: it cannot be
    fetched, it is not bound, it is bound to a different snapshot, or it
    has no driver snapshot handle. *)
Definition unusableContent (got : VolumeSnapshotContent + error)
    (snap : VolumeSnapshot) : Prop :=
  match got with
  | inr _ => True
  | inl content =>
      match content_VolumeSnapshotRef content with
      | None => True
      | Some ref =>
          (oref_UID ref <> snap_UID snap
           \/ oref_Namespace ref <> snap_Namespace snap
           \/ oref_Name ref <> snap_Name snap)
          \/ content_CSI content = None
      end
  end.

(** ** Runs of [Provision] *)

(** A statement that leaves the state alone. *)
Definition pure {W R A} (m : stmt W R A) : Prop :=
  exists x, forall w, m w = (x, w).

(** The closure's test of a [CreateVolume] error: a gRPC status with the
    code [DeadlineExceeded]. *)
Definition isDeadlineExceeded (e : error) : bool :=
  let '(code, ok) := status.FromError e in
  ok && (code =? codes.DeadlineExceeded)%N.

(** An attempt that ended in such an error. *)
Definition timedOut (res : CreateVolumeResponse + error) : Prop :=
  exists e, res = inr e /\ isDeadlineExceeded e = true.

(** The outcomes of the attempts of one loop of at most [n] steps, with
    the error the loop returns and the response it leaves in [rep]. *)
Inductive backoffRun (n : nat)
  : list (CreateVolumeResponse + error) -> option error
    -> option CreateVolumeResponse -> Prop :=
| run_created (pre : list (CreateVolumeResponse + error)) (r : CreateVolumeResponse) :
    Forall timedOut pre -> (length pre < n)%nat ->
    backoffRun n (pre ++ [inl r]) None (Some r)
| run_failed (pre : list (CreateVolumeResponse + error)) (e : error)
    (rep : option CreateVolumeResponse) :
    Forall timedOut pre -> (length pre < n)%nat ->
    isDeadlineExceeded e = false ->
    backoffRun n (pre ++ [inr e]) (Some e) rep
| run_exhausted (evs : list (CreateVolumeResponse + error))
    (rep : option CreateVolumeResponse) :
    Forall timedOut evs -> length evs = n ->
    backoffRun n evs (Some wait.ErrWaitTimeout) rep.

(** The error [Provision] returns for a volume smaller than requested,
    given the outcome of the compensating [DeleteVolume] call. *)
Definition capacityError (prep : prepared) (volume : Volume) (delErr : option error)
  : error :=
  let capErr :=
    Errorf "created volume capacity %v less than requested capacity %v"
      [VInt (vol_CapacityBytes volume); VInt (volSizeBytes prep)] in
  match delErr with
  | Some e =>
      Errorf "%v. Cleanup of volume %s failed, volume is orphaned: %v"
        [VError capErr; VString (pvName prep); VError e]
  | None => capErr
  end.

(** The runs of [Provision] that reach the backoff loop: what is returned,
    after which calls to the driver. *)
Inductive provisionRun (prep : prepared) : outcome result -> list call -> Prop :=
| run_create_failed (pre : list (CreateVolumeResponse + error)) (e : error) :
    Forall timedOut pre -> (length pre < Z.to_nat backoffSteps)%nat ->
    isDeadlineExceeded e = false ->
    provisionRun prep (Ret (None, Some e))
      (fmap (CreateVolumeCall (req prep)) (pre ++ [inr e])%list)
| run_create_exhausted (evs : list (CreateVolumeResponse + error)) :
    Forall timedOut evs -> length evs = Z.to_nat backoffSteps ->
    provisionRun prep (Ret (None, Some wait.ErrWaitTimeout))
      (fmap (CreateVolumeCall (req prep)) evs)
| run_no_volume (pre : list (CreateVolumeResponse + error)) (rep : CreateVolumeResponse) :
    Forall timedOut pre -> (length pre < Z.to_nat backoffSteps)%nat ->
    rep_Volume rep = None ->
    provisionRun prep (Panic NilPointerDereference)
      (fmap (CreateVolumeCall (req prep)) (pre ++ [inl rep])%list)
| run_provisioned (pre : list (CreateVolumeResponse + error)) (rep : CreateVolumeResponse)
    (volume : Volume) (pv : PersistentVolume) :
    Forall timedOut pre -> (length pre < Z.to_nat backoffSteps)%nat ->
    rep_Volume rep = Some volume ->
    volSizeBytes prep <= vol_CapacityBytes volume ->
    provisionRun prep (Ret (Some pv, None))
      (fmap (CreateVolumeCall (req prep)) (pre ++ [inl rep])%list)
| run_under_capacity (pre : list (CreateVolumeResponse + error))
    (rep : CreateVolumeResponse) (volume : Volume) (delErr : option error) :
    Forall timedOut pre -> (length pre < Z.to_nat backoffSteps)%nat ->
    rep_Volume rep = Some volume ->
    vol_CapacityBytes volume < volSizeBytes prep ->
    provisionRun prep (Ret (None, Some (capacityError prep volume delErr)))
      (fmap (CreateVolumeCall (req prep)) (pre ++ [inl rep])%list
       ++ [DeleteVolumeCall
             {| del_VolumeId := vol_Id volume;
                del_ControllerDeleteSecrets := provisionerCredentials prep |}
             delErr]).


(** ** Concrete claims, drivers and API servers *)

Module Demo.

Definition pvc : PersistentVolumeClaim :=
  {| pvc_Name := "claim1"; pvc_Namespace := "team-a"; pvc_UID := "0a1b-2c3d";
     pvc_Annotations := {[ "example.com/secret" := "s3" ]};
     pvc_Selector := None; pvc_DataSource := None;
     pvc_AccessModes := [ReadWriteOnce];
     pvc_Requests := {[ ResourceStorage := 1073741824 ]} |}.

Definition options : VolumeOptions :=
  {| PersistentVolumeReclaimPolicy := "Delete"; PVC := pvc; Parameters := ∅ |}.

End Demo.

Module DemoSnapshot.

Definition dataSource : TypedLocalObjectReference :=
  {| ds_APIGroup := Some snapshotAPIGroup; ds_Kind := snapshotKind;
     ds_Name := "snap1" |}.

Definition pvc : PersistentVolumeClaim :=
  {| pvc_Name := "claim1"; pvc_Namespace := "team-a"; pvc_UID := "0a1b-2c3d";
     pvc_Annotations := ∅;
     pvc_Selector := None; pvc_DataSource := Some dataSource;
     pvc_AccessModes := [ReadWriteOnce];
     pvc_Requests := {[ ResourceStorage := 1073741824 ]} |}.

Definition options : VolumeOptions :=
  {| PersistentVolumeReclaimPolicy := "Delete"; PVC := pvc; Parameters := ∅ |}.

Definition snapshot (ready : bool) (restoreSize : option Z) : VolumeSnapshot :=
  {| snap_Name := "snap1"; snap_Namespace := "team-a"; snap_UID := "uid-1";
     snap_DeletionTimestamp := None; snap_SnapshotContentName := "content1";
     snap_Ready := ready; snap_RestoreSize := restoreSize |}.

Definition content : VolumeSnapshotContent :=
  {| content_VolumeSnapshotRef :=
       Some {| oref_Namespace := "team-a"; oref_Name := "snap1"; oref_UID := "uid-1" |};
     content_CSI := Some {| css_SnapshotHandle := "handle-1" |} |}.

(** A provisioner over an API server that holds the snapshot [snap] and
    its content object, and a driver that is never reached. *)
Definition provisioner (snap : VolumeSnapshot) : csiProvisioner nat :=
  {| client_Secrets_Get := fun _ _ => inr (errorString "secret not found");
     csiClient_CreateVolume := fun _ n => (inr (errorString "unreachable"), S n);
     csiClient_DeleteVolume := fun _ n => (None, S n);
     snapshotClient_VolumeSnapshots_Get := fun _ _ => inl snap;
     snapshotClient_VolumeSnapshotContents_Get := fun _ => inl content;
     identity := "provisioner-1"; volumeNamePrefix := "pvc";
     volumeNameUUIDLength := -1 |}.

End DemoSnapshot.

Module DemoDriver.

Definition deadlineExceeded : error :=
  statusError codes.DeadlineExceeded "context deadline exceeded".

(** A provisioner over a driver given by its two calls; the driver's
    state counts the calls it has answered. *)
Definition provisioner
    (create : CreateVolumeRequest -> nat -> CreateVolumeResponse + error)
    (delete : DeleteVolumeRequest -> nat -> option error) : csiProvisioner nat :=
  {| client_Secrets_Get := fun _ _ => inr (errorString "secret not found");
     csiClient_CreateVolume := fun req n => (create req n, S n);
     csiClient_DeleteVolume := fun req n => (delete req n, S n);
     snapshotClient_VolumeSnapshots_Get :=
       fun _ _ => inr (errorString "snapshot not found");
     snapshotClient_VolumeSnapshotContents_Get :=
       fun _ => inr (errorString "content not found");
     identity := "provisioner-1"; volumeNamePrefix := "pvc";
     volumeNameUUIDLength := -1 |}.

(** A driver that never answers in time. *)
Definition stalled : csiProvisioner nat :=
  provisioner (fun _ _ => inr deadlineExceeded) (fun _ _ => None).

(** A driver that times out twice and then refuses the request. *)
Definition refusing : csiProvisioner nat :=
  provisioner
    (fun _ n => if (n <? 2)%nat then inr deadlineExceeded
                else inr (statusError 3 "bad parameters"))
    (fun _ _ => None).

Definition smallVolume : Volume :=
  {| vol_CapacityBytes := 536870912; vol_Id := "vol-7"; vol_Attributes := ∅ |}.

(** A driver that allocates 512 MiB whatever is asked, and whose
    [DeleteVolume] answers [delErr]. *)
Definition underAllocating (delErr : option error) : csiProvisioner nat :=
  provisioner (fun _ _ => inl {| rep_Volume := Some smallVolume |})
    (fun _ _ => delErr).

Definition volume3Gi : Volume :=
  {| vol_CapacityBytes := 3221225472; vol_Id := "vol-8";
     vol_Attributes := {[ "vg" := "data" ]} |}.

(** A driver that allocates exactly 3 GiB. *)
Definition exact : csiProvisioner nat :=
  provisioner (fun _ _ => inl {| rep_Volume := Some volume3Gi |}) (fun _ _ => None).

(** A claim for 3 GiB. *)
Definition options3Gi : VolumeOptions :=
  {| PersistentVolumeReclaimPolicy := "Delete";
     PVC := {| pvc_Name := "claim1"; pvc_Namespace := "team-a";
               pvc_UID := "0a1b-2c3d"; pvc_Annotations := ∅;
               pvc_Selector := None; pvc_DataSource := None;
               pvc_AccessModes := [ReadWriteOnce];
               pvc_Requests := {[ ResourceStorage := 3221225472 ]} |};
     Parameters := {[ "fsType" := "xfs" ]} |}.

(** The request [Provision] builds for [Demo.options]. *)
Definition request : CreateVolumeRequest :=
  {| req_Name := "pvc-0a1b-2c3d";
     req_Parameters := ∅;
     req_VolumeCapabilities := [{| cap_Mode := SINGLE_NODE_WRITER |}];
     req_RequiredBytes := 1073741824;
     req_VolumeContentSource := None;
     req_ControllerCreateSecrets := ∅ |}.

End DemoDriver.

Module DemoNoVolume.

(** A driver whose [CreateVolume] succeeds with a response that carries no
    volume. *)
Definition driver : csiProvisioner nat :=
  DemoDriver.provisioner (fun _ _ => inl {| rep_Volume := None |}) (fun _ _ => None).

End DemoNoVolume.

Module DemoNilGroup.

Definition dataSource : TypedLocalObjectReference :=
  {| ds_APIGroup := None; ds_Kind := snapshotKind; ds_Name := "snap1" |}.

Definition pvc : PersistentVolumeClaim :=
  {| pvc_Name := "claim1"; pvc_Namespace := "team-a"; pvc_UID := "0a1b-2c3d";
     pvc_Annotations := ∅;
     pvc_Selector := None; pvc_DataSource := Some dataSource;
     pvc_AccessModes := [ReadWriteOnce];
     pvc_Requests := {[ ResourceStorage := 1073741824 ]} |}.

Definition options : VolumeOptions :=
  {| PersistentVolumeReclaimPolicy := "Delete"; PVC := pvc; Parameters := ∅ |}.

End DemoNilGroup.

(** ** [Delete] *)

(** [storagev1.StorageClass]: its [Parameters]. *)
Record StorageClass : Type := {
  sc_Parameters : gmap string string
}.

(** The [v1.PersistentVolume] that [Delete] is given: a volume together
    with its [Spec.StorageClassName], a field [Provision] leaves unset. *)
Record StoredVolume : Type := {
  sv_Volume : PersistentVolume;
  sv_StorageClassName : string
}.

Definition volumeHandleToId (handle : string) : string := handle.

Section Deleter.
Context {D : Type}.

(** [p.client.StorageV1().StorageClasses().Get(name)] *)
Variable client_StorageClasses_Get : string -> StorageClass + error.

Variable p : csiProvisioner D.

Definition errInvalidPV : error := Errorf "invalid CSI PV" [].

(** [Delete], run on a driver in state [d0]; the result comes with the
    driver's new state and the calls made to it. *)
Definition Delete (volume : option StoredVolume) (d0 : D)
  : outcome (option error) * world D :=
  body (W := world D) (
    match volume with
    | None => ret (Some errInvalidPV)
    | Some volume =>
        match pv_CSI (sv_Volume volume) with
        | None => ret (Some errInvalidPV)
        | Some source =>
            let volumeId := volumeHandleToId (csi_VolumeHandle source) in
            (* get secrets if StorageClass specifies it *)
            let storageClassName := sv_StorageClassName volume in
            secrets <-
              (if negb (len storageClassName =? 0) then
                 match client_StorageClasses_Get storageClassName with
                 | inl storageClass =>
                     let provisionerSecret :=
                       getSecretReference provisionerSecretNameKey
                         provisionerSecretNamespaceKey (sc_Parameters storageClass)
                         (pv_Name (sv_Volume volume)) None in
                     returnIf (bool_decide (is_Some (snd provisionerSecret)))
                       (snd provisionerSecret) ;;
                     let credentials := getCredentials p (fst provisionerSecret) in
                     returnIf (bool_decide (is_Some (snd credentials)))
                       (snd credentials) ;;
                     next (fst credentials)
                 | inr _ => next ∅
                 end
               else next ∅) ;;
            err <- deleteVolume p
                     {| del_VolumeId := volumeId;
                        del_ControllerDeleteSecrets := secrets |} ;;
            ret err
        end
    end)%stmt
    {| driver := d0; calls := [] |}.

End Deleter.

(** ** The volume [Provision] builds *)

Section ProvisionedVolume.
Context {D : Type} (DriverName : string) (p : csiProvisioner D).

(** The file system type [Provision] settles on for the parameters. *)
Definition fsTypeOf (parameters : gmap string string) : string :=
  let fsType :=
    map_fold (fun k v (fsType : string) =>
                if String.eqb (ToLower k) "fstype" then v else fsType)
      "" parameters in
  if len fsType =? 0 then defaultFSType else fsType.

(** The attributes [Provision] gives the volume: the provisioner's
    identity, then the driver's attributes. *)
Definition volumeAttributesOf (attributes : gmap string string)
  : gmap string string :=
  map_fold (fun k v (acc : gmap string string) => <[ k := v ]> acc)
    {[ provisionerIDKey := identity p ]} attributes.

(** The volume [finish] returns for the driver's [volume] of sufficient
    capacity. *)
Definition provisionedVolume (options : VolumeOptions) (prep : prepared)
    (volume : Volume) : PersistentVolume :=
  {| pv_Name := pvName prep;
     pv_PersistentVolumeReclaimPolicy := PersistentVolumeReclaimPolicy options;
     pv_AccessModes := pvc_AccessModes (PVC options);
     pv_Capacity :=
       {[ ResourceStorage := bytesToGiQuantity (vol_CapacityBytes volume) ]};
     pv_CSI := Some
       {| csi_Driver := DriverName;
          csi_VolumeHandle := volumeIdToHandle (vol_Id volume);
          csi_FSType := fsTypeOf (Parameters options);
          csi_VolumeAttributes := volumeAttributesOf (vol_Attributes volume);
          csi_ControllerPublishSecretRef := controllerPublishSecretRef prep;
          csi_NodeStageSecretRef := nodeStageSecretRef prep;
          csi_NodePublishSecretRef := nodePublishSecretRef prep |} |}.

End ProvisionedVolume.

(** A result with no value and a non-nil error. *)
Definition failure {A} (r : option A * option error) : Prop :=
  fst r = None /\ is_Some (snd r).

(** The number of bytes a [Quantity] stands for once parsed: [Mi] is 2^20
    and [Gi] is 2^30. *)
Definition quantityBytes (q : Quantity) : Z :=
  if String.eqb (q_suffix q) "Mi" then q_num q * 2 ^ 20
  else if String.eqb (q_suffix q) "Gi" then q_num q * 2 ^ 30
  else q_num q.

Module DemoSelector.

(** A claim with a label selector. *)
Definition options : VolumeOptions :=
  {| PersistentVolumeReclaimPolicy := "Delete";
     PVC := {| pvc_Name := "claim1"; pvc_Namespace := "team-a";
               pvc_UID := "0a1b-2c3d"; pvc_Annotations := ∅;
               pvc_Selector := Some tt; pvc_DataSource := None;
               pvc_AccessModes := [ReadWriteOnce];
               pvc_Requests := {[ ResourceStorage := 1073741824 ]} |};
     Parameters := ∅ |}.

End DemoSelector.

Module DemoProvisioned.

(** What [prepare] sets for [DemoDriver.options3Gi]. *)
Definition prepared3Gi : prepared :=
  {| pvName := "pvc-0a1b-2c3d";
     volSizeBytes := 3221225472;
     req := {| req_Name := "pvc-0a1b-2c3d";
               req_Parameters := {[ "fsType" := "xfs" ]};
               req_VolumeCapabilities := [{| cap_Mode := SINGLE_NODE_WRITER |}];
               req_RequiredBytes := 3221225472;
               req_VolumeContentSource := None;
               req_ControllerCreateSecrets := ∅ |};
     provisionerCredentials := ∅;
     controllerPublishSecretRef := None;
     nodeStageSecretRef := None;
     nodePublishSecretRef := None |}.

(** The volume [Provision] returns for [DemoDriver.options3Gi] on the
    driver [DemoDriver.exact]. *)
Definition volume : PersistentVolume :=
  provisionedVolume "csi-lvm" DemoDriver.exact DemoDriver.options3Gi
    prepared3Gi DemoDriver.volume3Gi.

End DemoProvisioned.

Module DemoDelete.

(** An API server with the storage class "fast", whose parameters name the
    provisioner secret "lvm-creds" in the namespace "kube-system". *)
Definition storageClasses (name : string) : StorageClass + error :=
  if String.eqb name "fast" then
    inl {| sc_Parameters :=
             {[ provisionerSecretNameKey := "lvm-creds";
                provisionerSecretNamespaceKey := "kube-system" ]} |}
  else inr (errorString "storageclass not found").

(** A provisioner whose API server holds that secret and whose driver
    answers [DeleteVolume] with [delErr]. *)
Definition provisioner (delErr : option error) : csiProvisioner nat :=
  {| client_Secrets_Get := fun namespace name =>
       if String.eqb namespace "kube-system" && String.eqb name "lvm-creds"
       then inl {| secret_Data := {[ "user" := "admin"; "password" := "s3cr3t" ]} |}
       else inr (errorString "secret not found");
     csiClient_CreateVolume := fun _ n => (inr (errorString "not expected"), S n);
     csiClient_DeleteVolume := fun _ n => (delErr, S n);
     snapshotClient_VolumeSnapshots_Get :=
       fun _ _ => inr (errorString "snapshot not found");
     snapshotClient_VolumeSnapshotContents_Get :=
       fun _ => inr (errorString "content not found");
     identity := "provisioner-1"; volumeNamePrefix := "pvc";
     volumeNameUUIDLength := -1 |}.

(** The provisioned demo volume, stored with the class [className]. *)
Definition stored (className : string) : StoredVolume :=
  {| sv_Volume := DemoProvisioned.volume; sv_StorageClassName := className |}.

(** A volume without CSI source. *)
Definition foreign : StoredVolume :=
  {| sv_Volume :=
       {| pv_Name := "nfs-1"; pv_PersistentVolumeReclaimPolicy := "Retain";
          pv_AccessModes := [ReadWriteMany]; pv_Capacity := ∅; pv_CSI := None |};
     sv_StorageClassName := "" |}.

End DemoDelete.

Module DemoSecrets.

(** Parameters whose secret name comes from a claim annotation and whose
    secret namespace is the claim's namespace. *)
Definition params : gmap string string :=
  {[ nodePublishSecretNameKey := "${pvc.annotations['example.com/secret']}";
     nodePublishSecretNamespaceKey := "${pvc.namespace}" ]}.

(** Another claim of the namespace "team-a", with a name and an annotation
    of its own. *)
Definition otherClaim : PersistentVolumeClaim :=
  {| pvc_Name := "claim2"; pvc_Namespace := "team-a"; pvc_UID := "ffff-0000";
     pvc_Annotations := {[ "example.com/secret" := "other" ]};
     pvc_Selector := None; pvc_DataSource := None;
     pvc_AccessModes := [ReadOnlyMany];
     pvc_Requests := {[ ResourceStorage := 1 ]} |}.

End DemoSecrets.

Module DemoPublish.

(** Options whose node publish secret is named by a claim annotation, in
    the claim's namespace. *)
Definition options : VolumeOptions :=
  {| PersistentVolumeReclaimPolicy := "Delete"; PVC := Demo.pvc;
     Parameters := DemoSecrets.params |}.

Definition volume1Gi : Volume :=
  {| vol_CapacityBytes := 1073741824; vol_Id := "vol-1"; vol_Attributes := ∅ |}.

(** A driver that allocates 1 GiB at once. *)
Definition driver : csiProvisioner nat :=
  DemoDriver.provisioner (fun _ _ => inl {| rep_Volume := Some volume1Gi |})
    (fun _ _ => None).

End DemoPublish.

(** * [cmd/attacher]: waiting for the driver

    [waitForDriverReady] reads the clock, probes the driver and sleeps.
    The three are calls on the environment, whose type [W] is left open;
    each call is logged. Times and durations are in nanoseconds. *)

Module AttacherMain.

Inductive event : Type :=
| NowCall (t : Z)
| ProbeCall (timeout : Z) (err : option error)
| SleepCall (d : Z).

Record world (W : Type) : Type := {
  env : W;
  log : list event
}.
Arguments env {W} _.
Arguments log {W} _.

(** [time.Second] *)
Definition Second : Z := 1000000000.

Definition isProbe (ev : event) : bool :=
  match ev with ProbeCall _ _ => true | _ => false end.

Section WaitForDriverReady.
Context {W : Type}.

(** [time.Now()] *)
Variable time_Now : W -> Z * W.
(** [csiConn.Probe(ctx)], for a context with the given timeout *)
Variable csiConn_Probe : Z -> W -> option error * W.
(** [time.Sleep(d)] *)
Variable time_Sleep : Z -> W -> W.

(** The [for] loop: [fuel] bounds the number of its rounds, and the result
    is [None] when they are used up. *)
Fixpoint probeLoop (fuel : nat) (timeout finish : Z) (w : world W)
  : option (option error) * world W :=
  match fuel with
  | O => (None, w)
  | S fuel' =>
      let probed := csiConn_Probe timeout (env w) in
      let w1 := {| env := snd probed;
                   log := log w ++ [ProbeCall timeout (fst probed)] |} in
      match fst probed with
      | None => (Some None, w1)
      | Some err =>
          let read := time_Now (env w1) in
          let now := fst read in
          let w2 := {| env := snd read; log := log w1 ++ [NowCall now] |} in
          if finish <? now then
            (Some (Some (Errorf "Failed to probe the attacher: %s" [VError err])), w2)
          else
            probeLoop fuel' timeout finish
              {| env := time_Sleep Second (env w2);
                 log := log w2 ++ [SleepCall Second] |}
      end
  end.

Definition waitForDriverReady (fuel : nat) (timeout : Z) (e0 : W)
  : option (option error) * world W :=
  let read := time_Now e0 in
  let now := fst read in
  let finish := now + timeout in
  probeLoop fuel timeout finish {| env := snd read; log := [NowCall now] |}.

End WaitForDriverReady.

(** One round of the loop that does not end it: a failed probe, a clock
    reading and a sleep of one second. *)
Definition round (timeout : Z) (x : error * Z) : list event :=
  [ProbeCall timeout (Some (fst x)); NowCall (snd x); SleepCall Second].

(** A driver that fails every probe, each taking 300 ms, on a clock that
    only these calls advance. *)
Module DemoWait.

Definition notReady : error := errorString "connection refused".
Definition Now (t : Z) : Z * Z := (t, t).
Definition Probe (timeout t : Z) : option error * Z := (Some notReady, t + 300000000).
Definition Sleep (d t : Z) : Z := t + d.

End DemoWait.

End AttacherMain.

(** * Properties *)

(** ** The definitions at work *)

Example makeVolumeName_full :
  makeVolumeName "pvc" "0a1b-2c3d" (-1) = Ret ("pvc-0a1b-2c3d", None).
Proof. reflexivity. Qed.

Example makeVolumeName_truncated :
  makeVolumeName "pvc" "0a1b-2c3d" 6 = Ret ("pvc-0a1b2c", None).
Proof. reflexivity. Qed.

Example makeVolumeName_negative_length :
  makeVolumeName "pvc" "0a1b-2c3d" (-2) = Panic SliceBoundsOutOfRange.
Proof. reflexivity. Qed.

Example Expand_forms :
  let upper (k : string) (n : nat) := ("<" ++ k ++ ">", S n) in
  os.Expand upper "a${x}b$y_1-$*${" 0%nat = ("a<x>b<y_1>-<*>", 3%nat)
  /\ os.Expand upper "cost: 5$" 0%nat = ("cost: 5$", 0%nat)
  /\ os.Expand upper "$ ${}x" 0%nat = ("$ x", 0%nat).
Proof. vm_compute. repeat split. Qed.

Example resolveTemplate_resolved :
  resolveTemplate "ns-${pv.name}-x" {[ "pv.name" := "vol1" ]} = ("ns-vol1-x", None).
Proof. vm_compute. reflexivity. Qed.

Example resolveTemplate_missing :
  resolveTemplate "${b}-${a}-${b}$c" {[ "pv.name" := "vol1" ]}
  = ("", Some (Errorf "invalid tokens: %q" [VStrings ["a"; "b"; "c"]])).
Proof. vm_compute. reflexivity. Qed.

Example IsDNS1123_samples :
  validation.IsDNS1123Label "a.b" = [validation.RegexError]
  /\ validation.IsDNS1123Subdomain "a.b" = []
  /\ validation.IsDNS1123Subdomain "a..b" = [validation.RegexError]
  /\ validation.IsDNS1123Label "-a" = [validation.RegexError]
  /\ validation.IsDNS1123Label "a-1" = [].
Proof. vm_compute. repeat split. Qed.

Example getSecretReference_resolved :
  getSecretReference "n" "ns"
    {[ "n" := "${pvc.annotations['example.com/secret']}.${pvc.name}";
       "ns" := "${pvc.namespace}" ]} "pv1" (Some Demo.pvc)
  = (Some {| ref_Name := "s3.claim1"; ref_Namespace := "team-a" |}, None).
Proof. vm_compute. reflexivity. Qed.

Example bytesToGiQuantity_samples :
  bytesToGiQuantity (3 * 1024 * 1024 * 1024) = {| q_num := 3; q_suffix := "Gi" |}
  /\ bytesToGiQuantity (512 * 1024 * 1024) = {| q_num := 512; q_suffix := "Mi" |}
  /\ bytesToGiQuantity 1 = {| q_num := 1; q_suffix := "Mi" |}
  /\ float64_of_int (2 ^ 53 + 1) = 2 ^ 53.
Proof. vm_compute. repeat split. Qed.

(** A claim for 3 GiB answered with a volume of exactly 3 GiB is
    provisioned after one call, with the capacity "3Gi". *)
Example Provision_exact_capacity :
  let run := Provision "csi-lvm" DemoDriver.exact DemoDriver.options3Gi 0%nat in
  exists pv,
    fst run = Ret (Some pv, None)
    /\ pv_Name pv = "pvc-0a1b-2c3d"
    /\ pv_Capacity pv !! ResourceStorage = Some {| q_num := 3; q_suffix := "Gi" |}
    /\ length (calls (snd run)) = 1%nat.
Proof. eexists. vm_compute. repeat split. Qed.

(** The message of the capacity error after a failed cleanup. *)
Example capacity_error_message :
  Error (Errorf "%v. Cleanup of volume %s failed, volume is orphaned: %v"
           [VError (Errorf "created volume capacity %v less than requested capacity %v"
                      [VInt 536870912; VInt 1073741824]);
            VString "pvc-0a1b-2c3d"; VError (statusError 13 "device busy")])
  = Some ("created volume capacity 536870912 less than requested capacity 1073741824"
          ++ ". Cleanup of volume pvc-0a1b-2c3d failed, volume is orphaned: "
          ++ "rpc error: code = Internal desc = device busy").
Proof. vm_compute. reflexivity. Qed.

(** ** Strings *)

Lemma len_nonneg (s : string) : 0 <= len s.
Proof. unfold len. lia. Qed.

Lemma len_zero (s : string) : len s = 0 <-> s = EmptyString.
Proof.
  unfold len. destruct s as [|c s]; simpl; split; intros H;
    try reflexivity; try discriminate; lia.
Qed.

Lemma len_eqb_zero (s : string) : (len s =? 0) = false <-> s <> EmptyString.
Proof.
  rewrite Z.eqb_neq. rewrite len_zero. tauto.
Qed.

Lemma app_empty_l (s : string) : (EmptyString ++ s)%string = s.
Proof. reflexivity. Qed.

Lemma app_String (c : ascii) (s t : string) :
  (String c s ++ t)%string = String c (s ++ t).
Proof. reflexivity. Qed.

Lemma app_assoc_string (s t u : string) : ((s ++ t) ++ u)%string = (s ++ (t ++ u))%string.
Proof.
  induction s as [|c s IH]; [reflexivity|].
  rewrite !app_String. f_equal. exact IH.
Qed.

Lemma string_length_app (s t : string) :
  String.length (s ++ t) = (String.length s + String.length t)%nat.
Proof.
  induction s as [|c s IH]; simpl; [reflexivity|].
  f_equal. exact IH.
Qed.

Lemma len_app (s t : string) : len (s ++ t) = len s + len t.
Proof. unfold len. rewrite string_length_app. lia. Qed.

Lemma ReplaceAll_drop_no_byte (s : string) (c : ascii) :
  strings.ContainsByte (strings.ReplaceAll s c "") c = false.
Proof.
  induction s as [|d s IH]; simpl; [reflexivity|].
  destruct (Ascii.eqb d c) eqn:E; simpl; [exact IH|].
  rewrite E. exact IH.
Qed.

Lemma ContainsByte_substring (s : string) (c : ascii) (n m : nat) :
  strings.ContainsByte s c = false ->
  strings.ContainsByte (String.substring n m s) c = false.
Proof.
  revert n m. induction s as [|d s IH]; intros n m H.
  - destruct n, m; reflexivity.
  - simpl in H. apply orb_false_iff in H as [Hd Hs].
    destruct n as [|n]; destruct m as [|m]; simpl; auto.
    rewrite Hd. simpl. auto.
Qed.

Lemma substring_0_length (s : string) (m : nat) :
  (m <= String.length s)%nat -> String.length (String.substring 0 m s) = m.
Proof.
  revert m. induction s as [|d s IH]; intros [|m] H; simpl in *; try lia.
  f_equal. apply IH. lia.
Qed.

(** ** [makeVolumeName] *)

Lemma makeVolumeName_guarded (prefix pvcUID : string) (n : Z) :
  prefix <> "" -> pvcUID <> "" -> n <> -1 ->
  makeVolumeName prefix pvcUID n
  = obind (slice0 (strings.ReplaceAll pvcUID "-" "") n)
      (fun id => Ret (prefix ++ "-" ++ id, None)).
Proof.
  intros Hp Hu Hn. unfold makeVolumeName.
  apply len_eqb_zero in Hp. apply len_eqb_zero in Hu.
  rewrite Hp, Hu. apply Z.eqb_neq in Hn. rewrite Hn. reflexivity.
Qed.

Lemma slice0_in_range (s : string) (hi : Z) :
  0 <= hi <= len s -> slice0 s hi = Ret (String.substring 0 (Z.to_nat hi) s).
Proof.
  intros [H0 H1]. unfold slice0.
  apply Z.leb_le in H0. apply Z.leb_le in H1. rewrite H0, H1. reflexivity.
Qed.

Lemma slice0_out_of_range (s : string) (hi : Z) :
  hi < 0 \/ len s < hi -> slice0 s hi = Panic SliceBoundsOutOfRange.
Proof.
  intros H. unfold slice0.
  destruct (0 <=? hi) eqn:E0; [|reflexivity].
  destruct (hi <=? len s) eqn:E1; [|reflexivity].
  apply Z.leb_le in E0. apply Z.leb_le in E1. lia.
Qed.

(** C4, as the code has it. [makeVolumeName] is a function of its three
    arguments. An empty prefix or an empty identifier gives an error. With
    a non-empty prefix and identifier: for the length -1 the name is the
    prefix, a dash and the whole identifier, dashes included; for a length
    [n] between 0 and the length of the identifier without its dashes, the
    name is the prefix, a dash and an identifier part of exactly [n] bytes
    that holds no dash, the first [n] bytes of the identifier without its
    dashes. *)
Theorem makeVolumeName_spec (prefix pvcUID : string) (n : Z) :
  (prefix = "" \/ pvcUID = "" ->
   exists err, makeVolumeName prefix pvcUID n = Ret ("", Some err))
  /\ (prefix <> "" -> pvcUID <> "" -> n = -1 ->
      makeVolumeName prefix pvcUID n = Ret (prefix ++ "-" ++ pvcUID, None))
  /\ (prefix <> "" -> pvcUID <> "" ->
      0 <= n <= len (strings.ReplaceAll pvcUID "-" "") ->
      exists id,
        makeVolumeName prefix pvcUID n = Ret (prefix ++ "-" ++ id, None)
        /\ len id = n
        /\ strings.ContainsByte id "-" = false
        /\ id = String.substring 0 (Z.to_nat n) (strings.ReplaceAll pvcUID "-" ""))
  /\ (forall prefix' pvcUID' n',
        prefix' = prefix -> pvcUID' = pvcUID -> n' = n ->
        makeVolumeName prefix' pvcUID' n' = makeVolumeName prefix pvcUID n).
Proof.
  repeat split.
  - intros [-> | ->].
    + eexists. reflexivity.
    + unfold makeVolumeName. destruct (len prefix =? 0); eexists; reflexivity.
  - intros Hp Hu ->. unfold makeVolumeName.
    apply len_eqb_zero in Hp. apply len_eqb_zero in Hu.
    rewrite Hp, Hu. reflexivity.
  - intros Hp Hu Hn.
    exists (String.substring 0 (Z.to_nat n) (strings.ReplaceAll pvcUID "-" "")).
    repeat split.
    + rewrite makeVolumeName_guarded by (auto; lia).
      rewrite slice0_in_range by exact Hn. reflexivity.
    + unfold len in *. rewrite substring_0_length; lia.
    + apply ContainsByte_substring. apply ReplaceAll_drop_no_byte.
  - intros ? ? ? -> -> ->. reflexivity.
Qed.

Lemma makeVolumeName_spec_witness :
  exists id,
    makeVolumeName "pvc" "0a1b-2c3d" 4 = Ret ("pvc" ++ "-" ++ id, None)
    /\ len id = 4
    /\ strings.ContainsByte id "-" = false
    /\ id = String.substring 0 (Z.to_nat 4) (strings.ReplaceAll "0a1b-2c3d" "-" "").
Proof.
  apply (proj1 (proj2 (proj2 (makeVolumeName_spec "pvc" "0a1b-2c3d" 4)))).
  - discriminate.
  - discriminate.
  - vm_compute. split; discriminate.
Defined.

(** C4 as stated fails: with the prefix "pvc", the identifier "ab-cd" and
    the configured length 10, no name with an identifier part of 10 bytes
    is returned (the call panics). *)
Lemma makeVolumeName_truncation_counterexample :
  "pvc" <> "" /\ "ab-cd" <> "" /\ 10 <> -1
  /\ ~ (exists id,
          makeVolumeName "pvc" "ab-cd" 10 = Ret ("pvc" ++ "-" ++ id, None)
          /\ len id = 10
          /\ strings.ContainsByte id "-" = false).
Proof.
  repeat split; try discriminate.
  intros (id & H & _). vm_compute in H. discriminate H.
Qed.

(** C9. Past the two emptiness checks and with a length [n >= 0],
    [makeVolumeName] returns exactly when the identifier without its dashes
    has at least [n] bytes; when it is shorter, the slice expression is out
    of range and the call panics: no error is returned. *)
Theorem makeVolumeName_short_uid_panics (prefix pvcUID : string) (n : Z) :
  prefix <> "" -> pvcUID <> "" -> 0 <= n ->
  (len (strings.ReplaceAll pvcUID "-" "") < n ->
   slice0 (strings.ReplaceAll pvcUID "-" "") n = Panic SliceBoundsOutOfRange
   /\ makeVolumeName prefix pvcUID n = Panic SliceBoundsOutOfRange)
  /\ ((exists r, makeVolumeName prefix pvcUID n = Ret r)
      <-> n <= len (strings.ReplaceAll pvcUID "-" "")).
Proof.
  intros Hp Hu Hn.
  assert (Hg := makeVolumeName_guarded prefix pvcUID n Hp Hu ltac:(lia)).
  split.
  - intros Hlt. rewrite Hg.
    rewrite slice0_out_of_range by (right; exact Hlt). split; reflexivity.
  - split.
    + intros [r Hr].
      destruct (Z.le_gt_cases n (len (strings.ReplaceAll pvcUID "-" ""))) as [Hle|Hgt];
        [exact Hle|].
      rewrite Hg, slice0_out_of_range in Hr by (right; lia). discriminate Hr.
    + intros Hle. rewrite Hg, slice0_in_range by lia. eexists. reflexivity.
Qed.

Lemma makeVolumeName_short_uid_panics_witness :
  makeVolumeName "pvc" "ab-cd" 10 = Panic SliceBoundsOutOfRange.
Proof.
  apply (makeVolumeName_short_uid_panics "pvc" "ab-cd" 10).
  - discriminate.
  - discriminate.
  - lia.
  - vm_compute. reflexivity.
Defined.

(** ** [os.Expand] on templates of literal text and tokens *)

Section ExpandFacts.
Context {St : Type} (mapping : string -> St -> string * St).

Lemma expandFrom_skip (s1 s2 : string) (st : St) :
  os.expandFrom mapping (String.length s1) (s1 ++ s2) st
  = os.expandFrom mapping 0 s2 st.
Proof.
  induction s1 as [|c s1 IH]; [reflexivity|].
  rewrite app_String. cbn [String.length os.expandFrom]. exact IH.
Qed.

Lemma expandFrom_literal (s rest : string) (st : St) :
  strings.ContainsByte s "$" = false ->
  os.expandFrom mapping 0 (s ++ rest) st
  = let '(r, st') := os.expandFrom mapping 0 rest st in (s ++ r, st').
Proof.
  induction s as [|c s IH]; intros H.
  - rewrite app_empty_l. destruct (os.expandFrom mapping 0 rest st) as [r st'].
    rewrite app_empty_l. reflexivity.
  - simpl in H. apply orb_false_iff in H as [Hc Hs].
    rewrite app_String. cbn [os.expandFrom]. rewrite Hc. cbn [andb].
    rewrite (IH Hs).
    destruct (os.expandFrom mapping 0 rest st) as [r st'].
    rewrite app_String. reflexivity.
Qed.

Lemma beforeBrace_token (t rest : string) :
  strings.ContainsByte t "}" = false ->
  os.beforeBrace (t ++ String "}" rest) = Some t.
Proof.
  induction t as [|c t IH]; intros H.
  - reflexivity.
  - simpl in H. apply orb_false_iff in H as [Hc Ht].
    rewrite app_String. cbn [os.beforeBrace].
    rewrite Hc. rewrite (IH Ht). reflexivity.
Qed.

Lemma getShellName_braced (t rest : string) :
  t <> EmptyString ->
  strings.ContainsByte t "}" = false ->
  os.getShellName (String "{" (t ++ String "}" rest))
  = (t, S (S (String.length t))).
Proof.
  intros Hne Hb.
  assert (Hgen :
    match os.beforeBrace (t ++ String "}" rest) with
    | Some EmptyString => (EmptyString, 2%nat)
    | Some name => (name, S (S (String.length name)))
    | None => (EmptyString, 1%nat)
    end = (t, S (S (String.length t)))).
  { rewrite beforeBrace_token by exact Hb.
    destruct t; [congruence | reflexivity]. }
  unfold os.getShellName. cbn [Ascii.eqb Bool.eqb].
  destruct t as [|c1 t]; [congruence|].
  destruct t as [|c2 t].
  - rewrite app_String, app_empty_l in *.
    cbn [Ascii.eqb Bool.eqb andb].
    destruct (os.isShellSpecialVar c1); [reflexivity|].
    rewrite andb_true_r. cbn [andb]. exact Hgen.
  - rewrite !app_String in *.
    assert (Hc2 : Ascii.eqb c2 "}" = false).
    { simpl in Hb. apply orb_false_iff in Hb as [_ Hb].
      apply orb_false_iff in Hb as [Hb _]. exact Hb. }
    rewrite Hc2, andb_false_r. exact Hgen.
Qed.

Lemma expandFrom_token (t rest : string) (st : St) :
  t <> EmptyString ->
  strings.ContainsByte t "}" = false ->
  os.expandFrom mapping 0 (("${" ++ t ++ "}") ++ rest) st
  = let '(v, st1) := mapping t st in
    let '(r, st2) := os.expandFrom mapping 0 rest st1 in
    (v ++ r, st2).
Proof.
  intros Hne Hb.
  assert (Hshape : (("${" ++ t ++ "}") ++ rest)%string
                   = String "$" (String "{" (t ++ String "}" rest))).
  { rewrite !app_String, app_empty_l. do 2 f_equal.
    rewrite app_assoc_string. reflexivity. }
  rewrite Hshape. cbn [os.expandFrom].
  cbn [Ascii.eqb Bool.eqb andb String.eqb negb].
  rewrite (getShellName_braced t rest Hne Hb).
  destruct (String.eqb t EmptyString) eqn:Et.
  { apply String.eqb_eq in Et. congruence. }
  destruct (mapping t st) as [v st1].
  assert (Hskip :
    os.expandFrom mapping (S (S (String.length t)))
      (String "{" (t ++ String "}" rest)) st1
    = os.expandFrom mapping 0 rest st1).
  { pose proof (expandFrom_skip (String "{" (t ++ "}")) rest st1) as Hs.
    replace (String.length (String "{" (t ++ "}")))
      with (S (S (String.length t))) in Hs
      by (cbn [String.length]; rewrite string_length_app; simpl; lia).
    rewrite app_String, app_assoc_string in Hs. exact Hs. }
  cbn [os.expandFrom] in Hskip. rewrite Hskip. reflexivity.
Qed.

Lemma Expand_templateOf (ps : list piece) (st : St) :
  forallb wellFormed ps = true ->
  os.Expand mapping (templateOf ps) st = expandPieces mapping ps st.
Proof.
  unfold os.Expand. revert st.
  induction ps as [|x ps IH]; intros st Hwf; [reflexivity|].
  simpl in Hwf. apply andb_true_iff in Hwf as [Hx Hps].
  destruct x as [s|t]; simpl templateOf; simpl expandPieces.
  - simpl in Hx. apply negb_true_iff in Hx.
    rewrite (expandFrom_literal s _ st Hx). rewrite (IH st Hps). reflexivity.
  - simpl in Hx. apply andb_true_iff in Hx as [Hne Hb].
    apply negb_true_iff in Hne. apply String.eqb_neq in Hne.
    apply negb_true_iff in Hb.
    change (pieceText (Token t)) with ("${" ++ t ++ "}")%string.
    rewrite (expandFrom_token t _ st Hne Hb).
    destruct (mapping t st) as [v st1]. rewrite (IH st1 Hps). reflexivity.
Qed.

End ExpandFacts.

(** ** [resolveTemplate] *)

Lemma resolveTemplate_unfold (template : string) (params : gmap string string) :
  resolveTemplate template params
  = let '(resolved, missingParams) :=
      os.Expand (lookupOrRecord params) template ∅ in
    if 0 <? Z.of_nat (size missingParams)
    then ("", Some (Errorf "invalid tokens: %q" [VStrings (sets.List missingParams)]))
    else (resolved, None).
Proof. reflexivity. Qed.

Lemma expandPieces_lookupOrRecord (params : gmap string string)
    (ps : list piece) (acc : gset string) :
  expandPieces (lookupOrRecord params) ps acc
  = (substitute params ps, list_to_set (missingTokens params ps) ∪ acc).
Proof.
  revert acc. induction ps as [|x ps IH]; intros acc.
  - simpl. f_equal. set_solver.
  - destruct x as [s|t]; cbn [expandPieces].
    + rewrite IH. reflexivity.
    + unfold lookupOrRecord at 1. unfold missingTokens. cbn [tokensOf flat_map app List.filter].
      destruct (params !! t) as [v|] eqn:Et.
      * rewrite IH. cbn [substitute fold_right]. rewrite Et.
        rewrite bool_decide_eq_false_2 by congruence. reflexivity.
      * rewrite IH. cbn [substitute fold_right]. rewrite Et.
        rewrite bool_decide_eq_true_2 by reflexivity.
        f_equal. unfold missingTokens. cbn [list_to_set]. set_solver.
Qed.

Lemma In_sets_List (s : gset string) (t : string) :
  In t (sets.List s) <-> t ∈ s.
Proof.
  unfold sets.List. rewrite <- list_elem_of_In.
  rewrite merge_sort_Permutation. apply elem_of_elements.
Qed.

Lemma size_list_to_set_pos (l : list string) :
  (0 <? Z.of_nat (size (list_to_set l : gset string))) = negb (bool_decide (l = [])).
Proof.
  destruct l as [|x l].
  - reflexivity.
  - rewrite bool_decide_eq_false_2 by discriminate. simpl negb.
    apply Z.ltb_lt.
    assert (size (list_to_set (x :: l) : gset string) <> 0%nat); [|lia].
    intros H. apply size_empty_inv in H.
    assert (x ∈ (∅ : gset string)) as Hx; [|set_solver].
    rewrite <- (leibniz_equiv _ _ H). set_solver.
Qed.

Lemma resolveTemplate_templateOf (params : gmap string string) (ps : list piece) :
  forallb wellFormed ps = true ->
  resolveTemplate (templateOf ps) params
  = if bool_decide (missingTokens params ps = [])
    then (substitute params ps, None)
    else ("", Some (Errorf "invalid tokens: %q"
                      [VStrings (sets.List (list_to_set (missingTokens params ps)))])).
Proof.
  intros Hwf. rewrite resolveTemplate_unfold.
  rewrite (Expand_templateOf _ ps ∅ Hwf).
  rewrite expandPieces_lookupOrRecord.
  rewrite !union_empty_r_L.
  rewrite size_list_to_set_pos.
  destruct (bool_decide (missingTokens params ps = [])); reflexivity.
Qed.

Lemma In_missingTokens (params : gmap string string) (ps : list piece) (t : string) :
  In t (missingTokens params ps) <-> In t (tokensOf ps) /\ params !! t = None.
Proof.
  unfold missingTokens. rewrite filter_In.
  rewrite bool_decide_eq_true. reflexivity.
Qed.

(** C6. A template made of literal text and [${token}] forms, at least one
    of whose tokens the parameter map does not define, does not resolve:
    [resolveTemplate] returns the "invalid tokens" error, and the tokens
    this error lists are exactly the tokens of the template that the map
    does not define, all of them. *)
Theorem resolveTemplate_lists_every_missing_token
    (params : gmap string string) (ps : list piece) :
  forallb wellFormed ps = true ->
  (exists t, In t (tokensOf ps) /\ params !! t = None) ->
  exists listed,
    resolveTemplate (templateOf ps) params
    = ("", Some (Errorf "invalid tokens: %q" [VStrings listed]))
    /\ (forall t, In t listed <-> In t (tokensOf ps) /\ params !! t = None).
Proof.
  intros Hwf (t0 & Hin & Hnone).
  exists (sets.List (list_to_set (missingTokens params ps))). split.
  - rewrite (resolveTemplate_templateOf params ps Hwf).
    rewrite bool_decide_eq_false_2; [reflexivity|].
    intros Hnil.
    assert (In t0 (missingTokens params ps)) as Hm
      by (apply In_missingTokens; split; assumption).
    rewrite Hnil in Hm. exact Hm.
  - intros t. rewrite In_sets_List. rewrite elem_of_list_to_set.
    rewrite list_elem_of_In. apply In_missingTokens.
Qed.

Lemma resolveTemplate_lists_every_missing_token_witness :
  exists listed,
    resolveTemplate "ns-${b}-${a}${pv.name}${b}" {[ "pv.name" := "vol1" ]}
    = ("", Some (Errorf "invalid tokens: %q" [VStrings listed]))
    /\ (forall t,
          In t listed
          <-> In t ["b"; "a"; "pv.name"; "b"]
              /\ ({[ "pv.name" := "vol1" ]} : gmap string string) !! t = None).
Proof.
  apply (resolveTemplate_lists_every_missing_token {[ "pv.name" := "vol1" ]}
           [Lit "ns-"; Token "b"; Lit "-"; Token "a"; Token "pv.name"; Token "b"]).
  - vm_compute. reflexivity.
  - exists "a". split; [simpl; tauto | vm_compute; reflexivity].
Defined.

(** ** [getSecretReference] *)

(** C5. When the parameter map has neither the secret name key nor the
    secret namespace key, [getSecretReference] returns a nil reference and
    no error; when it has exactly one of the two, it returns the error
    "... parameters must be specified together". *)
Theorem getSecretReference_presence (nameKey namespaceKey : string)
    (storageClassParams : gmap string string) (pvName : string)
    (pvc : option PersistentVolumeClaim) :
  (storageClassParams !! nameKey = None ->
   storageClassParams !! namespaceKey = None ->
   getSecretReference nameKey namespaceKey storageClassParams pvName pvc
   = (None, None))
  /\ ((is_Some (storageClassParams !! nameKey)
       /\ storageClassParams !! namespaceKey = None)
      \/ (storageClassParams !! nameKey = None
          /\ is_Some (storageClassParams !! namespaceKey)) ->
      getSecretReference nameKey namespaceKey storageClassParams pvName pvc
      = (None, Some (Errorf "%s and %s parameters must be specified together"
                       [VString nameKey; VString namespaceKey]))).
Proof.
  split.
  - intros Hn Hs. unfold getSecretReference. rewrite Hn, Hs. reflexivity.
  - intros [[[v Hn] Hs] | [Hn [v Hs]]]; unfold getSecretReference;
      rewrite Hn, Hs; cbn [default negb andb];
      rewrite ?bool_decide_eq_true_2 by eauto;
      rewrite ?bool_decide_eq_false_2 by (intros [? ?]; discriminate);
      cbn [negb andb].
    + change (len "" =? 0) with true. rewrite orb_true_r. reflexivity.
    + change (len "" =? 0) with true. reflexivity.
Qed.

Lemma getSecretReference_presence_witness :
  getSecretReference "n" "ns" {[ "n" := "secret1" ]} "pv1" None
  = (None, Some (Errorf "%s and %s parameters must be specified together"
                   [VString "n"; VString "ns"])).
Proof.
  apply (getSecretReference_presence "n" "ns" {[ "n" := "secret1" ]} "pv1" None).
  left. split; [exists "secret1" | ]; vm_compute; reflexivity.
Defined.

Lemma app_empty_r (s : string) : (s ++ EmptyString)%string = s.
Proof.
  induction s as [|c s IH]; [reflexivity|].
  rewrite app_String. f_equal. exact IH.
Qed.

Lemma ContainsByte_app (s t : string) (c : ascii) :
  strings.ContainsByte (s ++ t) c
  = strings.ContainsByte s c || strings.ContainsByte t c.
Proof.
  induction s as [|d s IH]; [reflexivity|].
  rewrite app_String. cbn [strings.ContainsByte]. rewrite IH.
  apply orb_assoc.
Qed.

Lemma resolveTemplate_literal (s : string) (params : gmap string string) :
  strings.ContainsByte s "$" = false ->
  resolveTemplate s params = (s, None).
Proof.
  intros H.
  pose proof (resolveTemplate_templateOf params [Lit s]) as Hr.
  cbn [templateOf fold_right pieceText forallb wellFormed] in Hr.
  rewrite app_empty_r in Hr. rewrite H in Hr.
  rewrite (Hr eq_refl). cbn. rewrite app_empty_r. reflexivity.
Qed.

Lemma isLabelByte_not_dollar (c : ascii) :
  validation.isLabelByte c = true -> Ascii.eqb c "$" = false.
Proof.
  intros H. destruct (Ascii.eqb c "$") eqn:E; [|reflexivity].
  apply Ascii.eqb_eq in E. subst c. vm_compute in H. discriminate H.
Qed.

Lemma isLowerAlnum_isLabelByte (c : ascii) :
  validation.isLowerAlnum c = true -> validation.isLabelByte c = true.
Proof. intros H. unfold validation.isLabelByte. rewrite H. apply orb_true_r. Qed.

Lemma matchLabelTail_no_dollar (s : string) :
  validation.matchLabelTail s = true -> strings.ContainsByte s "$" = false.
Proof.
  induction s as [|c s IH]; intros H; [reflexivity|].
  cbn [strings.ContainsByte]. destruct s as [|d s].
  - cbn [validation.matchLabelTail] in H.
    rewrite (isLabelByte_not_dollar c (isLowerAlnum_isLabelByte c H)).
    reflexivity.
  - cbn [validation.matchLabelTail] in H. fold validation.matchLabelTail in H.
    apply andb_true_iff in H as [Hc Hs].
    rewrite (isLabelByte_not_dollar c Hc). exact (IH Hs).
Qed.

Lemma matchLabel_no_dollar (s : string) :
  validation.matchLabel s = true -> strings.ContainsByte s "$" = false.
Proof.
  destruct s as [|c s]; intros H; [reflexivity|].
  cbn [strings.ContainsByte]. destruct s as [|d s].
  - cbn [validation.matchLabel] in H.
    rewrite (isLabelByte_not_dollar c (isLowerAlnum_isLabelByte c H)).
    reflexivity.
  - cbn [validation.matchLabel] in H.
    apply andb_true_iff in H as [Hc Hs].
    rewrite (isLabelByte_not_dollar c (isLowerAlnum_isLabelByte c Hc)).
    exact (matchLabelTail_no_dollar _ Hs).
Qed.

Lemma splitDots_no_dollar (s cur : string) :
  forallb validation.matchLabel (validation.splitDots cur s) = true ->
  strings.ContainsByte cur "$" = false /\ strings.ContainsByte s "$" = false.
Proof.
  revert cur. induction s as [|c s IH]; intros cur H.
  - cbn in H. rewrite andb_true_r in H.
    split; [apply matchLabel_no_dollar; exact H | reflexivity].
  - cbn [validation.splitDots] in H.
    destruct (Ascii.eqb c ".") eqn:Ec.
    + cbn [forallb] in H. apply andb_true_iff in H as [Hcur Hrest].
      apply IH in Hrest as [_ Hs].
      apply Ascii.eqb_eq in Ec. subst c.
      split; [apply matchLabel_no_dollar; exact Hcur | exact Hs].
    + apply IH in H as [Hcur Hs].
      rewrite ContainsByte_app in Hcur.
      apply orb_false_iff in Hcur as [Hcur Hc].
      cbn [strings.ContainsByte] in Hc. rewrite orb_false_r in Hc.
      split; [exact Hcur|].
      cbn [strings.ContainsByte]. rewrite Hc, Hs. reflexivity.
Qed.

Lemma IsDNS1123Label_valid (s : string) :
  validation.IsDNS1123Label s = [] ->
  s <> EmptyString /\ strings.ContainsByte s "$" = false.
Proof.
  unfold validation.IsDNS1123Label. intros H.
  apply app_eq_nil in H as [_ H].
  destruct (validation.matchLabel s) eqn:E; [|discriminate H].
  split; [intros ->; discriminate E | apply matchLabel_no_dollar; exact E].
Qed.

Lemma IsDNS1123Subdomain_valid (s : string) :
  validation.IsDNS1123Subdomain s = [] ->
  s <> EmptyString /\ strings.ContainsByte s "$" = false.
Proof.
  unfold validation.IsDNS1123Subdomain. intros H.
  apply app_eq_nil in H as [_ H].
  destruct (validation.matchSubdomain s) eqn:E; [|discriminate H].
  split; [intros ->; discriminate E |].
  apply (splitDots_no_dollar s EmptyString). exact E.
Qed.

Lemma length_pos_iff {A} (l : list A) :
  (0 <? Z.of_nat (length l)) = negb (bool_decide (l = [])).
Proof.
  destruct l; [reflexivity|].
  rewrite bool_decide_eq_false_2 by discriminate. reflexivity.
Qed.

(** [getSecretReference] when both templates are set and non-empty. *)
Lemma getSecretReference_both (nameKey namespaceKey : string)
    (storageClassParams : gmap string string) (pvName : string)
    (pvc : option PersistentVolumeClaim) (nameTemplate namespaceTemplate : string) :
  storageClassParams !! nameKey = Some nameTemplate ->
  storageClassParams !! namespaceKey = Some namespaceTemplate ->
  nameTemplate <> "" -> namespaceTemplate <> "" ->
  getSecretReference nameKey namespaceKey storageClassParams pvName pvc
  = match resolveTemplate namespaceTemplate (namespaceParams pvName pvc) with
    | (_, Some err) =>
        (None, Some (Errorf "error resolving %s value %q: %v"
                       [VString namespaceKey; VString namespaceTemplate; VError err]))
    | (resolvedNamespace, None) =>
        if negb (bool_decide (validation.IsDNS1123Label resolvedNamespace = [])) then
          if negb (String.eqb namespaceTemplate resolvedNamespace) then
            (None, Some (Errorf "%s parameter %q resolved to %q which is not a valid namespace name"
                           [VString namespaceKey; VString namespaceTemplate;
                            VString resolvedNamespace]))
          else
            (None, Some (Errorf "%s parameter %q is not a valid namespace name"
                           [VString namespaceKey; VString namespaceTemplate]))
        else
          match resolveTemplate nameTemplate (nameParams pvName pvc) with
          | (_, Some err) =>
              (None, Some (Errorf "error resolving %s value %q: %v"
                             [VString nameKey; VString nameTemplate; VError err]))
          | (resolvedName, None) =>
              if negb (bool_decide (validation.IsDNS1123Subdomain resolvedName = [])) then
                if negb (String.eqb nameTemplate resolvedName) then
                  (None, Some (Errorf "%s parameter %q resolved to %q which is not a valid secret name"
                                 [VString nameKey; VString nameTemplate;
                                  VString resolvedName]))
                else
                  (None, Some (Errorf "%s parameter %q is not a valid secret name"
                                 [VString nameKey; VString nameTemplate]))
              else
                (Some {| ref_Name := resolvedName;
                         ref_Namespace := resolvedNamespace |}, None)
          end
    end.
Proof.
  intros Hn Hs Hne Hse. unfold getSecretReference.
  rewrite Hn, Hs. cbn [default from_option id].
  rewrite !bool_decide_eq_true_2 by eauto. cbn [negb andb].
  apply len_eqb_zero in Hne. apply len_eqb_zero in Hse.
  rewrite Hne, Hse. cbn [orb].
  destruct (resolveTemplate namespaceTemplate (namespaceParams pvName pvc))
    as [resolvedNamespace [err|]]; [reflexivity|].
  rewrite length_pos_iff.
  destruct (negb (bool_decide (validation.IsDNS1123Label resolvedNamespace = [])));
    [reflexivity|].
  destruct (resolveTemplate nameTemplate (nameParams pvName pvc))
    as [resolvedName [err|]]; [reflexivity|].
  rewrite length_pos_iff. reflexivity.
Qed.

(** C7. With both templates set: a reference is returned only with a
    namespace that is a valid DNS label and a name that is a valid DNS
    subdomain; templates that are valid literal values are returned as they
    are; a namespace (then a name) template that resolves to an invalid
    value different from the template fails with the error naming the key,
    the template and the resolved value, and one that is itself that
    invalid value fails with the error naming the key and the template. *)
Theorem getSecretReference_validates (nameKey namespaceKey : string)
    (storageClassParams : gmap string string) (pvName : string)
    (pvc : option PersistentVolumeClaim) (nameTemplate namespaceTemplate : string) :
  storageClassParams !! nameKey = Some nameTemplate ->
  storageClassParams !! namespaceKey = Some namespaceTemplate ->
  nameTemplate <> "" -> namespaceTemplate <> "" ->
  let r := getSecretReference nameKey namespaceKey storageClassParams pvName pvc in
  (forall ref, fst r = Some ref ->
     snd r = None
     /\ validation.IsDNS1123Label (ref_Namespace ref) = []
     /\ validation.IsDNS1123Subdomain (ref_Name ref) = [])
  /\ (validation.IsDNS1123Label namespaceTemplate = [] ->
      validation.IsDNS1123Subdomain nameTemplate = [] ->
      r = (Some {| ref_Name := nameTemplate; ref_Namespace := namespaceTemplate |}, None))
  /\ (forall resolvedNamespace,
        resolveTemplate namespaceTemplate (namespaceParams pvName pvc)
        = (resolvedNamespace, None) ->
        validation.IsDNS1123Label resolvedNamespace <> [] ->
        (resolvedNamespace <> namespaceTemplate ->
         r = (None, Some (Errorf
                "%s parameter %q resolved to %q which is not a valid namespace name"
                [VString namespaceKey; VString namespaceTemplate;
                 VString resolvedNamespace])))
        /\ (resolvedNamespace = namespaceTemplate ->
            r = (None, Some (Errorf "%s parameter %q is not a valid namespace name"
                               [VString namespaceKey; VString namespaceTemplate]))))
  /\ (forall resolvedNamespace resolvedName,
        resolveTemplate namespaceTemplate (namespaceParams pvName pvc)
        = (resolvedNamespace, None) ->
        validation.IsDNS1123Label resolvedNamespace = [] ->
        resolveTemplate nameTemplate (nameParams pvName pvc) = (resolvedName, None) ->
        validation.IsDNS1123Subdomain resolvedName <> [] ->
        (resolvedName <> nameTemplate ->
         r = (None, Some (Errorf
                "%s parameter %q resolved to %q which is not a valid secret name"
                [VString nameKey; VString nameTemplate; VString resolvedName])))
        /\ (resolvedName = nameTemplate ->
            r = (None, Some (Errorf "%s parameter %q is not a valid secret name"
                               [VString nameKey; VString nameTemplate])))).
Proof.
  intros Hn Hs Hne Hse r.
  assert (Hr := getSecretReference_both nameKey namespaceKey storageClassParams
                  pvName pvc nameTemplate namespaceTemplate Hn Hs Hne Hse).
  fold r in Hr. clearbody r. subst r.
  split; [|split; [|split]].
  - intros ref.
    destruct (resolveTemplate namespaceTemplate (namespaceParams pvName pvc))
      as [rns [e|]]; [discriminate|].
    destruct (bool_decide (validation.IsDNS1123Label rns = [])) eqn:El; cbn [negb].
    2:{ destruct (negb (namespaceTemplate =? rns)%string); discriminate. }
    apply bool_decide_eq_true in El.
    destruct (resolveTemplate nameTemplate (nameParams pvName pvc))
      as [rn [e|]]; [discriminate|].
    destruct (bool_decide (validation.IsDNS1123Subdomain rn = [])) eqn:Ed; cbn [negb].
    2:{ destruct (negb (nameTemplate =? rn)%string); discriminate. }
    apply bool_decide_eq_true in Ed.
    cbn [fst snd]. intros [= <-]. cbn. auto.
  - intros Hl Hd.
    destruct (IsDNS1123Label_valid _ Hl) as [_ Hl'].
    destruct (IsDNS1123Subdomain_valid _ Hd) as [_ Hd'].
    rewrite (resolveTemplate_literal _ _ Hl'), (resolveTemplate_literal _ _ Hd').
    rewrite !bool_decide_eq_true_2 by assumption. reflexivity.
  - intros rns Hres Hbad. rewrite Hres.
    rewrite bool_decide_eq_false_2 by exact Hbad. cbn [negb].
    split.
    + intros Hdiff.
      destruct (String.eqb_spec namespaceTemplate rns) as [->|_]; [congruence|].
      reflexivity.
    + intros ->. rewrite String.eqb_refl. reflexivity.
  - intros rns rn Hres Hok Hres' Hbad. rewrite Hres.
    rewrite bool_decide_eq_true_2 by exact Hok. cbn [negb].
    rewrite Hres'. rewrite bool_decide_eq_false_2 by exact Hbad. cbn [negb].
    split.
    + intros Hdiff.
      destruct (String.eqb_spec nameTemplate rn) as [->|_]; [congruence|].
      reflexivity.
    + intros ->. rewrite String.eqb_refl. reflexivity.
Qed.

Lemma getSecretReference_validates_witness :
  getSecretReference "n" "ns" {[ "n" := "${pvc.name}"; "ns" := "ns-${pv.name}" ]}
    "PV_1" (Some Demo.pvc)
  = (None, Some (Errorf
       "%s parameter %q resolved to %q which is not a valid namespace name"
       [VString "ns"; VString "ns-${pv.name}"; VString "ns-PV_1"])).
Proof.
  apply (getSecretReference_validates "n" "ns"
           {[ "n" := "${pvc.name}"; "ns" := "ns-${pv.name}" ]}
           "PV_1" (Some Demo.pvc) "${pvc.name}" "ns-${pv.name}").
  - vm_compute. reflexivity.
  - vm_compute. reflexivity.
  - discriminate.
  - discriminate.
  - vm_compute. reflexivity.
  - vm_compute. discriminate.
  - discriminate.
Defined.

(** ** [getVolumeContentSource] *)

Ltac run_stmt :=
  unfold body, seq, returnIf, lift, deref, ret, next; cbn [fst snd].

Section ContentSource.
Context {D : Type} (p : csiProvisioner D) (options : VolumeOptions).
Context (dataSource : TypedLocalObjectReference) (snapshotObj : VolumeSnapshot).
Hypothesis HdataSource : pvc_DataSource (PVC options) = Some dataSource.
Hypothesis Hsnapshot :
  snapshotClient_VolumeSnapshots_Get p (pvc_Namespace (PVC options))
    (ds_Name dataSource) = inl snapshotObj.

Lemma getVolumeContentSource_not_ready :
  snap_Ready snapshotObj = false ->
  getVolumeContentSource p options
  = Ret (None, Some (Errorf "snapshot %s is not Ready" [VString (ds_Name dataSource)])).
Proof.
  intros Hr. unfold getVolumeContentSource. run_stmt.
  rewrite HdataSource, Hsnapshot, Hr. reflexivity.
Qed.

Lemma getVolumeContentSource_being_deleted :
  snap_Ready snapshotObj = true ->
  snap_DeletionTimestamp snapshotObj <> None ->
  getVolumeContentSource p options
  = Ret (None, Some (Errorf "snapshot %s is currently being deleted"
                       [VString (ds_Name dataSource)])).
Proof.
  intros Hr Hd. unfold getVolumeContentSource. run_stmt.
  rewrite HdataSource, Hsnapshot, Hr. cbn [negb].
  destruct (snap_DeletionTimestamp snapshotObj) as [ts|]; [|congruence].
  reflexivity.
Qed.

(** Past the checks of the snapshot object itself. *)
Lemma getVolumeContentSource_live :
  snap_Ready snapshotObj = true ->
  snap_DeletionTimestamp snapshotObj = None ->
  getVolumeContentSource p options
  = match snapshotClient_VolumeSnapshotContents_Get p
            (snap_SnapshotContentName snapshotObj) with
    | inr _ => Ret (None, Some errNotBound)
    | inl snapContentObj =>
        match content_VolumeSnapshotRef snapContentObj with
        | None => Ret (None, Some errNotBound)
        | Some ref =>
            if negb (String.eqb (oref_UID ref) (snap_UID snapshotObj))
               || negb (String.eqb (oref_Namespace ref) (snap_Namespace snapshotObj))
               || negb (String.eqb (oref_Name ref) (snap_Name snapshotObj))
            then Ret (None, Some errNotBound)
            else
              match content_CSI snapContentObj with
              | None => Ret (None, Some errNotBound)
              | Some csiSource =>
                  let source := {| src_SnapshotId := css_SnapshotHandle csiSource |} in
                  match snap_RestoreSize snapshotObj with
                  | None => Ret (Some source, None)
                  | Some restoreSize =>
                      match pvc_Requests (PVC options) !! ResourceStorage with
                      | None =>
                          Ret (None, Some (Errorf
                            "error getting capacity for PVC %s when creating snapshot %s"
                            [VString (pvc_Name (PVC options));
                             VString (snap_Name snapshotObj)]))
                      | Some volSizeBytes =>
                          if volSizeBytes <? restoreSize then
                            Ret (None, Some (Errorf
                              "requested volume size %d is less than the size %d for the source snapshot %s"
                              [VInt volSizeBytes; VInt restoreSize;
                               VString (snap_Name snapshotObj)]))
                          else Ret (Some source, None)
                      end
                  end
              end
        end
    end.
Proof.
  intros Hr Hd. unfold getVolumeContentSource. run_stmt.
  rewrite HdataSource, Hsnapshot, Hr, Hd. cbn [negb].
  rewrite bool_decide_eq_false_2 by (intros [? ?]; discriminate).
  destruct (snapshotClient_VolumeSnapshotContents_Get p
              (snap_SnapshotContentName snapshotObj)) as [c|e]; [|reflexivity].
  destruct (content_VolumeSnapshotRef c) as [ref|]; [|reflexivity].
  destruct (negb (String.eqb (oref_UID ref) (snap_UID snapshotObj))
            || negb (String.eqb (oref_Namespace ref) (snap_Namespace snapshotObj))
            || negb (String.eqb (oref_Name ref) (snap_Name snapshotObj)));
    [reflexivity|].
  destruct (content_CSI c) as [src|]; [|reflexivity].
  destruct (snap_RestoreSize snapshotObj) as [rs|]; [|reflexivity].
  destruct (pvc_Requests (PVC options) !! ResourceStorage) as [v|]; [|reflexivity].
  destruct (v <? rs); reflexivity.
Qed.

Lemma bound_ref_check (ref : ObjectReference) :
  oref_UID ref = snap_UID snapshotObj ->
  oref_Namespace ref = snap_Namespace snapshotObj ->
  oref_Name ref = snap_Name snapshotObj ->
  negb (String.eqb (oref_UID ref) (snap_UID snapshotObj))
  || negb (String.eqb (oref_Namespace ref) (snap_Namespace snapshotObj))
  || negb (String.eqb (oref_Name ref) (snap_Name snapshotObj)) = false.
Proof. intros -> -> ->. rewrite !String.eqb_refl. reflexivity. Qed.

Lemma unbound_ref_check (ref : ObjectReference) :
  oref_UID ref <> snap_UID snapshotObj
  \/ oref_Namespace ref <> snap_Namespace snapshotObj
  \/ oref_Name ref <> snap_Name snapshotObj ->
  negb (String.eqb (oref_UID ref) (snap_UID snapshotObj))
  || negb (String.eqb (oref_Namespace ref) (snap_Namespace snapshotObj))
  || negb (String.eqb (oref_Name ref) (snap_Name snapshotObj)) = true.
Proof.
  intros [H | [H | H]]; apply String.eqb_neq in H; rewrite H; cbn [negb orb];
    rewrite ?orb_true_r; reflexivity.
Qed.

Lemma getVolumeContentSource_usable (content : VolumeSnapshotContent) (handle : string) :
  snapshotClient_VolumeSnapshotContents_Get p (snap_SnapshotContentName snapshotObj)
  = inl content ->
  usableSnapshot snapshotObj content handle ->
  getVolumeContentSource p options
  = match snap_RestoreSize snapshotObj with
    | None => Ret (Some {| src_SnapshotId := handle |}, None)
    | Some restoreSize =>
        match pvc_Requests (PVC options) !! ResourceStorage with
        | None =>
            Ret (None, Some (Errorf
              "error getting capacity for PVC %s when creating snapshot %s"
              [VString (pvc_Name (PVC options)); VString (snap_Name snapshotObj)]))
        | Some volSizeBytes =>
            if volSizeBytes <? restoreSize then
              Ret (None, Some (Errorf
                "requested volume size %d is less than the size %d for the source snapshot %s"
                [VInt volSizeBytes; VInt restoreSize; VString (snap_Name snapshotObj)]))
            else Ret (Some {| src_SnapshotId := handle |}, None)
        end
    end.
Proof.
  intros Hc (Hr & Hd & (ref & Href & Hu & Hns & Hnm) & Hcsi).
  rewrite (getVolumeContentSource_live Hr Hd). rewrite Hc, Href.
  rewrite (bound_ref_check ref Hu Hns Hnm). rewrite Hcsi. reflexivity.
Qed.

(** Whatever else holds of the snapshot, a request below its restore size
    ends in an error. *)
Lemma getVolumeContentSource_too_small (restoreSize requested : Z) :
  snap_RestoreSize snapshotObj = Some restoreSize ->
  pvc_Requests (PVC options) !! ResourceStorage = Some requested ->
  requested < restoreSize ->
  exists err, getVolumeContentSource p options = Ret (None, Some err).
Proof.
  intros Hrs Hreq Hlt.
  destruct (snap_Ready snapshotObj) eqn:Hr.
  2:{ eexists. apply getVolumeContentSource_not_ready. exact Hr. }
  destruct (snap_DeletionTimestamp snapshotObj) as [ts|] eqn:Hd.
  { eexists. apply getVolumeContentSource_being_deleted; [exact Hr | congruence]. }
  rewrite (getVolumeContentSource_live Hr Hd). rewrite Hrs, Hreq.
  apply Z.ltb_lt in Hlt. rewrite Hlt.
  repeat match goal with
         | |- context [match ?x with _ => _ end] => destruct x
         end; eexists; reflexivity.
Qed.

End ContentSource.

(** C3, as the code has it. Once the snapshot object is read: a content
    object that cannot be fetched, is not bound, is bound to a different
    snapshot or has no driver snapshot handle gives one and the same error,
    with the message "snapshot in dataSource not bound or invalid"; a
    snapshot that is not ready gives "snapshot <name> is not Ready", and a
    ready snapshot that is being deleted gives "snapshot <name> is currently
    being deleted". *)
Theorem getVolumeContentSource_failure_messages {D} (p : csiProvisioner D)
    (options : VolumeOptions) (dataSource : TypedLocalObjectReference)
    (snapshotObj : VolumeSnapshot) :
  pvc_DataSource (PVC options) = Some dataSource ->
  snapshotClient_VolumeSnapshots_Get p (pvc_Namespace (PVC options))
    (ds_Name dataSource) = inl snapshotObj ->
  (snap_Ready snapshotObj = false ->
   exists err,
     getVolumeContentSource p options = Ret (None, Some err)
     /\ Error err = Some ("snapshot " ++ ds_Name dataSource ++ " is not Ready"))
  /\ (snap_Ready snapshotObj = true ->
      snap_DeletionTimestamp snapshotObj <> None ->
      exists err,
        getVolumeContentSource p options = Ret (None, Some err)
        /\ Error err
           = Some ("snapshot " ++ ds_Name dataSource ++ " is currently being deleted"))
  /\ (snap_Ready snapshotObj = true ->
      snap_DeletionTimestamp snapshotObj = None ->
      unusableContent
        (snapshotClient_VolumeSnapshotContents_Get p
           (snap_SnapshotContentName snapshotObj)) snapshotObj ->
      getVolumeContentSource p options = Ret (None, Some errNotBound))
  /\ Error errNotBound = Some "snapshot in dataSource not bound or invalid".
Proof.
  intros Hds Hsnap. split; [|split; [|split]].
  - intros Hr. eexists. split.
    + apply (getVolumeContentSource_not_ready p options dataSource snapshotObj);
        assumption.
    + reflexivity.
  - intros Hr Hd. eexists. split.
    + apply (getVolumeContentSource_being_deleted p options dataSource snapshotObj);
        assumption.
    + reflexivity.
  - intros Hr Hd Hbad.
    rewrite (getVolumeContentSource_live p options dataSource snapshotObj Hds Hsnap Hr Hd).
    unfold unusableContent in Hbad.
    destruct (snapshotClient_VolumeSnapshotContents_Get p
                (snap_SnapshotContentName snapshotObj)) as [c|e]; [|reflexivity].
    destruct (content_VolumeSnapshotRef c) as [ref|]; [|reflexivity].
    destruct Hbad as [Hdiff | Hcsi].
    + rewrite (unbound_ref_check snapshotObj ref Hdiff). reflexivity.
    + rewrite Hcsi. destruct (_ || _); reflexivity.
  - reflexivity.
Qed.

Lemma getVolumeContentSource_failure_messages_witness :
  exists err,
    getVolumeContentSource (DemoSnapshot.provisioner (DemoSnapshot.snapshot false None))
      DemoSnapshot.options = Ret (None, Some err)
    /\ Error err = Some ("snapshot " ++ "snap1" ++ " is not Ready").
Proof.
  apply (getVolumeContentSource_failure_messages
           (DemoSnapshot.provisioner (DemoSnapshot.snapshot false None))
           DemoSnapshot.options DemoSnapshot.dataSource
           (DemoSnapshot.snapshot false None)); reflexivity.
Defined.

(** C3 as stated fails: for a snapshot that is not ready, the error's
    message is "snapshot snap1 is not Ready", which is not the message
    "snapshot in dataSource not bound or invalid". *)
Lemma getVolumeContentSource_not_ready_counterexample :
  snap_Ready (DemoSnapshot.snapshot false None) = false
  /\ exists err,
       getVolumeContentSource
         (DemoSnapshot.provisioner (DemoSnapshot.snapshot false None))
         DemoSnapshot.options = Ret (None, Some err)
       /\ Error err = Some "snapshot snap1 is not Ready"
       /\ Error err <> Some "snapshot in dataSource not bound or invalid".
Proof.
  split; [reflexivity|].
  eexists. split; [vm_compute; reflexivity|].
  split; [vm_compute; reflexivity | vm_compute; discriminate].
Qed.

(** C8. For a snapshot with a restore size and a claim with a requested
    capacity: a request strictly below the restore size makes
    [getVolumeContentSource] fail with an error, the "requested volume size
    ... is less than the size ..." error when the snapshot is otherwise
    usable; a request equal to or above the restore size succeeds on a
    usable snapshot, returning the snapshot's handle as content source. *)
Theorem getVolumeContentSource_restore_size {D} (p : csiProvisioner D)
    (options : VolumeOptions) (dataSource : TypedLocalObjectReference)
    (snapshotObj : VolumeSnapshot) (restoreSize requested : Z) :
  pvc_DataSource (PVC options) = Some dataSource ->
  snapshotClient_VolumeSnapshots_Get p (pvc_Namespace (PVC options))
    (ds_Name dataSource) = inl snapshotObj ->
  snap_RestoreSize snapshotObj = Some restoreSize ->
  pvc_Requests (PVC options) !! ResourceStorage = Some requested ->
  (requested < restoreSize ->
   exists err, getVolumeContentSource p options = Ret (None, Some err))
  /\ (forall content handle,
        snapshotClient_VolumeSnapshotContents_Get p
          (snap_SnapshotContentName snapshotObj) = inl content ->
        usableSnapshot snapshotObj content handle ->
        (requested < restoreSize ->
         getVolumeContentSource p options
         = Ret (None, Some (Errorf
             "requested volume size %d is less than the size %d for the source snapshot %s"
             [VInt requested; VInt restoreSize; VString (snap_Name snapshotObj)])))
        /\ (restoreSize <= requested ->
            getVolumeContentSource p options
            = Ret (Some {| src_SnapshotId := handle |}, None))).
Proof.
  intros Hds Hsnap Hrs Hreq. split.
  - intros Hlt.
    apply (getVolumeContentSource_too_small p options dataSource snapshotObj
             Hds Hsnap restoreSize requested Hrs Hreq Hlt).
  - intros content handle Hc Hu.
    rewrite (getVolumeContentSource_usable p options dataSource snapshotObj
               Hds Hsnap content handle Hc Hu).
    rewrite Hrs, Hreq. split; intros H.
    + apply Z.ltb_lt in H. rewrite H. reflexivity.
    + apply Z.ltb_ge in H. rewrite H. reflexivity.
Qed.

Lemma getVolumeContentSource_restore_size_witness :
  exists err,
    getVolumeContentSource
      (DemoSnapshot.provisioner (DemoSnapshot.snapshot true (Some 2147483648)))
      DemoSnapshot.options = Ret (None, Some err).
Proof.
  apply (getVolumeContentSource_restore_size
           (DemoSnapshot.provisioner (DemoSnapshot.snapshot true (Some 2147483648)))
           DemoSnapshot.options DemoSnapshot.dataSource
           (DemoSnapshot.snapshot true (Some 2147483648)) 2147483648 1073741824).
  - reflexivity.
  - reflexivity.
  - reflexivity.
  - vm_compute. reflexivity.
  - lia.
Defined.

(** ** [Provision] *)

(** C10. For a claim without selector whose data source has a non-empty
    name and the kind "VolumeSnapshot" but a nil [APIGroup], [Provision]
    panics on the nil pointer: it returns no error, and no call reaches the
    driver. *)
Theorem Provision_nil_APIGroup_panics {D} (DriverName : string)
    (p : csiProvisioner D) (options : VolumeOptions)
    (dataSource : TypedLocalObjectReference) (d0 : D) :
  pvc_Selector (PVC options) = None ->
  pvc_DataSource (PVC options) = Some dataSource ->
  ds_Name dataSource <> "" ->
  ds_Kind dataSource = "VolumeSnapshot" ->
  ds_APIGroup dataSource = None ->
  Provision DriverName p options d0
  = (Panic NilPointerDereference, {| driver := d0; calls := [] |}).
Proof.
  intros Hsel Hds Hname Hkind Hgroup.
  unfold Provision, prepare. run_stmt.
  rewrite Hsel, Hds, Hkind, Hgroup.
  apply String.eqb_neq in Hname. rewrite Hname.
  reflexivity.
Qed.

(** *** Statements that leave the state alone *)

Lemma pure_next {W R A} (a : A) : pure (W := W) (R := R) (next a).
Proof. exists (Next a). reflexivity. Qed.

Lemma pure_ret {W R A} (r : R) : pure (W := W) (A := A) (ret r).
Proof. exists (Return r). reflexivity. Qed.

Lemma pure_returnIf {W R} (c : bool) (r : R) : pure (W := W) (returnIf c r).
Proof. destruct c; [apply pure_ret | apply pure_next]. Qed.

Lemma pure_lift {W R A} (x : outcome A) : pure (W := W) (R := R) (lift x).
Proof.
  destruct x as [a|pn]; [exists (Next a) | exists (Abort pn)]; reflexivity.
Qed.

Lemma pure_seq {W R A B} (m : stmt W R A) (k : A -> stmt W R B) :
  pure m -> (forall a, pure (k a)) -> pure (seq m k).
Proof.
  intros [x Hm] Hk. destruct x as [a|r|pn].
  - destruct (Hk a) as [y Hy]. exists y. intros w.
    unfold seq. rewrite Hm. apply Hy.
  - exists (Return r). intros w. unfold seq. rewrite Hm. reflexivity.
  - exists (Abort pn). intros w. unfold seq. rewrite Hm. reflexivity.
Qed.

Ltac pure_steps :=
  repeat first
    [ apply pure_next | apply pure_ret | apply pure_returnIf | apply pure_lift
    | apply pure_seq; [| intros ?]
    | progress (lazy zeta)
    | match goal with
      | |- pure (match ?x with _ => _ end) => destruct x
      end ].

Lemma prepare_pure {D W} (p : csiProvisioner D) (options : VolumeOptions) :
  pure (W := W) (prepare p options).
Proof. unfold prepare. pure_steps. Qed.

(** *** Reading a run of statements backwards *)

Lemma seq_Next_inv {W R A B} (m : stmt W R A) (k : A -> stmt W R B)
    (w w' : W) (b : B) :
  seq m k w = (Next b, w') ->
  exists a w1, m w = (Next a, w1) /\ k a w1 = (Next b, w').
Proof.
  unfold seq. destruct (m w) as [[a|r|pn] w1]; intros H; try discriminate H.
  exists a, w1. split; [reflexivity | exact H].
Qed.

Lemma returnIf_Next_inv {W R} (c : bool) (r : R) (w w' : W) (u : unit) :
  returnIf c r w = (Next u, w') -> c = false /\ w' = w.
Proof.
  unfold returnIf, ret, next. destruct c; intros H; [discriminate H|].
  injection H as _ <-. split; reflexivity.
Qed.

Lemma lift_Next_inv {W R A} (x : outcome A) (w w' : W) (a : A) :
  lift (R := R) x w = (Next a, w') -> x = Ret a /\ w' = w.
Proof.
  unfold lift. destruct x as [a'|pn]; intros H; [|discriminate H].
  injection H as <- <-. split; reflexivity.
Qed.

(** What [prepare] has set when it falls through to the backoff loop. *)
Lemma prepare_Next {D W} (p : csiProvisioner D) (options : VolumeOptions)
    (w w' : W) (prep : prepared) :
  prepare p options w = (Next prep, w') ->
  volSizeBytes prep = default 0 (pvc_Requests (PVC options) !! ResourceStorage)
  /\ req_Name (req prep) = pvName prep
  /\ req_RequiredBytes (req prep) = volSizeBytes prep
  /\ req_ControllerCreateSecrets (req prep) = provisionerCredentials prep.
Proof.
  unfold prepare. intros H.
  repeat match type of H with
         | seq _ _ _ = (Next _, _) =>
             apply seq_Next_inv in H as (? & ? & _ & H)
         | (let x := _ in _) _ = _ => lazy zeta in H
         end.
  unfold next in H. injection H as <- _. cbn. auto.
Qed.

(** *** The backoff loop *)

Lemma backoffRun_cons (n : nat) (res : CreateVolumeResponse + error)
    (evs : list (CreateVolumeResponse + error)) (err : option error)
    (rep : option CreateVolumeResponse) :
  timedOut res -> backoffRun n evs err rep -> backoffRun (S n) (res :: evs) err rep.
Proof.
  intros Hres Hrun. destruct Hrun as [pre r Hpre Hlen | pre e rep Hpre Hlen He | evs rep Hevs Hlen].
  - rewrite app_comm_cons. apply run_created; [constructor; assumption | simpl; lia].
  - rewrite app_comm_cons. apply run_failed; [constructor; assumption | simpl; lia | exact He].
  - apply run_exhausted; [constructor; assumption | simpl; lia].
Qed.

Section Backoff.
Context {D : Type} (p : csiProvisioner D) (req : CreateVolumeRequest).

Lemma createVolumeAttempt_cases (l : locals) (w : world D) :
  let res := fst (csiClient_CreateVolume p req (driver w)) in
  let w' := {| driver := snd (csiClient_CreateVolume p req (driver w));
               calls := calls w ++ [CreateVolumeCall req res] |} in
  match res with
  | inl r =>
      createVolumeAttempt p req (l, w)
      = ((true, None), ({| l_rep := Some r; l_err := None |}, w'))
  | inr e =>
      createVolumeAttempt p req (l, w)
      = ((false, if isDeadlineExceeded e then None else Some e),
         ({| l_rep := None; l_err := Some e |}, w'))
  end.
Proof.
  unfold createVolumeAttempt, isDeadlineExceeded. cbn [snd].
  destruct (csiClient_CreateVolume p req (driver w)) as [[r|e] d']; cbn [fst snd].
  - reflexivity.
  - destruct (status.FromError e) as [code ok].
    destruct (ok && (code =? codes.DeadlineExceeded)%N); reflexivity.
Qed.

Lemma attempts_run (n : nat) :
  forall (l : locals) (w : world D) (err : option error) (l' : locals) (w' : world D),
    wait.attempts (createVolumeAttempt p req) n (l, w) = (err, (l', w')) ->
    exists evs,
      calls w' = (calls w ++ fmap (CreateVolumeCall req) evs)%list
      /\ backoffRun n evs err (l_rep l').
Proof.
  induction n as [|n IH]; intros l w err l' w' H.
  - cbn in H. injection H as <- <- <-. exists []. split.
    + cbn. rewrite app_nil_r. reflexivity.
    + apply run_exhausted; [constructor | reflexivity].
  - cbn [wait.attempts] in H.
    pose proof (createVolumeAttempt_cases l w) as Hc. cbv zeta in Hc.
    destruct (fst (csiClient_CreateVolume p req (driver w))) as [r|e] eqn:Eres.
    + rewrite Hc in H. cbn in H. injection H as <- <- <-.
      exists [inl r]. split; [reflexivity|].
      cbn. apply (run_created (S n) [] r); [constructor | simpl; lia].
    + rewrite Hc in H. destruct (isDeadlineExceeded e) eqn:Ede.
      * rewrite bool_decide_eq_false_2 in H by (intros [? ?]; discriminate).
        cbn [orb] in H.
        apply IH in H as (evs & Hcalls & Hrun). cbn [calls] in Hcalls.
        exists (inr e :: evs). split.
        -- rewrite Hcalls. rewrite <- app_assoc. reflexivity.
        -- apply backoffRun_cons; [exists e; auto | exact Hrun].
      * rewrite bool_decide_eq_true_2 in H by eauto. cbn [orb] in H.
        injection H as <- <- <-.
        exists [inr e]. split; [reflexivity|].
        cbn. apply (run_failed (S n) [] e); [constructor | simpl; lia | exact Ede].
Qed.

End Backoff.

(** *** The three stages of [Provision] *)

Section ProvisionStages.
Context {D : Type} (DriverName : string) (p : csiProvisioner D).
Context (options : VolumeOptions) (d0 : D).

Let w0 : world D := {| driver := d0; calls := [] |}.

Lemma Provision_not_prepared :
  (forall prep, fst (prepare p options w0) <> Next prep) ->
  calls (snd (Provision DriverName p options d0)) = [].
Proof.
  intros Hnot. unfold Provision. fold w0.
  destruct (prepare_pure (W := world D) p options) as [x Hx].
  unfold body, seq. rewrite Hx.
  destruct x as [prep|r|pn]; [|reflexivity..].
  exfalso. apply (Hnot prep). rewrite Hx. reflexivity.
Qed.

Lemma Provision_prepared (prep : prepared) :
  fst (prepare p options w0) = Next prep ->
  exists evs err rep w1,
    calls w1 = fmap (CreateVolumeCall (req prep)) evs
    /\ backoffRun (Z.to_nat backoffSteps) evs err rep
    /\ Provision DriverName p options d0
       = body (finish DriverName p options prep {| l_rep := rep; l_err := err |}) w1.
Proof.
  intros Hprep. unfold Provision. fold w0.
  destruct (prepare_pure (W := world D) p options) as [x Hx].
  rewrite Hx in Hprep. cbn [fst] in Hprep. subst x.
  unfold body at 1. unfold seq at 1. rewrite Hx.
  unfold seq at 1. unfold createVolume at 1. unfold wait.ExponentialBackoff.
  cbn [wait.Steps].
  destruct (wait.attempts (createVolumeAttempt p (req prep)) (Z.to_nat backoffSteps)
              ({| l_rep := Some {| rep_Volume := None |}; l_err := None |}, w0))
    as [err [l w1]] eqn:Hrun.
  apply attempts_run in Hrun as (evs & Hcalls & Hrun).
  exists evs, err, (l_rep l), w1. split; [exact Hcalls|]. split; [exact Hrun|].
  unfold body. reflexivity.
Qed.

Context (prep : prepared).

Lemma finish_error (rep : option CreateVolumeResponse) (e : error) (w : world D) :
  body (finish DriverName p options prep {| l_rep := rep; l_err := Some e |}) w
  = (Ret (None, Some e), w).
Proof. reflexivity. Qed.

Lemma finish_no_volume (rep : CreateVolumeResponse) (w : world D) :
  rep_Volume rep = None ->
  body (finish DriverName p options prep {| l_rep := Some rep; l_err := None |}) w
  = (Panic NilPointerDereference, w).
Proof.
  intros Hv. unfold finish. run_stmt. cbn [l_err l_rep].
  rewrite Hv. reflexivity.
Qed.

Lemma finish_under_capacity (rep : CreateVolumeResponse) (volume : Volume)
    (w : world D) :
  rep_Volume rep = Some volume ->
  vol_CapacityBytes volume < volSizeBytes prep ->
  let delReq :=
    {| del_VolumeId := vol_Id volume;
       del_ControllerDeleteSecrets := provisionerCredentials prep |} in
  let capErr :=
    Errorf "created volume capacity %v less than requested capacity %v"
      [VInt (vol_CapacityBytes volume); VInt (volSizeBytes prep)] in
  let delErr := fst (csiClient_DeleteVolume p delReq (driver w)) in
  body (finish DriverName p options prep {| l_rep := Some rep; l_err := None |}) w
  = (Ret (None,
          Some match delErr with
               | Some e =>
                   Errorf "%v. Cleanup of volume %s failed, volume is orphaned: %v"
                     [VError capErr; VString (pvName prep); VError e]
               | None => capErr
               end),
     {| driver := snd (csiClient_DeleteVolume p delReq (driver w));
        calls := calls w ++ [DeleteVolumeCall delReq delErr] |}).
Proof.
  intros Hv Hlt. cbv zeta. unfold finish. run_stmt. cbn [l_err l_rep].
  rewrite Hv. cbn [GetCapacityBytes GetId bool_decide].
  apply Z.ltb_lt in Hlt. rewrite Hlt.
  unfold deleteVolume.
  rewrite bool_decide_eq_false_2 by (intros [? ?]; discriminate).
  cbn beta iota.
  destruct (csiClient_DeleteVolume p _ (driver w)) as [[e|] d']; reflexivity.
Qed.

Lemma finish_enough_capacity (rep : CreateVolumeResponse) (volume : Volume)
    (w : world D) :
  rep_Volume rep = Some volume ->
  volSizeBytes prep <= vol_CapacityBytes volume ->
  exists pv,
    body (finish DriverName p options prep {| l_rep := Some rep; l_err := None |}) w
    = (Ret (Some pv, None), w).
Proof.
  intros Hv Hle. unfold finish. run_stmt. cbn [l_err l_rep].
  rewrite Hv. cbn [GetCapacityBytes GetId bool_decide].
  apply Z.ltb_ge in Hle. rewrite Hle.
  rewrite bool_decide_eq_false_2 by (intros [? ?]; discriminate).
  eexists. reflexivity.
Qed.

End ProvisionStages.

Lemma Provision_run {D} (DriverName : string) (p : csiProvisioner D)
    (options : VolumeOptions) (d0 : D) (r : outcome result) (w : world D) :
  Provision DriverName p options d0 = (r, w) ->
  calls w = []
  \/ exists prep,
       fst (prepare p options {| driver := d0; calls := [] |}) = Next prep
       /\ provisionRun prep r (calls w).
Proof.
  intros Hrun.
  destruct (fst (prepare p options {| driver := d0; calls := [] |}))
    as [prep|r0|pn] eqn:Hprep.
  2,3: left;
       pose proof (Provision_not_prepared DriverName p options d0) as Hn;
       rewrite Hrun in Hn; apply Hn; intros prep; rewrite Hprep; discriminate.
  right. exists prep. split; [reflexivity|].
  destruct (Provision_prepared DriverName p options d0 prep Hprep)
    as (evs & err & rep & w1 & Hcalls & Hback & Hfin).
  rewrite Hrun in Hfin.
  destruct Hback as [pre r1 Hpre Hlen | pre e rep Hpre Hlen He | evs rep Hevs Hlen].
  - destruct (rep_Volume r1) as [volume|] eqn:Hv.
    + destruct (Z.lt_ge_cases (vol_CapacityBytes volume) (volSizeBytes prep)) as [Hlt|Hge].
      * rewrite (finish_under_capacity DriverName p options prep r1 volume w1 Hv Hlt)
          in Hfin.
        injection Hfin as -> ->. cbn [calls]. rewrite Hcalls.
        apply run_under_capacity; assumption.
      * destruct (finish_enough_capacity DriverName p options prep r1 volume w1 Hv Hge)
          as [pv Hpv].
        rewrite Hpv in Hfin. injection Hfin as -> ->. rewrite Hcalls.
        apply (run_provisioned prep pre r1 volume pv); assumption.
    + rewrite (finish_no_volume DriverName p options prep r1 w1 Hv) in Hfin.
      injection Hfin as -> ->. rewrite Hcalls.
      apply run_no_volume; assumption.
  - rewrite finish_error in Hfin. injection Hfin as -> ->. rewrite Hcalls.
    apply run_create_failed; assumption.
  - rewrite finish_error in Hfin. injection Hfin as -> ->. rewrite Hcalls.
    apply run_create_exhausted; assumption.
Qed.

(** *** Reading the calls of a run *)

Lemma create_call_lookup (C : CreateVolumeResponse + error -> call)
    (evs : list (CreateVolumeResponse + error)) (tail : list call) (i : nat) (c : call) :
  (fmap C evs ++ tail)%list !! i = Some c ->
  (exists res, evs !! i = Some res /\ c = C res)
  \/ (length evs <= i)%nat /\ tail !! (i - length evs)%nat = Some c.
Proof.
  intros H. destruct (decide (i < length evs)%nat) as [Hlt|Hge].
  - left. rewrite lookup_app_l in H by (rewrite length_fmap; exact Hlt).
    rewrite list_lookup_fmap in H.
    destruct (evs !! i) as [res|]; [|discriminate H].
    exists res. split; [reflexivity|]. cbn in H. congruence.
  - right. split; [lia|].
    rewrite lookup_app_r in H by (rewrite length_fmap; lia).
    rewrite length_fmap in H. exact H.
Qed.

Lemma timedOut_inr (e : error) : timedOut (inr e) -> isDeadlineExceeded e = true.
Proof. intros (e' & [= <-] & H). exact H. Qed.

Lemma timedOut_not_inl (r : CreateVolumeResponse) : ~ timedOut (inl r).
Proof. intros (e & H & _). discriminate H. Qed.

(** In a run, every [CreateVolume] call that ended in an error sits among
    the attempts, all made with the prepared request; one that timed out is
    not the last attempt the loop may make unless the loop ran out of
    steps, one that failed otherwise ends the run with that error. *)
Lemma provisionRun_error_call (prep : prepared) (r : outcome result)
    (cs : list call) (i : nat) (req' : CreateVolumeRequest) (e : error) :
  provisionRun prep r cs ->
  cs !! i = Some (CreateVolumeCall req' (inr e)) ->
  req' = req prep
  /\ (isDeadlineExceeded e = true ->
      (S i < Z.to_nat backoffSteps)%nat ->
      exists res, cs !! S i = Some (CreateVolumeCall req' res))
  /\ (isDeadlineExceeded e = false ->
      r = Ret (None, Some e) /\ length cs = S i).
Proof.
  intros Hrun Hi.
  assert (Hsnoc : forall pre (x : CreateVolumeResponse + error) tail,
    Forall timedOut pre ->
    (fmap (CreateVolumeCall (req prep)) (pre ++ [x])%list ++ tail)%list !! i
      = Some (CreateVolumeCall req' (inr e)) ->
    Forall (fun c => isDelete c = true) tail ->
    req' = req prep
    /\ ((i < length pre)%nat /\ isDeadlineExceeded e = true
        /\ (exists res, (fmap (CreateVolumeCall (req prep)) (pre ++ [x])%list ++ tail)%list
                          !! S i = Some (CreateVolumeCall req' res))
        \/ i = length pre /\ x = inr e)).
  { intros pre x tail Hpre Hl Htail.
    apply create_call_lookup in Hl as [(res & Hres & Heq) | [Hge Hl]].
    - injection Heq as -> <-. split; [reflexivity|].
      apply lookup_snoc_Some in Hres as [[Hlt Hres] | [-> <-]].
      + left. split; [exact Hlt|]. split.
        * apply timedOut_inr. exact (Forall_lookup_1 _ _ _ _ Hpre Hres).
        * assert (is_Some ((pre ++ [x])%list !! S i)) as [res Hres'].
          { apply lookup_lt_is_Some. rewrite length_app. simpl. lia. }
          exists res. rewrite lookup_app_l.
          -- rewrite list_lookup_fmap, Hres'. reflexivity.
          -- rewrite length_fmap. apply lookup_lt_Some in Hres'. exact Hres'.
      + right. split; reflexivity.
    - exfalso. pose proof (Forall_lookup_1 _ _ _ _ Htail Hl) as Hd.
      discriminate Hd. }
  destruct Hrun as [pre e0 Hpre Hlen He0 | evs Hevs Hlen | pre rep Hpre Hlen Hv
                   | pre rep volume pv Hpre Hlen Hv Hcap
                   | pre rep volume delErr Hpre Hlen Hv Hcap].
  - rewrite <- (app_nil_r (fmap _ _)) in Hi.
    apply Hsnoc in Hi as [-> [(Hlt & Hde & res & Hres) | [-> [= <-]]]];
      [| | exact Hpre | constructor].
    + split; [reflexivity|]. split.
      * intros _ _. exists res. rewrite app_nil_r in Hres. exact Hres.
      * intros Hnd. congruence.
    + split; [reflexivity|]. split.
      * intros Hd. congruence.
      * intros _. split; [reflexivity|].
        rewrite length_fmap, length_app. simpl. lia.
  - rewrite list_lookup_fmap in Hi.
    destruct (evs !! i) as [res|] eqn:Hres; [|discriminate Hi].
    cbn in Hi. injection Hi as -> ->. split; [reflexivity|].
    pose proof (timedOut_inr _ (Forall_lookup_1 _ _ _ _ Hevs Hres)) as Hde.
    split.
    + intros _ Hlt.
      assert (is_Some (evs !! S i)) as [res' Hres']
        by (apply lookup_lt_is_Some; lia).
      exists res'. rewrite list_lookup_fmap, Hres'. reflexivity.
    + intros Hnd. congruence.
  - rewrite <- (app_nil_r (fmap _ _)) in Hi.
    apply Hsnoc in Hi as [-> [(Hlt & Hde & res & Hres) | [_ [=]]]];
      [| exact Hpre | constructor].
    split; [reflexivity|]. split.
    + intros _ _. exists res. rewrite app_nil_r in Hres. exact Hres.
    + intros Hnd. congruence.
  - rewrite <- (app_nil_r (fmap _ _)) in Hi.
    apply Hsnoc in Hi as [-> [(Hlt & Hde & res & Hres) | [_ [=]]]];
      [| exact Hpre | constructor].
    split; [reflexivity|]. split.
    + intros _ _. exists res. rewrite app_nil_r in Hres. exact Hres.
    + intros Hnd. congruence.
  - apply Hsnoc in Hi as [-> [(Hlt & Hde & res & Hres) | [_ [=]]]];
      [| exact Hpre | repeat constructor].
    split; [reflexivity|]. split.
    + intros _ _. exists res. exact Hres.
    + intros Hnd. congruence.
Qed.

Lemma provisionRun_all_timed_out (prep : prepared) (r : outcome result)
    (cs : list call) :
  provisionRun prep r cs ->
  (forall c, In c cs ->
     exists req' e, c = CreateVolumeCall req' (inr e) /\ isDeadlineExceeded e = true) ->
  length cs = Z.to_nat backoffSteps /\ r = Ret (None, Some wait.ErrWaitTimeout).
Proof.
  intros Hrun Hall.
  assert (Hlast : forall pre (x : CreateVolumeResponse + error) tail,
    cs = (fmap (CreateVolumeCall (req prep)) (pre ++ [x])%list ++ tail)%list ->
    timedOut x).
  { intros pre x tail ->.
    destruct (Hall (CreateVolumeCall (req prep) x)) as (req' & e & Heq & He).
    - apply in_or_app. left. rewrite fmap_app. apply in_or_app. right.
      left. reflexivity.
    - injection Heq as _ ->. exists e. auto. }
  destruct Hrun as [pre e0 Hpre Hlen He0 | evs Hevs Hlen | pre rep Hpre Hlen Hv
                   | pre rep volume pv Hpre Hlen Hv Hcap
                   | pre rep volume delErr Hpre Hlen Hv Hcap].
  - specialize (Hlast pre (inr e0) []). rewrite app_nil_r in Hlast.
    apply timedOut_inr in Hlast; [congruence | reflexivity].
  - rewrite length_fmap. split; [exact Hlen | reflexivity].
  - specialize (Hlast pre (inl rep) []). rewrite app_nil_r in Hlast.
    destruct (timedOut_not_inl rep (Hlast eq_refl)).
  - specialize (Hlast pre (inl rep) []). rewrite app_nil_r in Hlast.
    destruct (timedOut_not_inl rep (Hlast eq_refl)).
  - destruct (timedOut_not_inl rep (Hlast pre (inl rep) _ eq_refl)).
Qed.

(** C1, as the code has it. In a run of [Provision]: a [CreateVolume]
    attempt that ends in a deadline-exceeded status is followed by another
    attempt with the same request, as long as the ten steps are not used
    up; an attempt that ends in any other error is the last call of the
    run, and [Provision] returns that very error; and when every attempt
    ends in a deadline-exceeded status, exactly ten attempts are made and
    [Provision] returns the backoff's own error, "timed out waiting for the
    condition". *)
Theorem Provision_backoff {D} (DriverName : string) (p : csiProvisioner D)
    (options : VolumeOptions) (d0 : D) (r : outcome result) (w : world D) :
  Provision DriverName p options d0 = (r, w) ->
  (forall i req' e,
     calls w !! i = Some (CreateVolumeCall req' (inr e)) ->
     (isDeadlineExceeded e = true ->
      (S i < Z.to_nat backoffSteps)%nat ->
      exists res, calls w !! S i = Some (CreateVolumeCall req' res))
     /\ (isDeadlineExceeded e = false ->
         r = Ret (None, Some e) /\ length (calls w) = S i))
  /\ (calls w <> [] ->
      (forall c, In c (calls w) ->
         exists req' e,
           c = CreateVolumeCall req' (inr e) /\ isDeadlineExceeded e = true) ->
      Z.to_nat backoffSteps = 10%nat
      /\ length (calls w) = 10%nat
      /\ r = Ret (None, Some wait.ErrWaitTimeout)
      /\ Error wait.ErrWaitTimeout = Some "timed out waiting for the condition").
Proof.
  intros Hrun. apply Provision_run in Hrun as [Hnil | (prep & _ & Hrun)].
  - split.
    + intros i req' e Hi. rewrite Hnil in Hi. discriminate Hi.
    + intros Hne. congruence.
  - split.
    + intros i req' e Hi.
      destruct (provisionRun_error_call prep r (calls w) i req' e Hrun Hi)
        as (_ & Hretry & Habort).
      split; assumption.
    + intros _ Hall.
      destruct (provisionRun_all_timed_out prep r (calls w) Hrun Hall) as [Hlen Hr].
      repeat split; [exact Hlen | exact Hr].
Qed.

Lemma Provision_backoff_witness :
  let run := Provision "csi-lvm" DemoDriver.refusing Demo.options 0%nat in
  calls (snd run) !! 2%nat
  = Some (CreateVolumeCall DemoDriver.request (inr (statusError 3 "bad parameters")))
  /\ fst run = Ret (None, Some (statusError 3 "bad parameters"))
  /\ length (calls (snd run)) = 3%nat.
Proof.
  assert (Hlookup :
    calls (snd (Provision "csi-lvm" DemoDriver.refusing Demo.options 0%nat)) !! 2%nat
    = Some (CreateVolumeCall DemoDriver.request (inr (statusError 3 "bad parameters")))).
  { vm_compute. reflexivity. }
  split; [exact Hlookup|].
  apply (proj1 (Provision_backoff "csi-lvm" DemoDriver.refusing Demo.options 0%nat
                  (fst (Provision "csi-lvm" DemoDriver.refusing Demo.options 0%nat))
                  (snd (Provision "csi-lvm" DemoDriver.refusing Demo.options 0%nat))
                  (surjective_pairing _))
           2%nat DemoDriver.request (statusError 3 "bad parameters") Hlookup).
  reflexivity.
Defined.

(** C1 as stated fails: with a driver that answers every attempt with a
    deadline-exceeded status, ten attempts are made, each ending in that
    status, and the error [Provision] returns is not that status but
    "timed out waiting for the condition". *)
Lemma Provision_deadline_counterexample :
  let run := Provision "csi-lvm" DemoDriver.stalled Demo.options 0%nat in
  calls (snd run)
  = repeat (CreateVolumeCall DemoDriver.request (inr DemoDriver.deadlineExceeded)) 10
  /\ fst run = Ret (None, Some (errorString "timed out waiting for the condition"))
  /\ fst run <> Ret (None, Some DemoDriver.deadlineExceeded).
Proof.
  assert (Hrun :
    Provision "csi-lvm" DemoDriver.stalled Demo.options 0%nat
    = (Ret (None, Some (errorString "timed out waiting for the condition")),
       {| driver := 10%nat;
          calls := repeat (CreateVolumeCall DemoDriver.request
                             (inr DemoDriver.deadlineExceeded)) 10 |})).
  { vm_compute. reflexivity. }
  cbv zeta. rewrite Hrun. cbn [fst snd calls].
  split; [reflexivity|]. split; [reflexivity | discriminate].
Qed.

Lemma filter_isDelete_creates (q : CreateVolumeRequest)
    (evs : list (CreateVolumeResponse + error)) :
  List.filter isDelete (fmap (CreateVolumeCall q) evs) = [].
Proof. induction evs as [|x evs IH]; [reflexivity | exact IH]. Qed.


(** *** The log against the driver *)








Lemma Provision_nil_APIGroup_panics_witness :
  Provision "csi-lvm" DemoDriver.stalled DemoNilGroup.options 0%nat
  = (Panic NilPointerDereference, {| driver := 0%nat; calls := [] |}).
Proof.
  apply (Provision_nil_APIGroup_panics "csi-lvm" DemoDriver.stalled
           DemoNilGroup.options DemoNilGroup.dataSource 0%nat);
    try reflexivity.
  discriminate.
Defined.


(** * Further properties *)

(** ** What [prepare] returns when it does not reach the backoff loop *)

Lemma seq_Return_inv {W R A B} (m : stmt W R A) (k : A -> stmt W R B)
    (w w' : W) (r : R) :
  seq m k w = (Return r, w') ->
  m w = (Return r, w')
  \/ exists a w1, m w = (Next a, w1) /\ k a w1 = (Return r, w').
Proof.
  unfold seq. destruct (m w) as [[a|r0|pn] w1]; intros H.
  - right. exists a, w1. split; [reflexivity | exact H].
  - left. injection H as -> ->. reflexivity.
  - discriminate H.
Qed.

Lemma returnIf_Return_inv {W R} (c : bool) (r r' : R) (w w' : W) :
  returnIf c r w = (Return r', w') -> c = true /\ r' = r.
Proof.
  unfold returnIf, ret, next. destruct c; intros H; [|discriminate H].
  injection H as <- _. split; reflexivity.
Qed.

Lemma lift_not_Return {W R A} (x : outcome A) (w w' : W) (r : R) :
  lift x w <> (Return r, w').
Proof. unfold lift. destruct x; discriminate. Qed.

Lemma next_not_Return {W R A} (a : A) (w w' : W) (r : R) :
  next a w <> (Return r, w').
Proof. discriminate. Qed.

Ltac invert_return H :=
  repeat first
    [ apply seq_Return_inv in H as [H | (? & ? & _ & H)]
    | progress (lazy zeta in H)
    | match type of H with
      | returnIf (bool_decide (is_Some ?x)) _ _ = (Return _, _) =>
          apply returnIf_Return_inv in H as [H ->];
          apply bool_decide_eq_true in H; split; [reflexivity | exact H]
      | returnIf _ _ _ = (Return _, _) =>
          apply returnIf_Return_inv in H as [_ ->];
          split; [reflexivity | cbn; eauto]
      | ret _ _ = (Return _, _) =>
          unfold ret in H; injection H as <- _; split; [reflexivity | cbn; eauto]
      | lift _ _ = (Return _, _) => destruct (lift_not_Return _ _ _ _ H)
      | next _ _ = (Return _, _) => destruct (next_not_Return _ _ _ _ H)
      | (match ?x with _ => _ end) _ = (Return _, _) => destruct x
      | (if ?c then _ else _) _ = (Return _, _) => destruct c
      end ].

Lemma prepare_Return {D W} (p : csiProvisioner D) (options : VolumeOptions)
    (w w' : W) (r : result) :
  prepare p options w = (Return r, w') -> failure r.
Proof.
  unfold prepare. intros H. invert_return H.
Qed.

(** ** The request [prepare] builds *)

Lemma prepare_Next_request {D W} (p : csiProvisioner D) (options : VolumeOptions)
    (w w' : W) (prep : prepared) :
  prepare p options w = (Next prep, w') ->
  pvc_Selector (PVC options) = None
  /\ makeVolumeName (volumeNamePrefix p) (pvc_UID (PVC options))
       (volumeNameUUIDLength p) = Ret (pvName prep, None)
  /\ req_Name (req prep) = pvName prep
  /\ req_Parameters (req prep) = Parameters options
  /\ req_VolumeCapabilities (req prep)
     = accessModeCapabilities (pvc_AccessModes (PVC options))
  /\ req_RequiredBytes (req prep)
     = default 0 (pvc_Requests (PVC options) !! ResourceStorage).
Proof.
  unfold prepare. intros H.
  apply seq_Next_inv in H as (u & w1 & Hsel & H).
  apply returnIf_Next_inv in Hsel as [Hsel _].
  apply seq_Next_inv in H as (need & w2 & _ & H).
  apply seq_Next_inv in H as (named & w3 & Hnamed & H).
  apply lift_Next_inv in Hnamed as [Hnamed _].
  lazy zeta in H.
  apply seq_Next_inv in H as (u' & w4 & Herr & H).
  apply returnIf_Next_inv in Herr as [Herr _].
  repeat match type of H with
         | seq _ _ _ = (Next _, _) =>
             apply seq_Next_inv in H as (? & ? & _ & H)
         | (let x := _ in _) _ = _ => lazy zeta in H
         end.
  unfold next in H. injection H as <- _. cbn.
  split.
  { destruct (pvc_Selector (PVC options)); [|reflexivity].
    rewrite bool_decide_eq_true_2 in Hsel by eauto. discriminate Hsel. }
  split.
  { rewrite Hnamed. destruct named as [name [e|]]; [|reflexivity].
    cbn in Herr. discriminate Herr. }
  repeat split.
Qed.

(** ** The results of [Provision] *)

Section ProvisionResults.
Context {D : Type} (DriverName : string) (p : csiProvisioner D).
Context (options : VolumeOptions) (d0 : D).

Lemma Provision_early :
  match fst (prepare p options {| driver := d0; calls := [] |}) with
  | Next _ => True
  | Return r =>
      failure r
      /\ Provision DriverName p options d0
         = (Ret r, {| driver := d0; calls := [] |})
  | Abort pn =>
      Provision DriverName p options d0
      = (Panic pn, {| driver := d0; calls := [] |})
  end.
Proof.
  destruct (prepare_pure (W := world D) p options) as [x Hx].
  pose proof (Hx {| driver := d0; calls := [] |}) as Hx0.
  rewrite Hx0. cbn [fst].
  destruct x as [prep|r|pn]; [exact I | |].
  - split; [exact (prepare_Return p options _ _ r Hx0)|].
    unfold Provision, body, seq. rewrite Hx0. reflexivity.
  - unfold Provision, body, seq. rewrite Hx0. reflexivity.
Qed.

Lemma finish_provisioned (prep : prepared) (rep : CreateVolumeResponse)
    (volume : Volume) (w : world D) :
  rep_Volume rep = Some volume ->
  volSizeBytes prep <= vol_CapacityBytes volume ->
  body (finish DriverName p options prep {| l_rep := Some rep; l_err := None |}) w
  = (Ret (Some (provisionedVolume DriverName p options prep volume), None), w).
Proof.
  intros Hv Hle. unfold finish. run_stmt. cbn [l_err l_rep].
  rewrite Hv. cbn [GetCapacityBytes GetId bool_decide].
  apply Z.ltb_ge in Hle. rewrite Hle.
  rewrite bool_decide_eq_false_2 by (intros [? ?]; discriminate).
  reflexivity.
Qed.

(** A run that ends with a volume: one successful [CreateVolume] call
    after attempts that timed out, and the volume built from its answer. *)
Lemma Provision_success (pv : PersistentVolume) (err : option error) (w : world D) :
  Provision DriverName p options d0 = (Ret (Some pv, err), w) ->
  exists prep pre rep volume,
    fst (prepare p options {| driver := d0; calls := [] |}) = Next prep
    /\ Forall timedOut pre
    /\ (length pre < Z.to_nat backoffSteps)%nat
    /\ calls w = fmap (CreateVolumeCall (req prep)) (pre ++ [inl rep])%list
    /\ rep_Volume rep = Some volume
    /\ volSizeBytes prep <= vol_CapacityBytes volume
    /\ pv = provisionedVolume DriverName p options prep volume
    /\ err = None.
Proof.
  intros Hrun. pose proof Provision_early as Hearly.
  destruct (fst (prepare p options {| driver := d0; calls := [] |}))
    as [prep|r0|pn] eqn:Hprep.
  2:{ destruct Hearly as [[Hnone _] Heq]. rewrite Hrun in Heq.
      injection Heq as <- _. discriminate Hnone. }
  2:{ rewrite Hrun in Hearly. discriminate Hearly. }
  destruct (Provision_prepared DriverName p options d0 prep Hprep)
    as (evs & e & rep & w1 & Hcalls & Hback & Hfin).
  rewrite Hrun in Hfin.
  destruct Hback as [pre r1 Hpre Hlen | pre e0 rep Hpre Hlen He | evs rep Hevs Hlen].
  - destruct (rep_Volume r1) as [volume|] eqn:Hv.
    + destruct (Z.lt_ge_cases (vol_CapacityBytes volume) (volSizeBytes prep)) as [Hlt|Hge].
      * rewrite (finish_under_capacity DriverName p options prep r1 volume w1 Hv Hlt)
          in Hfin. discriminate Hfin.
      * rewrite (finish_provisioned prep r1 volume w1 Hv Hge) in Hfin.
        injection Hfin as -> -> ->.
        exists prep, pre, r1, volume. repeat split; assumption.
    + rewrite (finish_no_volume DriverName p options prep r1 w1 Hv) in Hfin.
      discriminate Hfin.
  - rewrite finish_error in Hfin. discriminate Hfin.
  - rewrite finish_error in Hfin. discriminate Hfin.
Qed.

End ProvisionResults.

(** ** [bytesToGiQuantity] *)

Lemma float64_of_int_exact (n : Z) :
  Z.abs n < 2 ^ 53 -> float64_of_int n = n.
Proof.
  intros H. unfold float64_of_int.
  assert (Hlog : Z.log2 (Z.abs n) - 52 <= 0).
  { destruct (Z.eq_dec (Z.abs n) 0) as [->|Hne]; [simpl; lia|].
    assert (0 < Z.abs n) by lia.
    assert (Z.log2 (Z.abs n) < 53) by (apply Z.log2_lt_pow2; lia). lia. }
  apply Z.leb_le in Hlog. rewrite Hlog. reflexivity.
Qed.

Lemma ceilDiv_bounds (a b : Z) :
  0 < b -> a <= ceilDiv a b * b < a + b.
Proof.
  intros Hb. unfold ceilDiv.
  pose proof (Z.div_mod (- a) b ltac:(lia)) as Hdm.
  pose proof (Z.mod_pos_bound (- a) b Hb) as Hmod.
  nia.
Qed.

(** X1. For a byte count from 0 to below 2^53, [bytesToGiQuantity] rounds
    up to whole units: the quantity is in [Mi] below 1 GiB and in [Gi] from
    1 GiB on, it stands for no fewer bytes than the count, and for less
    than one unit more. *)
Theorem bytesToGiQuantity_rounds_up (bytes : Z) :
  0 <= bytes < 2 ^ 53 ->
  let q := bytesToGiQuantity bytes in
  let unit := if bytes <? 2 ^ 30 then 2 ^ 20 else 2 ^ 30 in
  q_suffix q = (if bytes <? 2 ^ 30 then "Mi" else "Gi")
  /\ quantityBytes q = q_num q * unit
  /\ bytes <= quantityBytes q < bytes + unit.
Proof.
  intros Hb. cbv zeta. unfold bytesToGiQuantity.
  rewrite float64_of_int_exact by (rewrite Z.abs_eq; lia).
  change (1024 * 1024 * 1024) with (2 ^ 30).
  change (1024 * 1024) with (2 ^ 20).
  destruct (bytes <? 2 ^ 30); cbn [q_suffix q_num]; unfold quantityBytes;
    cbn [q_suffix q_num String.eqb Ascii.eqb Bool.eqb];
    (split; [reflexivity|]; split; [reflexivity|]).
  - apply ceilDiv_bounds. reflexivity.
  - apply ceilDiv_bounds. reflexivity.
Qed.

Lemma bytesToGiQuantity_rounds_up_witness :
  let q := bytesToGiQuantity 1610612737 in
  q_suffix q = "Gi"
  /\ quantityBytes q = q_num q * 2 ^ 30
  /\ 1610612737 <= quantityBytes q < 1610612737 + 2 ^ 30.
Proof.
  apply (bytesToGiQuantity_rounds_up 1610612737). lia.
Defined.

(** ** Runs of [Provision] past [prepare] *)

Lemma Provision_prepared_run {D} (DriverName : string) (p : csiProvisioner D)
    (options : VolumeOptions) (d0 : D) (prep : prepared)
    (r : outcome result) (w : world D) :
  fst (prepare p options {| driver := d0; calls := [] |}) = Next prep ->
  Provision DriverName p options d0 = (r, w) ->
  provisionRun prep r (calls w).
Proof.
  intros Hprep Hrun.
  destruct (Provision_prepared DriverName p options d0 prep Hprep)
    as (evs & err & rep & w1 & Hcalls & Hback & Hfin).
  rewrite Hrun in Hfin.
  destruct Hback as [pre r1 Hpre Hlen | pre e rep Hpre Hlen He | evs rep Hevs Hlen].
  - destruct (rep_Volume r1) as [volume|] eqn:Hv.
    + destruct (Z.lt_ge_cases (vol_CapacityBytes volume) (volSizeBytes prep)) as [Hlt|Hge].
      * rewrite (finish_under_capacity DriverName p options prep r1 volume w1 Hv Hlt)
          in Hfin.
        injection Hfin as -> ->. cbn [calls]. rewrite Hcalls.
        apply run_under_capacity; assumption.
      * rewrite (finish_provisioned DriverName p options prep r1 volume w1 Hv Hge)
          in Hfin.
        injection Hfin as -> ->. rewrite Hcalls.
        apply (run_provisioned prep pre r1 volume); assumption.
    + rewrite (finish_no_volume DriverName p options prep r1 w1 Hv) in Hfin.
      injection Hfin as -> ->. rewrite Hcalls.
      apply run_no_volume; assumption.
  - rewrite finish_error in Hfin. injection Hfin as -> ->. rewrite Hcalls.
    apply run_create_failed; assumption.
  - rewrite finish_error in Hfin. injection Hfin as -> ->. rewrite Hcalls.
    apply run_create_exhausted; assumption.
Qed.

(** A run of [Provision] either stops in [prepare], with a failure or a
    panic and no call, or is a run past [prepare]. *)
Lemma Provision_shapes {D} (DriverName : string) (p : csiProvisioner D)
    (options : VolumeOptions) (d0 : D) (r : outcome result) (w : world D) :
  Provision DriverName p options d0 = (r, w) ->
  (calls w = []
   /\ ((exists r0, failure r0 /\ r = Ret r0) \/ (exists pn, r = Panic pn)))
  \/ (exists prep,
        fst (prepare p options {| driver := d0; calls := [] |}) = Next prep
        /\ provisionRun prep r (calls w)).
Proof.
  intros Hrun. pose proof (Provision_early DriverName p options d0) as Hearly.
  destruct (fst (prepare p options {| driver := d0; calls := [] |}))
    as [prep|r0|pn] eqn:Hprep.
  - right. exists prep. split; [reflexivity|].
    exact (Provision_prepared_run DriverName p options d0 prep r w Hprep Hrun).
  - left. destruct Hearly as [Hfail Heq]. rewrite Hrun in Heq.
    injection Heq as -> ->. split; [reflexivity|]. left. eauto.
  - left. rewrite Hrun in Hearly. injection Hearly as -> ->.
    split; [reflexivity|]. right. eauto.
Qed.

Lemma capacityError_failure (prep : prepared) (volume : Volume)
    (delErr : option error) :
  failure (A := PersistentVolume) (None, Some (capacityError prep volume delErr)).
Proof. split; cbn; eauto. Qed.

(** X2. When [Provision] returns, it returns either a volume and no
    error, or no volume and an error: never both, never neither. *)
Theorem Provision_volume_or_error {D} (DriverName : string) (p : csiProvisioner D)
    (options : VolumeOptions) (d0 : D) (pv : option PersistentVolume)
    (err : option error) (w : world D) :
  Provision DriverName p options d0 = (Ret (pv, err), w) ->
  (is_Some pv /\ err = None) \/ (pv = None /\ is_Some err).
Proof.
  intros Hrun.
  apply Provision_shapes in Hrun
    as [[_ [(r0 & [Hnone Hsome] & Heq) | (pn & Heq)]] | (prep & _ & Hrun)].
  - injection Heq as <-. right. split; assumption.
  - discriminate Heq.
  - inversion Hrun; subst; try (right; split; [reflexivity | eauto]).
    left. split; [eauto | reflexivity].
Qed.

Lemma Provision_volume_or_error_witness :
  let run := Provision "csi-lvm" DemoDriver.stalled Demo.options 0%nat in
  (is_Some (@None PersistentVolume) /\ Some wait.ErrWaitTimeout = None)
  \/ (@None PersistentVolume = None /\ is_Some (Some wait.ErrWaitTimeout)).
Proof.
  apply (Provision_volume_or_error "csi-lvm" DemoDriver.stalled Demo.options 0%nat
           None (Some wait.ErrWaitTimeout)
           (snd (Provision "csi-lvm" DemoDriver.stalled Demo.options 0%nat))).
  vm_compute. reflexivity.
Defined.

Lemma filter_isCreate_creates (q : CreateVolumeRequest)
    (evs : list (CreateVolumeResponse + error)) :
  List.filter isCreate (fmap (CreateVolumeCall q) evs) = fmap (CreateVolumeCall q) evs.
Proof.
  induction evs as [|x evs IH]; [reflexivity|].
  cbn. f_equal. exact IH.
Qed.

(** The calls of a run past [prepare]: attempts with the prepared request,
    all timed out but possibly the last, then at most one [DeleteVolume]
    call, made after a successful last attempt. *)
Lemma provisionRun_calls (prep : prepared) (r : outcome result) (cs : list call) :
  provisionRun prep r cs ->
  exists pre last tail,
    cs = (fmap (CreateVolumeCall (req prep)) (pre ++ last)%list ++ tail)%list
    /\ Forall timedOut pre
    /\ (length (pre ++ last)%list <= Z.to_nat backoffSteps)%nat
    /\ (last = [] \/ exists x, last = [x] /\ ~ timedOut x)
    /\ (tail = []
        \/ exists rep volume delErr,
             last = [inl rep] /\ rep_Volume rep = Some volume
             /\ (exists e, r = Ret (None, Some e))
             /\ tail = [DeleteVolumeCall
                          {| del_VolumeId := vol_Id volume;
                             del_ControllerDeleteSecrets := provisionerCredentials prep |}
                          delErr]).
Proof.
  intros Hrun.
  destruct Hrun as [pre e0 Hpre Hlen He0 | evs Hevs Hlen | pre rep Hpre Hlen Hv
                   | pre rep volume pv Hpre Hlen Hv Hcap
                   | pre rep volume delErr Hpre Hlen Hv Hcap].
  - exists pre, [inr e0], []. rewrite app_nil_r. split; [reflexivity|].
    split; [exact Hpre|]. split; [rewrite length_app; simpl; lia|].
    split; [|left; reflexivity].
    right. exists (inr e0). split; [reflexivity|].
    intros Ht. apply timedOut_inr in Ht. congruence.
  - exists evs, [], []. rewrite !app_nil_r. split; [reflexivity|].
    split; [exact Hevs|]. split; [lia|]. split; left; reflexivity.
  - exists pre, [inl rep], []. rewrite app_nil_r. split; [reflexivity|].
    split; [exact Hpre|]. split; [rewrite length_app; simpl; lia|].
    split; [|left; reflexivity].
    right. exists (inl rep). split; [reflexivity | apply timedOut_not_inl].
  - exists pre, [inl rep], []. rewrite app_nil_r. split; [reflexivity|].
    split; [exact Hpre|]. split; [rewrite length_app; simpl; lia|].
    split; [|left; reflexivity].
    right. exists (inl rep). split; [reflexivity | apply timedOut_not_inl].
  - eexists pre, [inl rep], _. split; [reflexivity|].
    split; [exact Hpre|]. split; [rewrite length_app; simpl; lia|].
    split.
    + right. exists (inl rep). split; [reflexivity | apply timedOut_not_inl].
    + right. exists rep, volume, delErr. repeat split; eauto.
Qed.

(** X3. A run of [Provision] makes at most ten [CreateVolume] calls and at
    most one [DeleteVolume] call. A [CreateVolume] call that succeeds is the
    last [CreateVolume] call of the run. A [DeleteVolume] call is the last
    call of the run, comes right after a successful [CreateVolume] call, is
    made for the id of the volume that call returned and with the secrets
    that call was given, and the run then returns an error. *)
Theorem Provision_call_bounds {D} (DriverName : string) (p : csiProvisioner D)
    (options : VolumeOptions) (d0 : D) (r : outcome result) (w : world D) :
  Provision DriverName p options d0 = (r, w) ->
  (length (List.filter isCreate (calls w)) <= 10)%nat
  /\ (length (List.filter isDelete (calls w)) <= 1)%nat
  /\ (forall i q rep,
        calls w !! i = Some (CreateVolumeCall q (inl rep)) ->
        length (List.filter isCreate (calls w)) = S i)
  /\ (forall i delReq delErr,
        calls w !! i = Some (DeleteVolumeCall delReq delErr) ->
        length (calls w) = S i
        /\ (exists e, r = Ret (None, Some e))
        /\ exists j q rep volume,
             i = S j
             /\ calls w !! j = Some (CreateVolumeCall q (inl rep))
             /\ rep_Volume rep = Some volume
             /\ del_VolumeId delReq = vol_Id volume
             /\ del_ControllerDeleteSecrets delReq = req_ControllerCreateSecrets q).
Proof.
  intros Hrun.
  apply Provision_shapes in Hrun as [[Hnil _] | (prep & Hprep & Hrun)].
  { rewrite Hnil. cbn. repeat split; try lia; intros; discriminate. }
  assert (Hfields := prepare_Next p options _ _ prep
                       (eq_trans (surjective_pairing _) (f_equal2 pair Hprep eq_refl))).
  destruct Hfields as (_ & _ & _ & Hsecrets).
  apply provisionRun_calls in Hrun
    as (pre & last & tail & -> & Hpre & Hlen & Hlast & Htail).
  assert (Hcreates :
    List.filter isCreate
      (fmap (CreateVolumeCall (req prep)) (pre ++ last)%list ++ tail)%list
    = fmap (CreateVolumeCall (req prep)) (pre ++ last)%list).
  { rewrite List.filter_app, filter_isCreate_creates.
    destruct Htail as [-> | (rep & volume & delErr & _ & _ & _ & ->)];
      cbn; rewrite app_nil_r; reflexivity. }
  assert (Hdeletes :
    List.filter isDelete
      (fmap (CreateVolumeCall (req prep)) (pre ++ last)%list ++ tail)%list = tail).
  { rewrite List.filter_app, filter_isDelete_creates.
    destruct Htail as [-> | (rep & volume & delErr & _ & _ & _ & ->)]; reflexivity. }
  rewrite Hcreates, Hdeletes, length_fmap.
  split; [change (Z.to_nat backoffSteps) with 10%nat in Hlen; exact Hlen|].
  split.
  { destruct Htail as [-> | (rep & volume & delErr & _ & _ & _ & ->)]; simpl; lia. }
  split.
  - intros i q rep Hi.
    apply create_call_lookup in Hi as [(res & Hres & Heq) | [Hge Hi]].
    + injection Heq as -> <-.
      apply lookup_app_Some in Hres as [Hres | [Hge Hres]].
      * rewrite Forall_forall in Hpre.
        destruct (timedOut_not_inl rep (Hpre _ (list_elem_of_lookup_2 _ _ _ Hres))).
      * destruct Hlast as [-> | (x & -> & _)]; [discriminate Hres|].
        destruct (i - length pre)%nat as [|k] eqn:Hk; [|discriminate Hres].
        rewrite length_app. simpl. lia.
    + destruct Htail as [-> | (rep0 & volume & delErr & _ & _ & _ & ->)];
        [discriminate Hi|].
      destruct (i - _)%nat; cbn in Hi; [injection Hi as Hi; discriminate Hi
                                      | discriminate Hi].
  - intros i delReq delErr Hi.
    apply create_call_lookup in Hi as [(res & _ & Heq) | [Hge Hi]];
      [discriminate Heq|].
    destruct Htail as [-> | (rep0 & volume & delErr0 & -> & Hv & Hr & ->)];
      [discriminate Hi|].
    destruct (i - length (pre ++ [inl rep0])%list)%nat as [|k] eqn:Hk;
      [|discriminate Hi].
    cbn in Hi. injection Hi as <- <-.
    rewrite length_app in Hge, Hk. cbn [length] in Hge, Hk.
    split.
    { rewrite length_app, length_fmap, length_app. simpl. lia. }
    split; [exact Hr|].
    exists (length pre), (req prep), rep0, volume.
    split; [lia|]. split.
    { rewrite lookup_app_l by (rewrite length_fmap, length_app; simpl; lia).
      rewrite list_lookup_fmap.
      rewrite lookup_app_r by lia. rewrite Nat.sub_diag. reflexivity. }
    split; [exact Hv|]. split; [reflexivity|].
    cbn. symmetry. exact Hsecrets.
Qed.

Lemma Provision_call_bounds_witness :
  let run := Provision "csi-lvm" (DemoDriver.underAllocating None) Demo.options 0%nat in
  (length (List.filter isCreate (calls (snd run))) <= 10)%nat
  /\ (length (List.filter isDelete (calls (snd run))) <= 1)%nat.
Proof.
  pose proof (Provision_call_bounds "csi-lvm" (DemoDriver.underAllocating None)
                Demo.options 0%nat _ _ (surjective_pairing _)) as (H1 & H2 & _).
  split; assumption.
Defined.

Lemma provisionRun_create_request (prep : prepared) (r : outcome result)
    (cs : list call) (q : CreateVolumeRequest) (res : CreateVolumeResponse + error) :
  provisionRun prep r cs -> In (CreateVolumeCall q res) cs -> q = req prep.
Proof.
  intros Hrun Hin.
  apply provisionRun_calls in Hrun as (pre & last & tail & -> & _ & _ & _ & Htail).
  apply in_app_or in Hin as [Hin | Hin].
  - apply list_elem_of_In in Hin. apply list_elem_of_fmap in Hin as (y & Heq & _).
    congruence.
  - destruct Htail as [-> | (rep & volume & delErr & _ & _ & _ & ->)].
    + destruct Hin.
    + destruct Hin as [Hin | []]. discriminate Hin.
Qed.

(** X4. Every [CreateVolume] call of a run of [Provision] carries one and
    the same request: its name is the name [makeVolumeName] derives from
    the prefix and the claim's UID, its parameters are the options'
    parameters, its capabilities are the translated access modes and its
    required bytes are the claim's storage request (0 when the claim has
    none); and such a call is only made for a claim without selector. *)
Theorem Provision_create_requests {D} (DriverName : string) (p : csiProvisioner D)
    (options : VolumeOptions) (d0 : D) (r : outcome result) (w : world D)
    (q : CreateVolumeRequest) (res : CreateVolumeResponse + error) :
  Provision DriverName p options d0 = (r, w) ->
  In (CreateVolumeCall q res) (calls w) ->
  pvc_Selector (PVC options) = None
  /\ makeVolumeName (volumeNamePrefix p) (pvc_UID (PVC options))
       (volumeNameUUIDLength p) = Ret (req_Name q, None)
  /\ req_Parameters q = Parameters options
  /\ req_VolumeCapabilities q = accessModeCapabilities (pvc_AccessModes (PVC options))
  /\ req_RequiredBytes q = default 0 (pvc_Requests (PVC options) !! ResourceStorage)
  /\ (forall q' res', In (CreateVolumeCall q' res') (calls w) -> q' = q).
Proof.
  intros Hrun Hin.
  apply Provision_shapes in Hrun as [[Hnil _] | (prep & Hprep & Hrun)].
  { rewrite Hnil in Hin. destruct Hin. }
  assert (Hfields := prepare_Next_request p options _ _ prep
                       (eq_trans (surjective_pairing _) (f_equal2 pair Hprep eq_refl))).
  destruct Hfields as (Hsel & Hname & Hreq & Hparams & Hcaps & Hbytes).
  rewrite (provisionRun_create_request prep r (calls w) q res Hrun Hin).
  rewrite Hreq. repeat split; try assumption.
  intros q' res' Hin'.
  exact (provisionRun_create_request prep r (calls w) q' res' Hrun Hin').
Qed.

Lemma Provision_create_requests_witness :
  makeVolumeName "pvc" "0a1b-2c3d" (-1) = Ret (req_Name DemoDriver.request, None)
  /\ req_RequiredBytes DemoDriver.request = 1073741824.
Proof.
  pose proof (Provision_create_requests "csi-lvm" DemoDriver.stalled Demo.options
                0%nat _ _ DemoDriver.request (inr DemoDriver.deadlineExceeded)
                (surjective_pairing _)) as H.
  destruct H as (_ & Hname & _ & _ & Hbytes & _).
  - vm_compute. left. reflexivity.
  - split; [exact Hname | exact Hbytes].
Defined.

(** X5. [Provision] turns down, without any call to the driver: a claim
    with a selector; and, for a claim without selector, a data source with
    an empty name, a data source of a kind other than "VolumeSnapshot", and
    a data source of that kind whose API group is set to something other
    than "snapshot.storage.k8s.io". Each gets its own error. *)
Theorem Provision_rejects_unsupported {D} (DriverName : string)
    (p : csiProvisioner D) (options : VolumeOptions) (d0 : D) :
  let rejected (e : error) :=
    Provision DriverName p options d0
    = (Ret (None, Some e), {| driver := d0; calls := [] |}) in
  (is_Some (pvc_Selector (PVC options)) ->
   rejected (Errorf "claim Selector is not supported" []))
  /\ (forall dataSource,
        pvc_Selector (PVC options) = None ->
        pvc_DataSource (PVC options) = Some dataSource ->
        (ds_Name dataSource = "" ->
         rejected (Errorf "the PVC source not found for PVC %s"
                     [VString (pvc_Name (PVC options))]))
        /\ (ds_Name dataSource <> "" -> ds_Kind dataSource <> snapshotKind ->
            rejected (Errorf "the PVC source is not the right type. Expected %s, Got %s"
                        [VString snapshotKind; VString (ds_Kind dataSource)]))
        /\ (forall apiGroup,
              ds_Name dataSource <> "" -> ds_Kind dataSource = snapshotKind ->
              ds_APIGroup dataSource = Some apiGroup ->
              apiGroup <> snapshotAPIGroup ->
              rejected (Errorf
                "the PVC source does not belong to the right APIGroup. Expected %s, Got %s"
                [VString snapshotAPIGroup; VString apiGroup]))).
Proof.
  cbv zeta. split.
  - intros Hsel. unfold Provision, prepare. run_stmt.
    rewrite bool_decide_eq_true_2 by exact Hsel. reflexivity.
  - intros dataSource Hsel Hds. split; [|split].
    + intros Hname. unfold Provision, prepare. run_stmt.
      rewrite Hsel, Hds, Hname. reflexivity.
    + intros Hname Hkind. unfold Provision, prepare. run_stmt.
      rewrite Hsel, Hds.
      apply String.eqb_neq in Hname. apply String.eqb_neq in Hkind.
      rewrite Hname, Hkind. reflexivity.
    + intros apiGroup Hname Hkind Hgroup Hne. unfold Provision, prepare. run_stmt.
      rewrite Hsel, Hds, Hgroup.
      apply String.eqb_neq in Hname. apply String.eqb_neq in Hne.
      rewrite Hname, Hkind, Hne. reflexivity.
Qed.

Lemma Provision_rejects_unsupported_witness :
  Provision "csi-lvm" DemoDriver.stalled DemoSelector.options 0%nat
  = (Ret (None, Some (Errorf "claim Selector is not supported" [])),
     {| driver := 0%nat; calls := [] |}).
Proof.
  apply (Provision_rejects_unsupported "csi-lvm" DemoDriver.stalled
           DemoSelector.options 0%nat).
  exists tt. reflexivity.
Defined.

(** ** The volume [Provision] returns *)

Lemma volumeAttributesOf_union {D} (p : csiProvisioner D)
    (attributes : gmap string string) :
  volumeAttributesOf p attributes
  = attributes ∪ {[ provisionerIDKey := identity p ]}.
Proof.
  unfold volumeAttributesOf.
  apply (map_fold_weak_ind
           (fun r m => r = m ∪ ({[ provisionerIDKey := identity p ]} : gmap string string))).
  - rewrite (left_id_L ∅ (∪)). reflexivity.
  - intros i x m r _ ->. rewrite insert_union_l. reflexivity.
Qed.

Lemma fsType_fold_none (parameters : gmap string string) :
  (forall k, is_Some (parameters !! k) -> ToLower k <> "fstype") ->
  map_fold (fun k v (fsType : string) =>
              if String.eqb (ToLower k) "fstype" then v else fsType)
    "" parameters = "".
Proof.
  apply (map_fold_weak_ind
           (fun r (m : gmap string string) =>
              (forall k, is_Some (m !! k) -> ToLower k <> "fstype") -> r = "")).
  - reflexivity.
  - intros i x m r Hi IH Hall.
    assert (Hne : ToLower i <> "fstype").
    { apply Hall. rewrite lookup_insert_eq. eauto. }
    apply String.eqb_neq in Hne. rewrite Hne. apply IH.
    intros k Hk. apply Hall. rewrite lookup_insert_ne; [exact Hk|].
    intros <-. rewrite Hi in Hk. destruct Hk as [? Hk]. discriminate Hk.
Qed.

Lemma fsType_fold_unique (parameters : gmap string string) (k0 v : string) :
  ToLower k0 = "fstype" ->
  (forall k, is_Some (parameters !! k) -> ToLower k = "fstype" -> k = k0) ->
  parameters !! k0 = Some v ->
  map_fold (fun k v (fsType : string) =>
              if String.eqb (ToLower k) "fstype" then v else fsType)
    "" parameters = v.
Proof.
  intros Hk0 Huniq Hv.
  assert (Hgen :
    (forall k, is_Some (parameters !! k) -> ToLower k = "fstype" -> k = k0) ->
    map_fold (fun k v (fsType : string) =>
                if String.eqb (ToLower k) "fstype" then v else fsType)
      "" parameters = default "" (parameters !! k0)).
  { apply (map_fold_weak_ind
             (fun r (m : gmap string string) =>
                (forall k, is_Some (m !! k) -> ToLower k = "fstype" -> k = k0) ->
                r = default "" (m !! k0))).
    - intros _. rewrite lookup_empty. reflexivity.
    - intros i x m r Hi IH Hall.
      assert (Hm : forall k, is_Some (m !! k) -> ToLower k = "fstype" -> k = k0).
      { intros k Hk. apply Hall. rewrite lookup_insert_ne; [exact Hk|].
        intros <-. rewrite Hi in Hk. destruct Hk as [? Hk]. discriminate Hk. }
      destruct (String.eqb_spec (ToLower i) "fstype") as [Hlow|Hlow].
      + assert (i = k0) as -> by (apply Hall; [rewrite lookup_insert_eq; eauto | exact Hlow]).
        rewrite lookup_insert_eq. reflexivity.
      + rewrite lookup_insert_ne by congruence. apply IH. exact Hm. }
  rewrite (Hgen Huniq), Hv. reflexivity.
Qed.

Lemma bytesToGiQuantity_covers (bytes : Z) :
  Z.abs bytes < 2 ^ 53 -> bytes <= quantityBytes (bytesToGiQuantity bytes).
Proof.
  intros Hb. unfold bytesToGiQuantity.
  rewrite float64_of_int_exact by exact Hb.
  change (1024 * 1024 * 1024) with (2 ^ 30).
  change (1024 * 1024) with (2 ^ 20).
  destruct (bytes <? 2 ^ 30); unfold quantityBytes;
    cbn [q_suffix q_num String.eqb Ascii.eqb Bool.eqb];
    apply ceilDiv_bounds; reflexivity.
Qed.

Lemma last_create_call (q : CreateVolumeRequest)
    (pre : list (CreateVolumeResponse + error)) (x : CreateVolumeResponse + error) :
  last (fmap (CreateVolumeCall q) (pre ++ [x])%list) = Some (CreateVolumeCall q x).
Proof. rewrite fmap_app. cbn. apply last_snoc. Qed.

(** X6. A volume that [Provision] returns is built from the answer to the
    last call of the run, a successful [CreateVolume] call: it is named as
    the request was, its source names the driver, has the id of the
    driver's volume as handle and has as attributes the driver's attributes
    together with the provisioner's identity under its key, where the
    driver's attributes do not set that key themselves; access modes and
    reclaim policy are those of the claim and the options. *)
Theorem Provision_volume_from_driver {D} (DriverName : string) (p : csiProvisioner D)
    (options : VolumeOptions) (d0 : D) (pv : PersistentVolume)
    (err : option error) (w : world D) :
  Provision DriverName p options d0 = (Ret (Some pv, err), w) ->
  exists q rep volume source,
    last (calls w) = Some (CreateVolumeCall q (inl rep))
    /\ rep_Volume rep = Some volume
    /\ pv_Name pv = req_Name q
    /\ pv_CSI pv = Some source
    /\ csi_Driver source = DriverName
    /\ csi_VolumeHandle source = vol_Id volume
    /\ csi_VolumeAttributes source
       = vol_Attributes volume ∪ {[ provisionerIDKey := identity p ]}
    /\ pv_AccessModes pv = pvc_AccessModes (PVC options)
    /\ pv_PersistentVolumeReclaimPolicy pv = PersistentVolumeReclaimPolicy options.
Proof.
  intros Hrun.
  apply Provision_success in Hrun
    as (prep & pre & rep & volume & Hprep & _ & _ & Hcalls & Hv & _ & -> & _).
  assert (Hfields := prepare_Next p options _ _ prep
                       (eq_trans (surjective_pairing _) (f_equal2 pair Hprep eq_refl))).
  destruct Hfields as (_ & Hname & _ & _).
  eexists (req prep), rep, volume, _.
  split; [rewrite Hcalls; apply last_create_call|].
  split; [exact Hv|]. split; [symmetry; exact Hname|].
  split; [reflexivity|]. split; [reflexivity|]. split; [reflexivity|].
  split; [apply volumeAttributesOf_union|]. split; reflexivity.
Qed.

Lemma Provision_volume_from_driver_witness :
  exists q rep volume source,
    last (calls (snd (Provision "csi-lvm" DemoDriver.exact DemoDriver.options3Gi 0%nat)))
    = Some (CreateVolumeCall q (inl rep))
    /\ rep_Volume rep = Some volume
    /\ pv_Name DemoProvisioned.volume = req_Name q
    /\ pv_CSI DemoProvisioned.volume = Some source
    /\ csi_Driver source = "csi-lvm"
    /\ csi_VolumeHandle source = vol_Id volume
    /\ csi_VolumeAttributes source
       = vol_Attributes volume ∪ {[ provisionerIDKey := identity DemoDriver.exact ]}
    /\ pv_AccessModes DemoProvisioned.volume
       = pvc_AccessModes (PVC DemoDriver.options3Gi)
    /\ pv_PersistentVolumeReclaimPolicy DemoProvisioned.volume
       = PersistentVolumeReclaimPolicy DemoDriver.options3Gi.
Proof.
  apply (Provision_volume_from_driver "csi-lvm" DemoDriver.exact DemoDriver.options3Gi
           0%nat _ None).
  vm_compute. reflexivity.
Defined.

(** X7. The file system type of a volume that [Provision] returns is read
    from the options' parameters through the lower-cased key: it is "ext4"
    when no parameter key lower-cases to "fstype"; and when exactly one key
    does, it is that parameter's value, or "ext4" if the value is empty. *)
Theorem Provision_fsType {D} (DriverName : string) (p : csiProvisioner D)
    (options : VolumeOptions) (d0 : D) (pv : PersistentVolume)
    (err : option error) (w : world D) :
  Provision DriverName p options d0 = (Ret (Some pv, err), w) ->
  exists source,
    pv_CSI pv = Some source
    /\ ((forall k, is_Some (Parameters options !! k) -> ToLower k <> "fstype") ->
        csi_FSType source = "ext4")
    /\ (forall k0 v,
          Parameters options !! k0 = Some v ->
          ToLower k0 = "fstype" ->
          (forall k, is_Some (Parameters options !! k) ->
                     ToLower k = "fstype" -> k = k0) ->
          csi_FSType source = if String.eqb v "" then "ext4" else v).
Proof.
  intros Hrun.
  apply Provision_success in Hrun
    as (prep & pre & rep & volume & _ & _ & _ & _ & _ & _ & -> & _).
  eexists. split; [reflexivity|]. cbn [csi_FSType]. unfold fsTypeOf. split.
  - intros Hnone. rewrite (fsType_fold_none _ Hnone). reflexivity.
  - intros k0 v Hv Hk0 Huniq.
    rewrite (fsType_fold_unique _ k0 v Hk0 Huniq Hv).
    destruct v; reflexivity.
Qed.

Lemma Provision_fsType_witness :
  exists source,
    pv_CSI DemoProvisioned.volume = Some source
    /\ csi_FSType source = "xfs".
Proof.
  destruct (Provision_fsType "csi-lvm" DemoDriver.exact DemoDriver.options3Gi 0%nat
              DemoProvisioned.volume None
              (snd (Provision "csi-lvm" DemoDriver.exact DemoDriver.options3Gi 0%nat)))
    as (source & Hsrc & _ & Hone).
  - vm_compute. reflexivity.
  - exists source. split; [exact Hsrc|].
    apply (Hone "fsType" "xfs").
    + vm_compute. reflexivity.
    + reflexivity.
    + intros k [x Hk] _.
      destruct (decide (k = "fsType")) as [->|Hne]; [reflexivity|].
      unfold DemoDriver.options3Gi in Hk. cbn [Parameters] in Hk.
      rewrite lookup_singleton_ne in Hk by congruence. discriminate Hk.
Defined.

(** X8. A volume that [Provision] returns was created, in the last call of
    the run, with a capacity of at least the claim's storage request; and
    when that capacity is below 2^53 bytes in size, the capacity written on
    the volume stands for at least that many bytes, so for no less than the
    claim requested. *)
Theorem Provision_capacity_covers_request {D} (DriverName : string)
    (p : csiProvisioner D) (options : VolumeOptions) (d0 : D)
    (pv : PersistentVolume) (err : option error) (w : world D) :
  Provision DriverName p options d0 = (Ret (Some pv, err), w) ->
  exists q rep volume quantity,
    last (calls w) = Some (CreateVolumeCall q (inl rep))
    /\ rep_Volume rep = Some volume
    /\ default 0 (pvc_Requests (PVC options) !! ResourceStorage)
       <= vol_CapacityBytes volume
    /\ pv_Capacity pv !! ResourceStorage = Some quantity
    /\ (Z.abs (vol_CapacityBytes volume) < 2 ^ 53 ->
        vol_CapacityBytes volume <= quantityBytes quantity).
Proof.
  intros Hrun.
  apply Provision_success in Hrun
    as (prep & pre & rep & volume & Hprep & _ & _ & Hcalls & Hv & Hcap & -> & _).
  assert (Hfields := prepare_Next p options _ _ prep
                       (eq_trans (surjective_pairing _) (f_equal2 pair Hprep eq_refl))).
  destruct Hfields as (Hsize & _).
  exists (req prep), rep, volume, (bytesToGiQuantity (vol_CapacityBytes volume)).
  split; [rewrite Hcalls; apply last_create_call|].
  split; [exact Hv|]. split; [rewrite <- Hsize; exact Hcap|].
  split; [cbn [pv_Capacity provisionedVolume]; apply lookup_singleton_eq|].
  apply bytesToGiQuantity_covers.
Qed.

Lemma Provision_capacity_covers_request_witness :
  exists q rep volume quantity,
    last (calls (snd (Provision "csi-lvm" DemoDriver.exact DemoDriver.options3Gi 0%nat)))
    = Some (CreateVolumeCall q (inl rep))
    /\ rep_Volume rep = Some volume
    /\ default 0 (pvc_Requests (PVC DemoDriver.options3Gi) !! ResourceStorage)
       <= vol_CapacityBytes volume
    /\ pv_Capacity DemoProvisioned.volume !! ResourceStorage = Some quantity
    /\ (Z.abs (vol_CapacityBytes volume) < 2 ^ 53 ->
        vol_CapacityBytes volume <= quantityBytes quantity).
Proof.
  apply (Provision_capacity_covers_request "csi-lvm" DemoDriver.exact
           DemoDriver.options3Gi 0%nat _ None).
  vm_compute. reflexivity.
Defined.

(** ** [Delete] *)

Section DeleteFacts.
Context {D : Type} (client_StorageClasses_Get : string -> StorageClass + error).
Context (p : csiProvisioner D) (d0 : D).

Lemma Delete_nil :
  Delete client_StorageClasses_Get p None d0
  = (Ret (Some errInvalidPV), {| driver := d0; calls := [] |}).
Proof. reflexivity. Qed.

Lemma Delete_no_source (volume : StoredVolume) :
  pv_CSI (sv_Volume volume) = None ->
  Delete client_StorageClasses_Get p (Some volume) d0
  = (Ret (Some errInvalidPV), {| driver := d0; calls := [] |}).
Proof. intros H. unfold Delete. rewrite H. reflexivity. Qed.

(** The one call [Delete] makes once it has the secrets. *)
Lemma Delete_call (volume : StoredVolume) (source : CSIPersistentVolumeSource)
    (secrets : gmap string string) :
  let delReq := {| del_VolumeId := csi_VolumeHandle source;
                   del_ControllerDeleteSecrets := secrets |} in
  body (W := world D)
    (seq (deleteVolume p delReq) (fun err => ret err))
    {| driver := d0; calls := [] |}
  = (Ret (fst (csiClient_DeleteVolume p delReq d0)),
     {| driver := snd (csiClient_DeleteVolume p delReq d0);
        calls := [DeleteVolumeCall delReq (fst (csiClient_DeleteVolume p delReq d0))] |}).
Proof.
  cbv zeta. unfold body, seq, deleteVolume, ret. cbn [driver calls].
  destruct (csiClient_DeleteVolume p _ d0) as [err d']. reflexivity.
Qed.

Lemma Delete_no_class (volume : StoredVolume) (source : CSIPersistentVolumeSource) :
  pv_CSI (sv_Volume volume) = Some source ->
  sv_StorageClassName volume = ""
  \/ (exists e, client_StorageClasses_Get (sv_StorageClassName volume) = inr e) ->
  let delReq := {| del_VolumeId := csi_VolumeHandle source;
                   del_ControllerDeleteSecrets := ∅ |} in
  Delete client_StorageClasses_Get p (Some volume) d0
  = (Ret (fst (csiClient_DeleteVolume p delReq d0)),
     {| driver := snd (csiClient_DeleteVolume p delReq d0);
        calls := [DeleteVolumeCall delReq (fst (csiClient_DeleteVolume p delReq d0))] |}).
Proof.
  intros Hsrc Hclass. cbv zeta.
  rewrite <- (Delete_call volume source ∅).
  unfold Delete. rewrite Hsrc. cbv zeta.
  destruct Hclass as [-> | [e He]].
  - reflexivity.
  - rewrite He. destruct (negb _); reflexivity.
Qed.

Lemma Delete_with_class (volume : StoredVolume) (source : CSIPersistentVolumeSource)
    (storageClass : StorageClass) :
  pv_CSI (sv_Volume volume) = Some source ->
  sv_StorageClassName volume <> "" ->
  client_StorageClasses_Get (sv_StorageClassName volume) = inl storageClass ->
  let provisionerSecret :=
    getSecretReference provisionerSecretNameKey provisionerSecretNamespaceKey
      (sc_Parameters storageClass) (pv_Name (sv_Volume volume)) None in
  let credentials := getCredentials p (fst provisionerSecret) in
  Delete client_StorageClasses_Get p (Some volume) d0
  = match snd provisionerSecret, snd credentials with
    | Some e, _ => (Ret (Some e), {| driver := d0; calls := [] |})
    | None, Some e => (Ret (Some e), {| driver := d0; calls := [] |})
    | None, None =>
        let delReq := {| del_VolumeId := csi_VolumeHandle source;
                         del_ControllerDeleteSecrets := fst credentials |} in
        (Ret (fst (csiClient_DeleteVolume p delReq d0)),
         {| driver := snd (csiClient_DeleteVolume p delReq d0);
            calls := [DeleteVolumeCall delReq
                        (fst (csiClient_DeleteVolume p delReq d0))] |})
    end.
Proof.
  intros Hsrc Hname Hclass. cbv zeta.
  unfold Delete. rewrite Hsrc. cbv zeta.
  apply len_eqb_zero in Hname. rewrite Hname, Hclass. cbn [negb].
  destruct (getSecretReference _ _ _ _ _) as [ref [e|]]; [reflexivity|].
  cbn [fst snd].
  destruct (getCredentials p ref) as [creds [e|]]; [reflexivity|].
  cbn [fst snd].
  rewrite <- (Delete_call volume source creds). reflexivity.
Qed.

End DeleteFacts.

(** X9. [Delete] turns down a nil volume and a volume without CSI source
    with the error "invalid CSI PV", and makes no call to the driver. *)
Theorem Delete_invalid_volume {D}
    (client_StorageClasses_Get : string -> StorageClass + error)
    (p : csiProvisioner D) (volume : option StoredVolume) (d0 : D) :
  volume = None \/ (exists v, volume = Some v /\ pv_CSI (sv_Volume v) = None) ->
  Delete client_StorageClasses_Get p volume d0
  = (Ret (Some errInvalidPV), {| driver := d0; calls := [] |})
  /\ Error errInvalidPV = Some "invalid CSI PV".
Proof.
  intros [-> | (v & -> & Hsrc)]; (split; [|reflexivity]).
  - apply Delete_nil.
  - apply Delete_no_source. exact Hsrc.
Qed.

Lemma Delete_invalid_volume_witness :
  Delete DemoDelete.storageClasses (DemoDelete.provisioner None)
    (Some DemoDelete.foreign) 0%nat
  = (Ret (Some errInvalidPV), {| driver := 0%nat; calls := [] |})
  /\ Error errInvalidPV = Some "invalid CSI PV".
Proof.
  apply (Delete_invalid_volume DemoDelete.storageClasses (DemoDelete.provisioner None)
           (Some DemoDelete.foreign) 0%nat).
  right. exists DemoDelete.foreign. split; reflexivity.
Defined.

(** X10. [Delete] never panics and makes at most one call to the driver.
    Either it makes no call and returns an error; or it makes exactly one
    call, a [DeleteVolume] for the handle of the volume's CSI source, and
    returns what this call returned, error or nil, leaving the driver in
    the state the call left it in. *)
Theorem Delete_single_call {D}
    (client_StorageClasses_Get : string -> StorageClass + error)
    (p : csiProvisioner D) (volume : option StoredVolume) (d0 : D)
    (r : outcome (option error)) (w : world D) :
  Delete client_StorageClasses_Get p volume d0 = (r, w) ->
  (exists e, r = Ret (Some e) /\ calls w = [] /\ driver w = d0)
  \/ (exists v source secrets,
        volume = Some v
        /\ pv_CSI (sv_Volume v) = Some source
        /\ let delReq := {| del_VolumeId := csi_VolumeHandle source;
                            del_ControllerDeleteSecrets := secrets |} in
           r = Ret (fst (csiClient_DeleteVolume p delReq d0))
           /\ driver w = snd (csiClient_DeleteVolume p delReq d0)
           /\ calls w = [DeleteVolumeCall delReq
                           (fst (csiClient_DeleteVolume p delReq d0))]).
Proof.
  intros Hrun.
  destruct volume as [v|].
  2:{ rewrite Delete_nil in Hrun. injection Hrun as <- <-. left. eauto. }
  destruct (pv_CSI (sv_Volume v)) as [source|] eqn:Hsrc.
  2:{ rewrite (Delete_no_source _ _ _ _ Hsrc) in Hrun.
      injection Hrun as <- <-. left. eauto. }
  destruct (String.eqb_spec (sv_StorageClassName v) "") as [Hname|Hname].
  { rewrite (Delete_no_class _ _ _ _ _ Hsrc (or_introl Hname)) in Hrun.
    injection Hrun as <- <-. right. exists v, source, ∅. cbv zeta. auto. }
  destruct (client_StorageClasses_Get (sv_StorageClassName v)) as [sc|e] eqn:Hclass.
  2:{ rewrite (Delete_no_class _ _ _ _ _ Hsrc (or_intror (ex_intro _ e Hclass))) in Hrun.
      injection Hrun as <- <-. right. exists v, source, ∅. cbv zeta. auto. }
  rewrite (Delete_with_class _ _ _ _ _ sc Hsrc Hname Hclass) in Hrun. cbv zeta in Hrun.
  destruct (snd (getSecretReference _ _ _ _ _)) as [e|].
  { injection Hrun as <- <-. left. eauto. }
  destruct (snd (getCredentials p _)) as [e|].
  { injection Hrun as <- <-. left. eauto. }
  injection Hrun as <- <-. right. eexists v, source, _. cbv zeta. auto.
Qed.

Lemma Delete_single_call_witness :
  let run := Delete DemoDelete.storageClasses
               (DemoDelete.provisioner (Some (statusError 13 "device busy")))
               (Some (DemoDelete.stored "fast")) 0%nat in
  fst run = Ret (Some (statusError 13 "device busy"))
  /\ calls (snd run)
     = [DeleteVolumeCall
          {| del_VolumeId := "vol-8";
             del_ControllerDeleteSecrets :=
               {[ "user" := "admin"; "password" := "s3cr3t" ]} |}
          (Some (statusError 13 "device busy"))].
Proof.
  destruct (Delete_single_call DemoDelete.storageClasses
              (DemoDelete.provisioner (Some (statusError 13 "device busy")))
              (Some (DemoDelete.stored "fast")) 0%nat _ _ (surjective_pairing _))
    as [(e & _ & Hcalls & _) | _].
  - vm_compute in Hcalls. discriminate Hcalls.
  - vm_compute. split; reflexivity.
Defined.

(** X11. A volume with a CSI source but no storage class name, or whose
    storage class cannot be read, is deleted all the same: [Delete] makes
    its [DeleteVolume] call, without secrets, and returns what the call
    returned. *)
Theorem Delete_without_storage_class {D}
    (client_StorageClasses_Get : string -> StorageClass + error)
    (p : csiProvisioner D) (volume : StoredVolume)
    (source : CSIPersistentVolumeSource) (d0 : D) :
  pv_CSI (sv_Volume volume) = Some source ->
  sv_StorageClassName volume = ""
  \/ (exists e, client_StorageClasses_Get (sv_StorageClassName volume) = inr e) ->
  let delReq := {| del_VolumeId := csi_VolumeHandle source;
                   del_ControllerDeleteSecrets := ∅ |} in
  let run := Delete client_StorageClasses_Get p (Some volume) d0 in
  fst run = Ret (fst (csiClient_DeleteVolume p delReq d0))
  /\ calls (snd run)
     = [DeleteVolumeCall delReq (fst (csiClient_DeleteVolume p delReq d0))].
Proof.
  intros Hsrc Hclass. cbv zeta.
  rewrite (Delete_no_class _ _ _ _ _ Hsrc Hclass). split; reflexivity.
Qed.

Lemma Delete_without_storage_class_witness :
  let run := Delete DemoDelete.storageClasses (DemoDelete.provisioner None)
               (Some (DemoDelete.stored "gone")) 0%nat in
  fst run = Ret None
  /\ calls (snd run)
     = [DeleteVolumeCall {| del_VolumeId := "vol-8";
                            del_ControllerDeleteSecrets := ∅ |} None].
Proof.
  destruct (pv_CSI (sv_Volume (DemoDelete.stored "gone"))) as [source|] eqn:Hsrc;
    [|discriminate Hsrc].
  pose proof (Delete_without_storage_class DemoDelete.storageClasses
                (DemoDelete.provisioner None) (DemoDelete.stored "gone") source 0%nat
                Hsrc) as H.
  injection Hsrc as <-. apply H.
  right. exists (errorString "storageclass not found"). reflexivity.
Defined.

(** ** [getCredentials] *)

Lemma map_fold_insert_all (m : gmap string string) :
  map_fold (fun key value (credentials : gmap string string) =>
              <[ key := value ]> credentials) ∅ m = m.
Proof.
  apply (map_fold_weak_ind (fun r (m : gmap string string) => r = m)).
  - reflexivity.
  - intros i x m' r _ ->. reflexivity.
Qed.

Lemma getCredentials_read {D} (p : csiProvisioner D) (ref : SecretReference)
    (secret : Secret) :
  client_Secrets_Get p (ref_Namespace ref) (ref_Name ref) = inl secret ->
  getCredentials p (Some ref) = (secret_Data secret, None).
Proof.
  intros Hs. unfold getCredentials. rewrite Hs, map_fold_insert_all. reflexivity.
Qed.

Lemma getCredentials_unread {D} (p : csiProvisioner D) (ref : SecretReference)
    (e : error) :
  client_Secrets_Get p (ref_Namespace ref) (ref_Name ref) = inr e ->
  getCredentials p (Some ref)
  = (∅, Some (Errorf "error getting secret %s in namespace %s: %v"
                [VString (ref_Name ref); VString (ref_Namespace ref); VError e])).
Proof. intros He. unfold getCredentials. rewrite He. reflexivity. Qed.

(** X12. [getCredentials] needs no secret for a nil reference and returns
    no credentials and no error; for a reference whose secret cannot be
    read it returns the error naming the secret and its namespace; and for
    a secret that is read, the credentials are exactly the secret's
    data. *)
Theorem getCredentials_spec {D} (p : csiProvisioner D) :
  getCredentials p None = (∅, None)
  /\ (forall ref e,
        client_Secrets_Get p (ref_Namespace ref) (ref_Name ref) = inr e ->
        getCredentials p (Some ref)
        = (∅, Some (Errorf "error getting secret %s in namespace %s: %v"
                      [VString (ref_Name ref); VString (ref_Namespace ref); VError e])))
  /\ (forall ref secret,
        client_Secrets_Get p (ref_Namespace ref) (ref_Name ref) = inl secret ->
        getCredentials p (Some ref) = (secret_Data secret, None)).
Proof.
  split; [reflexivity|]. split.
  - intros ref e He. apply getCredentials_unread. exact He.
  - intros ref secret Hs. apply getCredentials_read. exact Hs.
Qed.

Lemma getCredentials_spec_witness :
  getCredentials (DemoDelete.provisioner None)
    (Some {| ref_Name := "lvm-creds"; ref_Namespace := "kube-system" |})
  = ({[ "user" := "admin"; "password" := "s3cr3t" ]}, None).
Proof.
  exact (proj2 (proj2 (getCredentials_spec (DemoDelete.provisioner None)))
           {| ref_Name := "lvm-creds"; ref_Namespace := "kube-system" |}
           {| secret_Data := {[ "user" := "admin"; "password" := "s3cr3t" ]} |}
           eq_refl).
Defined.

(** X13. For a volume with a CSI source whose storage class is read:
    [Delete] returns the error of [getSecretReference] on the class's
    provisioner secret parameters, or else the error of reading the
    referenced secret, in both cases without a call to the driver; and
    when the secret is read, or none is referenced, it makes its
    [DeleteVolume] call with exactly the secret's data, or with no
    secrets. *)
Theorem Delete_secrets {D}
    (client_StorageClasses_Get : string -> StorageClass + error)
    (p : csiProvisioner D) (volume : StoredVolume)
    (source : CSIPersistentVolumeSource) (storageClass : StorageClass) (d0 : D) :
  pv_CSI (sv_Volume volume) = Some source ->
  sv_StorageClassName volume <> "" ->
  client_StorageClasses_Get (sv_StorageClassName volume) = inl storageClass ->
  let secretRef :=
    getSecretReference provisionerSecretNameKey provisionerSecretNamespaceKey
      (sc_Parameters storageClass) (pv_Name (sv_Volume volume)) None in
  let run := Delete client_StorageClasses_Get p (Some volume) d0 in
  let deletedWith (secrets : gmap string string) :=
    exists delErr,
      run = (Ret delErr,
             {| driver := snd (csiClient_DeleteVolume p
                                 {| del_VolumeId := csi_VolumeHandle source;
                                    del_ControllerDeleteSecrets := secrets |} d0);
                calls := [DeleteVolumeCall
                            {| del_VolumeId := csi_VolumeHandle source;
                               del_ControllerDeleteSecrets := secrets |} delErr] |}) in
  (forall e, snd secretRef = Some e ->
     run = (Ret (Some e), {| driver := d0; calls := [] |}))
  /\ (forall ref e,
        secretRef = (Some ref, None) ->
        client_Secrets_Get p (ref_Namespace ref) (ref_Name ref) = inr e ->
        run = (Ret (Some (Errorf "error getting secret %s in namespace %s: %v"
                            [VString (ref_Name ref); VString (ref_Namespace ref);
                             VError e])),
               {| driver := d0; calls := [] |}))
  /\ (forall ref secret,
        secretRef = (Some ref, None) ->
        client_Secrets_Get p (ref_Namespace ref) (ref_Name ref) = inl secret ->
        deletedWith (secret_Data secret))
  /\ (secretRef = (None, None) -> deletedWith ∅).
Proof.
  intros Hsrc Hname Hclass. cbv zeta.
  rewrite (Delete_with_class _ _ _ _ _ storageClass Hsrc Hname Hclass). cbv zeta.
  assert (Hnil : getCredentials p None = (∅, None)) by reflexivity.
  pose proof (fun ref e => getCredentials_unread p ref e) as Hfail.
  pose proof (fun ref secret => getCredentials_read p ref secret) as Hread.
  split; [|split; [|split]].
  - intros e He. rewrite He. reflexivity.
  - intros ref e Href He. rewrite Href. cbn [fst snd].
    rewrite (Hfail ref e He). reflexivity.
  - intros ref secret Href Hs. rewrite Href. cbn [fst snd].
    rewrite (Hread ref secret Hs). cbn [fst snd].
    eexists. reflexivity.
  - intros Href. rewrite Href. cbn [fst snd]. rewrite Hnil. cbn [fst snd].
    eexists. reflexivity.
Qed.

Lemma Delete_secrets_witness :
  exists delErr,
    Delete DemoDelete.storageClasses (DemoDelete.provisioner None)
      (Some (DemoDelete.stored "fast")) 0%nat
    = (Ret delErr,
       {| driver := 1%nat;
          calls := [DeleteVolumeCall
                      {| del_VolumeId := "vol-8";
                         del_ControllerDeleteSecrets :=
                           {[ "user" := "admin"; "password" := "s3cr3t" ]} |}
                      delErr] |}).
Proof.
  destruct (pv_CSI (sv_Volume (DemoDelete.stored "fast"))) as [source|] eqn:Hsrc;
    [|discriminate Hsrc].
  pose proof (Delete_secrets DemoDelete.storageClasses (DemoDelete.provisioner None)
                (DemoDelete.stored "fast") source
                {| sc_Parameters :=
                     {[ provisionerSecretNameKey := "lvm-creds";
                        provisionerSecretNamespaceKey := "kube-system" ]} |}
                0%nat Hsrc ltac:(discriminate) eq_refl) as (_ & _ & Hread & _).
  injection Hsrc as <-.
  exact (Hread {| ref_Name := "lvm-creds"; ref_Namespace := "kube-system" |}
           {| secret_Data := {[ "user" := "admin"; "password" := "s3cr3t" ]} |}
           ltac:(vm_compute; reflexivity) eq_refl).
Defined.

(** X14. A volume that [Provision] returned is one [Delete] accepts:
    stored under any storage class name, [Delete] either makes exactly one
    call, a [DeleteVolume] for the id the driver gave the volume in the
    last call of the [Provision] run, and returns what it returned; or it
    makes no call and returns an error, which happens only when the
    storage class is named and read. *)
Theorem Provision_then_Delete {D}
    (client_StorageClasses_Get : string -> StorageClass + error)
    (DriverName : string) (p : csiProvisioner D) (options : VolumeOptions)
    (d0 d1 : D) (pv : PersistentVolume) (err : option error) (w w' : world D)
    (className : string) (r' : outcome (option error)) :
  Provision DriverName p options d0 = (Ret (Some pv, err), w) ->
  Delete client_StorageClasses_Get p
    (Some {| sv_Volume := pv; sv_StorageClassName := className |}) d1 = (r', w') ->
  exists q rep volume,
    last (calls w) = Some (CreateVolumeCall q (inl rep))
    /\ rep_Volume rep = Some volume
    /\ ((exists secrets delErr,
           r' = Ret delErr
           /\ calls w' = [DeleteVolumeCall
                            {| del_VolumeId := vol_Id volume;
                               del_ControllerDeleteSecrets := secrets |} delErr])
        \/ (exists e storageClass,
              r' = Ret (Some e) /\ calls w' = []
              /\ className <> ""
              /\ client_StorageClasses_Get className = inl storageClass)).
Proof.
  intros Hprov Hdel.
  apply Provision_success in Hprov
    as (prep & pre & rep & volume & _ & _ & _ & Hcalls & Hv & _ & -> & _).
  exists (req prep), rep, volume.
  split; [rewrite Hcalls; apply last_create_call|]. split; [exact Hv|].
  set (stored := {| sv_Volume := provisionedVolume DriverName p options prep volume;
                    sv_StorageClassName := className |}) in *.
  assert (Hsrc : exists source,
            pv_CSI (sv_Volume stored) = Some source
            /\ csi_VolumeHandle source = vol_Id volume).
  { eexists. split; reflexivity. }
  destruct Hsrc as (source & Hsrc & Hhandle).
  destruct (String.eqb_spec className "") as [Hname|Hname].
  { rewrite (Delete_no_class _ _ _ stored source Hsrc (or_introl Hname)) in Hdel.
    injection Hdel as <- <-. left. rewrite Hhandle. eauto. }
  destruct (client_StorageClasses_Get className) as [sc|e] eqn:Hclass.
  2:{ rewrite (Delete_no_class _ _ _ stored source Hsrc
                 (or_intror (ex_intro _ e Hclass))) in Hdel.
      injection Hdel as <- <-. left. rewrite Hhandle. eauto. }
  rewrite (Delete_with_class _ _ _ stored source sc Hsrc Hname Hclass) in Hdel.
  cbv zeta in Hdel.
  destruct (snd (getSecretReference _ _ _ _ _)) as [e|].
  { injection Hdel as <- <-. right. exists e, sc. auto. }
  destruct (snd (getCredentials p _)) as [e|].
  { injection Hdel as <- <-. right. exists e, sc. auto. }
  injection Hdel as <- <-. left. rewrite Hhandle. eauto.
Qed.

Lemma Provision_then_Delete_witness :
  exists q rep volume,
    last (calls (snd (Provision "csi-lvm" DemoDriver.exact DemoDriver.options3Gi 0%nat)))
    = Some (CreateVolumeCall q (inl rep))
    /\ rep_Volume rep = Some volume
    /\ ((exists secrets delErr,
           fst (Delete DemoDelete.storageClasses DemoDriver.exact
                  (Some (DemoDelete.stored "")) 1%nat) = Ret delErr
           /\ calls (snd (Delete DemoDelete.storageClasses DemoDriver.exact
                            (Some (DemoDelete.stored "")) 1%nat))
              = [DeleteVolumeCall
                   {| del_VolumeId := vol_Id volume;
                      del_ControllerDeleteSecrets := secrets |} delErr])
        \/ (exists e storageClass,
              fst (Delete DemoDelete.storageClasses DemoDriver.exact
                     (Some (DemoDelete.stored "")) 1%nat) = Ret (Some e)
              /\ calls (snd (Delete DemoDelete.storageClasses DemoDriver.exact
                               (Some (DemoDelete.stored "")) 1%nat)) = []
              /\ "" <> ""
              /\ DemoDelete.storageClasses "" = inl storageClass)).
Proof.
  apply (Provision_then_Delete DemoDelete.storageClasses "csi-lvm" DemoDriver.exact
           DemoDriver.options3Gi 0%nat 1%nat DemoProvisioned.volume None _ _ ""
           _).
  - vm_compute. reflexivity.
  - apply surjective_pairing.
Defined.

(** ** [resolveTemplate] on templates whose tokens are all defined *)

Lemma substitute_ext (params params' : gmap string string) (ps : list piece) :
  (forall t, In t (tokensOf ps) -> params' !! t = params !! t) ->
  substitute params' ps = substitute params ps.
Proof.
  induction ps as [|x ps IH]; intros Hagree; [reflexivity|].
  destruct x as [s|t]; cbn [substitute fold_right].
  - f_equal. apply IH. intros t Ht. apply Hagree. exact Ht.
  - rewrite (Hagree t) by (left; reflexivity). f_equal.
    apply IH. intros t' Ht'. apply Hagree. right. exact Ht'.
Qed.

Lemma missingTokens_ext (params params' : gmap string string) (ps : list piece) :
  (forall t, In t (tokensOf ps) -> params' !! t = params !! t) ->
  missingTokens params' ps = missingTokens params ps.
Proof.
  unfold missingTokens. generalize (tokensOf ps) as ts.
  induction ts as [|t ts IH]; intros Hagree; [reflexivity|].
  cbn [List.filter]. rewrite (Hagree t) by (left; reflexivity).
  rewrite IH by (intros t' Ht'; apply Hagree; right; exact Ht'). reflexivity.
Qed.

Lemma missingTokens_nil (params : gmap string string) (ps : list piece) :
  (forall t, In t (tokensOf ps) -> is_Some (params !! t)) ->
  missingTokens params ps = [].
Proof.
  intros Hall. destruct (missingTokens params ps) as [|t ts] eqn:Hm; [reflexivity|].
  assert (In t (missingTokens params ps)) as Ht by (rewrite Hm; left; reflexivity).
  apply In_missingTokens in Ht as [Hin Hnone].
  destruct (Hall t Hin) as [v Hv]. congruence.
Qed.

(** X15. A template made of literal text and [${token}] forms resolves,
    when the map defines all its tokens, to the text in which each form is
    replaced by the token's value, literal text being kept as it is; and
    whether and to what a template resolves depends on the map only
    through the tokens the template uses. *)
Theorem resolveTemplate_substitutes (params : gmap string string) (ps : list piece) :
  forallb wellFormed ps = true ->
  ((forall t, In t (tokensOf ps) -> is_Some (params !! t)) ->
   resolveTemplate (templateOf ps) params = (substitute params ps, None))
  /\ (forall params' : gmap string string,
        (forall t, In t (tokensOf ps) -> params' !! t = params !! t) ->
        resolveTemplate (templateOf ps) params'
        = resolveTemplate (templateOf ps) params).
Proof.
  intros Hwf. split.
  - intros Hall. rewrite (resolveTemplate_templateOf params ps Hwf).
    rewrite (missingTokens_nil params ps Hall). reflexivity.
  - intros params' Hagree.
    rewrite !(resolveTemplate_templateOf _ ps Hwf).
    rewrite (missingTokens_ext params params' ps Hagree).
    rewrite (substitute_ext params params' ps Hagree). reflexivity.
Qed.

Lemma resolveTemplate_substitutes_witness :
  resolveTemplate "${pvc.namespace}-creds.${pv.name}"
    {[ "pv.name" := "vol1"; "pvc.namespace" := "team-a" ]}
  = ("team-a-creds.vol1", None).
Proof.
  change (resolveTemplate
            (templateOf [Token "pvc.namespace"; Lit "-creds."; Token "pv.name"])
            {[ "pv.name" := "vol1"; "pvc.namespace" := "team-a" ]}
          = (substitute {[ "pv.name" := "vol1"; "pvc.namespace" := "team-a" ]}
               [Token "pvc.namespace"; Lit "-creds."; Token "pv.name"], None)).
  apply (proj1 (resolveTemplate_substitutes
                  {[ "pv.name" := "vol1"; "pvc.namespace" := "team-a" ]}
                  [Token "pvc.namespace"; Lit "-creds."; Token "pv.name"] eq_refl)).
  intros t [<- | [<- | []]]; vm_compute; eauto.
Defined.

(** ** More on strings *)

Lemma string_app_inv_head (s t t' : string) :
  (s ++ t)%string = (s ++ t')%string -> t = t'.
Proof.
  induction s as [|c s IH]; intros H; [exact H|].
  rewrite !app_String in H. injection H as H. exact (IH H).
Qed.

Lemma string_app_inv_tail (s s' t : string) :
  (s ++ t)%string = (s' ++ t)%string -> s = s'.
Proof.
  revert s'. induction s as [|c s IH]; intros [|c' s'] H.
  - reflexivity.
  - exfalso. apply (f_equal String.length) in H.
    rewrite app_empty_l, string_length_app in H. simpl in H. lia.
  - exfalso. apply (f_equal String.length) in H.
    rewrite app_empty_l, string_length_app in H. simpl in H. lia.
  - rewrite !app_String in H. injection H as -> H. f_equal. exact (IH _ H).
Qed.

(** ** [makeVolumeName]: when two claims get the same name *)

(** X16. With a non-empty prefix, untruncated volume names tell claims
    apart: two identifiers get the same result for the length -1 only if
    they are equal. With a length [n] that both dash-stripped identifiers
    reach, two non-empty identifiers get the same name exactly when their
    dash-stripped forms agree on the first [n] bytes. *)
Theorem makeVolumeName_same_name (prefix pvcUID pvcUID' : string) (n : Z) :
  prefix <> "" ->
  (makeVolumeName prefix pvcUID (-1) = makeVolumeName prefix pvcUID' (-1) ->
   pvcUID = pvcUID')
  /\ (pvcUID <> "" -> pvcUID' <> "" ->
      0 <= n <= len (strings.ReplaceAll pvcUID "-" "") ->
      n <= len (strings.ReplaceAll pvcUID' "-" "") ->
      (makeVolumeName prefix pvcUID n = makeVolumeName prefix pvcUID' n
       <-> String.substring 0 (Z.to_nat n) (strings.ReplaceAll pvcUID "-" "")
           = String.substring 0 (Z.to_nat n) (strings.ReplaceAll pvcUID' "-" ""))).
Proof.
  intros Hp. split.
  - unfold makeVolumeName. apply len_eqb_zero in Hp. rewrite Hp.
    destruct (len pvcUID =? 0) eqn:Hu; destruct (len pvcUID' =? 0) eqn:Hu'.
    + intros _. apply Z.eqb_eq in Hu, Hu'. apply len_zero in Hu, Hu'. congruence.
    + discriminate.
    + discriminate.
    + cbn [Z.eqb Pos.eqb]. intros [= H].
      apply string_app_inv_head in H. apply string_app_inv_head in H. exact H.
  - intros Hu Hu' Hn Hn'.
    rewrite !makeVolumeName_guarded by (assumption || lia).
    rewrite !slice0_in_range by lia. cbn [obind]. split.
    + intros [= H].
      apply string_app_inv_head in H. apply string_app_inv_head in H. exact H.
    + intros ->. reflexivity.
Qed.

Lemma makeVolumeName_same_name_witness :
  makeVolumeName "pvc" "0a1b-2c3d" 4 = makeVolumeName "pvc" "0a-1bffff" 4.
Proof.
  apply (proj2 (makeVolumeName_same_name "pvc" "0a1b-2c3d" "0a-1bffff" 4
                  ltac:(discriminate))).
  - discriminate.
  - discriminate.
  - vm_compute. split; discriminate.
  - vm_compute. discriminate.
  - reflexivity.
Defined.

(** ** [getSecretReference]: which tokens a template can use *)

Lemma getSecretReference_Some (nameKey namespaceKey : string)
    (storageClassParams : gmap string string) (pvName : string)
    (pvc : option PersistentVolumeClaim) (ref : SecretReference) (e : option error) :
  getSecretReference nameKey namespaceKey storageClassParams pvName pvc
  = (Some ref, e) ->
  exists nameTemplate namespaceTemplate,
    storageClassParams !! nameKey = Some nameTemplate
    /\ storageClassParams !! namespaceKey = Some namespaceTemplate
    /\ nameTemplate <> "" /\ namespaceTemplate <> ""
    /\ resolveTemplate namespaceTemplate (namespaceParams pvName pvc)
       = (ref_Namespace ref, None)
    /\ resolveTemplate nameTemplate (nameParams pvName pvc) = (ref_Name ref, None)
    /\ e = None.
Proof.
  intros H.
  assert (Hboth : exists nameTemplate namespaceTemplate,
            storageClassParams !! nameKey = Some nameTemplate
            /\ storageClassParams !! namespaceKey = Some namespaceTemplate
            /\ nameTemplate <> "" /\ namespaceTemplate <> "").
  { unfold getSecretReference in H.
    destruct (storageClassParams !! nameKey) as [nameT|] eqn:Hn;
      destruct (storageClassParams !! namespaceKey) as [nsT|] eqn:Hs;
      cbn [default from_option id] in H.
    - destruct (len nameT =? 0) eqn:Hln.
      { rewrite !bool_decide_eq_true_2 in H by eauto. cbn in H. discriminate H. }
      destruct (len nsT =? 0) eqn:Hls.
      { rewrite !bool_decide_eq_true_2 in H by eauto. cbn in H. discriminate H. }
      exists nameT, nsT. repeat split; try reflexivity; apply len_eqb_zero; assumption.
    - rewrite bool_decide_eq_true_2 in H by eauto.
      rewrite bool_decide_eq_false_2 in H by (intros [? ?]; discriminate).
      cbn [negb andb] in H. change (len "" =? 0) with true in H.
      rewrite orb_true_r in H. discriminate H.
    - rewrite bool_decide_eq_false_2 in H by (intros [? ?]; discriminate).
      rewrite bool_decide_eq_true_2 in H by eauto.
      cbn [negb andb] in H. change (len "" =? 0) with true in H.
      cbn [orb] in H. discriminate H.
    - rewrite !bool_decide_eq_false_2 in H by (intros [? ?]; discriminate).
      cbn in H. discriminate H. }
  destruct Hboth as (nameT & nsT & Hn & Hs & Hne & Hse).
  exists nameT, nsT.
  rewrite (getSecretReference_both _ _ _ _ _ nameT nsT Hn Hs Hne Hse) in H.
  destruct (resolveTemplate nsT (namespaceParams pvName pvc)) as [rns [e1|]];
    [discriminate H|].
  destruct (negb (bool_decide (validation.IsDNS1123Label rns = []))).
  { destruct (negb (nsT =? rns)%string); discriminate H. }
  destruct (resolveTemplate nameT (nameParams pvName pvc)) as [rn [e1|]];
    [discriminate H|].
  destruct (negb (bool_decide (validation.IsDNS1123Subdomain rn = []))).
  { destruct (negb (nameT =? rn)%string); discriminate H. }
  injection H as <- <-. cbn. repeat split; assumption.
Qed.

Lemma namespaceParams_same_namespace (pvName : string)
    (c c' : PersistentVolumeClaim) :
  pvc_Namespace c = pvc_Namespace c' ->
  namespaceParams pvName (Some c) = namespaceParams pvName (Some c').
Proof. intros H. unfold namespaceParams. rewrite H. reflexivity. Qed.

(** X17. The namespace of a secret reference is out of the claim user's
    hands: for two claims in the same namespace, whatever their names and
    annotations, the references that [getSecretReference] returns for the
    same parameters and volume name have the same namespace. *)
Theorem getSecretReference_namespace_not_by_claim (nameKey namespaceKey : string)
    (storageClassParams : gmap string string) (pvName : string)
    (c c' : PersistentVolumeClaim) (ref ref' : SecretReference)
    (e e' : option error) :
  pvc_Namespace c = pvc_Namespace c' ->
  getSecretReference nameKey namespaceKey storageClassParams pvName (Some c)
  = (Some ref, e) ->
  getSecretReference nameKey namespaceKey storageClassParams pvName (Some c')
  = (Some ref', e') ->
  ref_Namespace ref = ref_Namespace ref'.
Proof.
  intros Hns H H'.
  apply getSecretReference_Some in H as (nameT & nsT & Hn & Hs & _ & _ & Hr & _ & _).
  apply getSecretReference_Some in H'
    as (nameT' & nsT' & Hn' & Hs' & _ & _ & Hr' & _ & _).
  rewrite Hs in Hs'. injection Hs' as <-.
  rewrite (namespaceParams_same_namespace pvName c c' Hns) in Hr.
  rewrite Hr in Hr'. injection Hr' as ->. reflexivity.
Qed.

Lemma getSecretReference_namespace_not_by_claim_witness :
  ref_Namespace {| ref_Name := "s3"; ref_Namespace := "team-a" |}
  = ref_Namespace {| ref_Name := "other"; ref_Namespace := "team-a" |}.
Proof.
  apply (getSecretReference_namespace_not_by_claim
           nodePublishSecretNameKey nodePublishSecretNamespaceKey
           DemoSecrets.params "pv1" Demo.pvc DemoSecrets.otherClaim
           {| ref_Name := "s3"; ref_Namespace := "team-a" |}
           {| ref_Name := "other"; ref_Namespace := "team-a" |} None None).
  - reflexivity.
  - vm_compute. reflexivity.
  - vm_compute. reflexivity.
Defined.

(** ** The content source and the secrets of a request *)

Lemma getVolumeContentSource_sound_aux {D} (p : csiProvisioner D)
    (options : VolumeOptions) (source : VolumeContentSource) (e : option error) :
  getVolumeContentSource p options = Ret (Some source, e) ->
  e = None
  /\ exists dataSource snapshotObj content,
       pvc_DataSource (PVC options) = Some dataSource
       /\ snapshotClient_VolumeSnapshots_Get p (pvc_Namespace (PVC options))
            (ds_Name dataSource) = inl snapshotObj
       /\ snapshotClient_VolumeSnapshotContents_Get p
            (snap_SnapshotContentName snapshotObj) = inl content
       /\ usableSnapshot snapshotObj content (src_SnapshotId source)
       /\ forall restoreSize, snap_RestoreSize snapshotObj = Some restoreSize ->
            exists requested,
              pvc_Requests (PVC options) !! ResourceStorage = Some requested
              /\ restoreSize <= requested.
Proof.
  intros H.
  destruct (pvc_DataSource (PVC options)) as [dataSource|] eqn:Hds.
  2:{ unfold getVolumeContentSource in H. run_stmt. revert H. run_stmt.
      rewrite Hds. discriminate. }
  destruct (snapshotClient_VolumeSnapshots_Get p (pvc_Namespace (PVC options))
              (ds_Name dataSource)) as [snapshotObj|err] eqn:Hsnap.
  2:{ unfold getVolumeContentSource in H. revert H. run_stmt.
      rewrite Hds, Hsnap. discriminate. }
  destruct (snap_Ready snapshotObj) eqn:Hr.
  2:{ rewrite (getVolumeContentSource_not_ready p options dataSource snapshotObj
                 Hds Hsnap Hr) in H. discriminate H. }
  destruct (snap_DeletionTimestamp snapshotObj) as [ts|] eqn:Hd.
  { rewrite (getVolumeContentSource_being_deleted p options dataSource snapshotObj
               Hds Hsnap Hr) in H by congruence. discriminate H. }
  rewrite (getVolumeContentSource_live p options dataSource snapshotObj
             Hds Hsnap Hr Hd) in H.
  destruct (snapshotClient_VolumeSnapshotContents_Get p
              (snap_SnapshotContentName snapshotObj)) as [content|err] eqn:Hc;
    [|discriminate H].
  destruct (content_VolumeSnapshotRef content) as [ref|] eqn:Href; [|discriminate H].
  destruct (String.eqb (oref_UID ref) (snap_UID snapshotObj)) eqn:Hu;
    [|discriminate H].
  destruct (String.eqb (oref_Namespace ref) (snap_Namespace snapshotObj)) eqn:Hns;
    [|discriminate H].
  destruct (String.eqb (oref_Name ref) (snap_Name snapshotObj)) eqn:Hnm;
    [|discriminate H].
  cbn [negb orb] in H.
  apply String.eqb_eq in Hu, Hns, Hnm.
  destruct (content_CSI content) as [[handle]|] eqn:Hcsi; [|discriminate H].
  cbn [css_SnapshotHandle] in H.
  assert (Husable : usableSnapshot snapshotObj content handle).
  { split; [exact Hr|]. split; [exact Hd|]. split; [|exact Hcsi].
    exists ref. auto. }
  destruct (snap_RestoreSize snapshotObj) as [rs|] eqn:Hrs.
  - destruct (pvc_Requests (PVC options) !! ResourceStorage) as [v|] eqn:Hv;
      [|discriminate H].
    destruct (v <? rs) eqn:Hlt; [discriminate H|].
    injection H as <- <-. split; [reflexivity|].
    exists dataSource, snapshotObj, content.
    split; [reflexivity|]. split; [exact Hsnap|]. split; [exact Hc|].
    split; [exact Husable|].
    intros rs' Hrs'. assert (rs' = rs) as -> by congruence. exists v. split; [reflexivity|]. apply Z.ltb_ge. exact Hlt.
  - injection H as <- <-. split; [reflexivity|].
    exists dataSource, snapshotObj, content.
    split; [reflexivity|]. split; [exact Hsnap|]. split; [exact Hc|].
    split; [exact Husable|].
    intros rs' Hrs'. congruence.
Qed.

Lemma getVolumeContentSource_not_nil {D} (p : csiProvisioner D)
    (options : VolumeOptions) :
  getVolumeContentSource p options <> Ret (None, None).
Proof.
  intros H.
  destruct (pvc_DataSource (PVC options)) as [dataSource|] eqn:Hds.
  2:{ revert H. unfold getVolumeContentSource. run_stmt. rewrite Hds. discriminate. }
  destruct (snapshotClient_VolumeSnapshots_Get p (pvc_Namespace (PVC options))
              (ds_Name dataSource)) as [snapshotObj|err] eqn:Hsnap.
  2:{ revert H. unfold getVolumeContentSource. run_stmt.
      rewrite Hds, Hsnap. discriminate. }
  destruct (snap_Ready snapshotObj) eqn:Hr.
  2:{ rewrite (getVolumeContentSource_not_ready p options dataSource snapshotObj
                 Hds Hsnap Hr) in H. discriminate H. }
  destruct (snap_DeletionTimestamp snapshotObj) as [ts|] eqn:Hd.
  { rewrite (getVolumeContentSource_being_deleted p options dataSource snapshotObj
               Hds Hsnap Hr) in H by congruence. discriminate H. }
  rewrite (getVolumeContentSource_live p options dataSource snapshotObj
             Hds Hsnap Hr Hd) in H.
  repeat match type of H with
         | context [match ?x with _ => _ end] => destruct x
         end; discriminate H.
Qed.

Lemma prepare_Next_source {D W} (p : csiProvisioner D) (options : VolumeOptions)
    (w w' : W) (prep : prepared) :
  prepare p options w = (Next prep, w') ->
  match pvc_DataSource (PVC options) with
  | None => req_VolumeContentSource (req prep) = None
  | Some dataSource =>
      ds_Name dataSource <> ""
      /\ ds_Kind dataSource = snapshotKind
      /\ ds_APIGroup dataSource = Some snapshotAPIGroup
      /\ getVolumeContentSource p options
         = Ret (req_VolumeContentSource (req prep), None)
  end
  /\ exists ref,
       getSecretReference provisionerSecretNameKey provisionerSecretNamespaceKey
         (Parameters options) (pvName prep) None = (ref, None)
       /\ getCredentials p ref = (req_ControllerCreateSecrets (req prep), None).
Proof.
  unfold prepare. intros H.
  apply seq_Next_inv in H as (u & w1 & _ & H).
  apply seq_Next_inv in H as (need & w2 & Hneed & H).
  apply seq_Next_inv in H as (named & w3 & _ & H).
  lazy zeta in H.
  apply seq_Next_inv in H as (u' & w4 & _ & H).
  apply seq_Next_inv in H as (contentSource & w5 & Hsrc & H).
  lazy zeta in H.
  apply seq_Next_inv in H as (u1 & w6 & Hrefe & H).
  apply returnIf_Next_inv in Hrefe as [Hrefe _].
  apply seq_Next_inv in H as (u2 & w7 & Hcrede & H).
  apply returnIf_Next_inv in Hcrede as [Hcrede _].
  repeat match type of H with
         | seq _ _ _ = (Next _, _) =>
             apply seq_Next_inv in H as (? & ? & _ & H)
         | (let x := _ in _) _ = _ => lazy zeta in H
         end.
  unfold next in H. injection H as <- _. cbn [req req_VolumeContentSource
    req_ControllerCreateSecrets pvName].
  split.
  - destruct (pvc_DataSource (PVC options)) as [dataSource|] eqn:Hds.
    + apply seq_Next_inv in Hneed as (? & ? & Hname & Hneed).
      apply returnIf_Next_inv in Hname as [Hname _].
      apply seq_Next_inv in Hneed as (? & ? & Hkind & Hneed).
      apply returnIf_Next_inv in Hkind as [Hkind _].
      apply seq_Next_inv in Hneed as (apiGroup & ? & Hgroup & Hneed).
      apply lift_Next_inv in Hgroup as [Hgroup _].
      apply seq_Next_inv in Hneed as (? & ? & Hgroup' & Hneed).
      apply returnIf_Next_inv in Hgroup' as [Hgroup' _].
      unfold next in Hneed. injection Hneed as <- _.
      apply seq_Next_inv in Hsrc as (got & ? & Hgot & Hsrc).
      apply lift_Next_inv in Hgot as [Hgot _].
      split; [apply String.eqb_neq; exact Hname|].
      split; [apply String.eqb_eq; apply negb_false_iff; exact Hkind|].
      split.
      { destruct (ds_APIGroup dataSource) as [g|]; [|discriminate Hgroup].
        cbn in Hgroup. injection Hgroup as ->.
        apply negb_false_iff, String.eqb_eq in Hgroup'. congruence. }
      rewrite Hgot. destruct got as [src [e|]]; cbn [snd fst] in Hsrc.
      * apply seq_Next_inv in Hsrc as (? & ? & _ & Hsrc). discriminate Hsrc.
      * unfold next in Hsrc. injection Hsrc as <- _. reflexivity.
    + unfold next in Hneed. injection Hneed as <- _.
      unfold next in Hsrc. injection Hsrc as <- _. reflexivity.
  - eexists. split.
    + apply injective_projections; [reflexivity|]. cbn [snd].
      destruct (snd (getSecretReference _ _ _ _ _)); [|reflexivity].
      rewrite bool_decide_eq_true_2 in Hrefe by eauto. discriminate Hrefe.
    + apply injective_projections; [reflexivity|]. cbn [snd].
      destruct (snd (getCredentials _ _)); [|reflexivity].
      rewrite bool_decide_eq_true_2 in Hcrede by eauto. discriminate Hcrede.
Qed.

Lemma getSecretReference_nil (nameKey namespaceKey : string)
    (storageClassParams : gmap string string) (pvName : string)
    (pvc : option PersistentVolumeClaim) :
  getSecretReference nameKey namespaceKey storageClassParams pvName pvc = (None, None) ->
  storageClassParams !! nameKey = None /\ storageClassParams !! namespaceKey = None.
Proof.
  intros H.
  destruct (storageClassParams !! nameKey) as [nameT|] eqn:Hn;
    destruct (storageClassParams !! namespaceKey) as [nsT|] eqn:Hs;
    [exfalso | exfalso | exfalso | split; reflexivity].
  - destruct (String.eqb nameT "") eqn:Hne.
    { apply String.eqb_eq in Hne. subst nameT.
      unfold getSecretReference in H. rewrite Hn, Hs in H.
      rewrite !bool_decide_eq_true_2 in H by eauto. cbn in H. discriminate H. }
    destruct (String.eqb nsT "") eqn:Hse.
    { apply String.eqb_eq in Hse. subst nsT.
      unfold getSecretReference in H. rewrite Hn, Hs in H.
      rewrite !bool_decide_eq_true_2 in H by eauto.
      cbn [negb andb default from_option id] in H.
      change (len "" =? 0) with true in H. rewrite orb_true_r in H. discriminate H. }
    apply String.eqb_neq in Hne, Hse.
    rewrite (getSecretReference_both _ _ _ _ _ nameT nsT Hn Hs Hne Hse) in H.
    repeat match type of H with
           | context [match ?x with _ => _ end] => destruct x
           end; discriminate H.
  - unfold getSecretReference in H. rewrite Hn, Hs in H.
    rewrite bool_decide_eq_true_2 in H by eauto.
    rewrite bool_decide_eq_false_2 in H by (intros [? ?]; discriminate).
    cbn [negb andb default from_option id] in H. change (len "" =? 0) with true in H.
    rewrite orb_true_r in H. discriminate H.
  - unfold getSecretReference in H. rewrite Hn, Hs in H.
    rewrite bool_decide_eq_false_2 in H by (intros [? ?]; discriminate).
    rewrite bool_decide_eq_true_2 in H by eauto.
    cbn [negb andb default from_option id] in H. change (len "" =? 0) with true in H.
    cbn [orb] in H. discriminate H.
Qed.

(** X18. [getVolumeContentSource] returns a content source exactly when the
    claim's data source names a snapshot that is read from the claim's
    namespace, is ready and not being deleted, whose content object is
    read, is bound back to this very snapshot (UID, namespace and name) and
    has a driver snapshot handle, and whose restore size, if it has one,
    does not exceed the claim's storage request; the source then carries
    that handle, and no error comes with it. *)
Theorem getVolumeContentSource_success {D} (p : csiProvisioner D)
    (options : VolumeOptions) (source : VolumeContentSource) (e : option error) :
  getVolumeContentSource p options = Ret (Some source, e)
  <-> e = None
      /\ exists dataSource snapshotObj content,
           pvc_DataSource (PVC options) = Some dataSource
           /\ snapshotClient_VolumeSnapshots_Get p (pvc_Namespace (PVC options))
                (ds_Name dataSource) = inl snapshotObj
           /\ snapshotClient_VolumeSnapshotContents_Get p
                (snap_SnapshotContentName snapshotObj) = inl content
           /\ usableSnapshot snapshotObj content (src_SnapshotId source)
           /\ forall restoreSize, snap_RestoreSize snapshotObj = Some restoreSize ->
                exists requested,
                  pvc_Requests (PVC options) !! ResourceStorage = Some requested
                  /\ restoreSize <= requested.
Proof.
  split; [apply getVolumeContentSource_sound_aux|].
  intros (-> & dataSource & snapshotObj & content & Hds & Hsnap & Hc & Hu & Hsize).
  rewrite (getVolumeContentSource_usable p options dataSource snapshotObj Hds Hsnap
             content (src_SnapshotId source) Hc Hu).
  destruct source as [handle]. cbn [src_SnapshotId].
  destruct (snap_RestoreSize snapshotObj) as [rs|]; [|reflexivity].
  destruct (Hsize rs eq_refl) as (v & -> & Hle).
  apply Z.ltb_ge in Hle. rewrite Hle. reflexivity.
Qed.

Lemma getVolumeContentSource_success_witness :
  usableSnapshot (DemoSnapshot.snapshot true (Some 1073741824)) DemoSnapshot.content
    "handle-1".
Proof.
  destruct (proj1 (getVolumeContentSource_success
                     (DemoSnapshot.provisioner (DemoSnapshot.snapshot true (Some 1073741824)))
                     DemoSnapshot.options {| src_SnapshotId := "handle-1" |} None)
                  eq_refl)
    as (_ & dataSource & snapshotObj & content & _ & Hsnap & Hc & Hu & _).
  injection Hsnap as <-. injection Hc as <-. exact Hu.
Defined.

(** X19. Every [CreateVolume] call of a run of [Provision] restores from a
    snapshot exactly when the claim has a data source: without data source
    the request has no content source; with one, the data source is a
    named [VolumeSnapshot] of the snapshot API group, and the request's
    content source carries the driver handle of a snapshot that
    [getVolumeContentSource] accepted: read from the claim's namespace,
    ready, not being deleted, bound to its content object, and not larger
    than the claim's request. *)
Theorem Provision_content_source {D} (DriverName : string) (p : csiProvisioner D)
    (options : VolumeOptions) (d0 : D) (r : outcome result) (w : world D)
    (q : CreateVolumeRequest) (res : CreateVolumeResponse + error) :
  Provision DriverName p options d0 = (r, w) ->
  In (CreateVolumeCall q res) (calls w) ->
  match pvc_DataSource (PVC options) with
  | None => req_VolumeContentSource q = None
  | Some dataSource =>
      ds_Name dataSource <> ""
      /\ ds_Kind dataSource = snapshotKind
      /\ ds_APIGroup dataSource = Some snapshotAPIGroup
      /\ exists source snapshotObj content,
           req_VolumeContentSource q = Some source
           /\ snapshotClient_VolumeSnapshots_Get p (pvc_Namespace (PVC options))
                (ds_Name dataSource) = inl snapshotObj
           /\ snapshotClient_VolumeSnapshotContents_Get p
                (snap_SnapshotContentName snapshotObj) = inl content
           /\ usableSnapshot snapshotObj content (src_SnapshotId source)
           /\ forall restoreSize, snap_RestoreSize snapshotObj = Some restoreSize ->
                restoreSize <= req_RequiredBytes q
  end.
Proof.
  intros Hrun Hin.
  apply Provision_shapes in Hrun as [[Hnil _] | (prep & Hprep & Hrun)].
  { rewrite Hnil in Hin. destruct Hin. }
  pose proof (eq_trans (surjective_pairing _) (f_equal2 pair Hprep eq_refl)) as Hp.
  destruct (prepare_Next_source p options _ _ prep Hp) as [Hsrc _].
  destruct (prepare_Next_request p options _ _ prep Hp)
    as (_ & _ & _ & _ & _ & Hbytes).
  rewrite (provisionRun_create_request prep r (calls w) q res Hrun Hin).
  destruct (pvc_DataSource (PVC options)) as [dataSource|] eqn:Hds; [|exact Hsrc].
  destruct Hsrc as (Hname & Hkind & Hgroup & Hgot).
  split; [exact Hname|]. split; [exact Hkind|]. split; [exact Hgroup|].
  destruct (req_VolumeContentSource (req prep)) as [source|] eqn:Hq.
  - apply getVolumeContentSource_sound_aux in Hgot
      as (_ & dataSource' & snapshotObj & content & Hds' & Hsnap & Hc & Hu & Hsize).
    rewrite Hds in Hds'. injection Hds' as <-.
    exists source, snapshotObj, content.
    split; [reflexivity|]. split; [exact Hsnap|]. split; [exact Hc|].
    split; [exact Hu|].
    intros rs Hrs. destruct (Hsize rs Hrs) as (v & Hv & Hle).
    rewrite Hbytes, Hv. exact Hle.
  - exfalso. exact (getVolumeContentSource_not_nil p options Hgot).
Qed.

Lemma Provision_content_source_witness :
  exists source,
    req_VolumeContentSource
      {| req_Name := "pvc-0a1b-2c3d"; req_Parameters := ∅;
         req_VolumeCapabilities := [{| cap_Mode := SINGLE_NODE_WRITER |}];
         req_RequiredBytes := 1073741824;
         req_VolumeContentSource := Some {| src_SnapshotId := "handle-1" |};
         req_ControllerCreateSecrets := ∅ |} = Some source
    /\ src_SnapshotId source = "handle-1".
Proof.
  pose proof (Provision_content_source "csi-lvm"
                (DemoSnapshot.provisioner (DemoSnapshot.snapshot true (Some 1073741824)))
                DemoSnapshot.options 0%nat _ _
                {| req_Name := "pvc-0a1b-2c3d"; req_Parameters := ∅;
                   req_VolumeCapabilities := [{| cap_Mode := SINGLE_NODE_WRITER |}];
                   req_RequiredBytes := 1073741824;
                   req_VolumeContentSource := Some {| src_SnapshotId := "handle-1" |};
                   req_ControllerCreateSecrets := ∅ |}
                (inr (errorString "unreachable"))
                (surjective_pairing _)) as H.
  destruct H as (_ & _ & _ & source & snapshotObj & content & Hq & _ & Hc & Hu & _).
  - vm_compute. left. reflexivity.
  - exists source. split; [exact Hq|].
    injection Hc as <-. destruct Hu as (_ & _ & _ & Hcsi).
    injection Hcsi as Hh. symmetry. exact Hh.
Defined.

(** X20. The secrets that [Provision] hands to the driver with
    [CreateVolume] are those of the provisioner secret that the options'
    parameters name, resolved without the claim (only from the volume's
    name): when the parameters have neither provisioner secret key, every
    call carries no secrets; otherwise the reference resolved, the secret
    was read, and every call carries exactly the secret's data. *)
Theorem Provision_create_secrets {D} (DriverName : string) (p : csiProvisioner D)
    (options : VolumeOptions) (d0 : D) (r : outcome result) (w : world D)
    (q : CreateVolumeRequest) (res : CreateVolumeResponse + error) :
  Provision DriverName p options d0 = (r, w) ->
  In (CreateVolumeCall q res) (calls w) ->
  (Parameters options !! provisionerSecretNameKey = None
   /\ Parameters options !! provisionerSecretNamespaceKey = None
   /\ req_ControllerCreateSecrets q = ∅)
  \/ (exists ref secret,
        getSecretReference provisionerSecretNameKey provisionerSecretNamespaceKey
          (Parameters options) (req_Name q) None = (Some ref, None)
        /\ client_Secrets_Get p (ref_Namespace ref) (ref_Name ref) = inl secret
        /\ req_ControllerCreateSecrets q = secret_Data secret).
Proof.
  intros Hrun Hin.
  apply Provision_shapes in Hrun as [[Hnil _] | (prep & Hprep & Hrun)].
  { rewrite Hnil in Hin. destruct Hin. }
  pose proof (eq_trans (surjective_pairing _) (f_equal2 pair Hprep eq_refl)) as Hp.
  destruct (prepare_Next_source p options _ _ prep Hp) as [_ (ref & Href & Hcred)].
  destruct (prepare_Next_request p options _ _ prep Hp) as (_ & _ & Hname & _).
  rewrite (provisionRun_create_request prep r (calls w) q res Hrun Hin).
  rewrite Hname.
  destruct ref as [ref|].
  - right. unfold getCredentials in Hcred.
    destruct (client_Secrets_Get p (ref_Namespace ref) (ref_Name ref))
      as [secret|err] eqn:Hs; [|discriminate Hcred].
    rewrite map_fold_insert_all in Hcred. injection Hcred as Hcred.
    exists ref, secret. split; [exact Href|]. split; [exact Hs|].
    symmetry. exact Hcred.
  - left. apply getSecretReference_nil in Href as [Hn Hs].
    cbn in Hcred. injection Hcred as Hcred. auto.
Qed.

Lemma Provision_create_secrets_witness :
  req_ControllerCreateSecrets DemoDriver.request = ∅.
Proof.
  destruct (Provision_create_secrets "csi-lvm" DemoDriver.stalled Demo.options
              0%nat _ _ DemoDriver.request (inr DemoDriver.deadlineExceeded)
              (surjective_pairing _)) as [(_ & _ & H) | (ref & secret & Href & _)].
  - vm_compute. left. reflexivity.
  - exact H.
  - exfalso. vm_compute in Href. discriminate Href.
Defined.

(** ** The tokens of the secret templates *)

Lemma annotation_token_inj (k k' : string) :
  ("pvc.annotations['" ++ k ++ "']")%string = ("pvc.annotations['" ++ k' ++ "']")%string ->
  k = k'.
Proof.
  intros H. apply string_app_inv_head in H. apply string_app_inv_tail in H. exact H.
Qed.

Lemma claim_tokens_lookup (pvName : string) (c : PersistentVolumeClaim)
    (t v : string) :
  (<[ "pvc.namespace" := pvc_Namespace c ]>
     (<[ "pvc.name" := pvc_Name c ]> ({[ "pv.name" := pvName ]} : gmap string string)))
    !! t = Some v
  <-> (t = "pv.name" /\ v = pvName)
      \/ (t = "pvc.name" /\ v = pvc_Name c)
      \/ (t = "pvc.namespace" /\ v = pvc_Namespace c).
Proof.
  rewrite !lookup_insert_Some, lookup_singleton_Some. split.
  - intros [[<- <-] | [_ [[<- <-] | [_ [<- <-]]]]]; auto.
  - intros [[-> ->] | [[-> ->] | [-> ->]]].
    + right. split; [discriminate|]. right. split; [discriminate|]. auto.
    + right. split; [discriminate|]. left. auto.
    + left. auto.
Qed.

Lemma claim_tokens_not_annotation (pvName : string) (c : PersistentVolumeClaim)
    (k : string) :
  (<[ "pvc.namespace" := pvc_Namespace c ]>
     (<[ "pvc.name" := pvc_Name c ]> ({[ "pv.name" := pvName ]} : gmap string string)))
    !! ("pvc.annotations['" ++ k ++ "']")%string = None.
Proof.
  destruct (_ !! _) as [v|] eqn:H; [exfalso|reflexivity].
  apply claim_tokens_lookup in H as [[H _] | [[H _] | [H _]]];
    rewrite !app_String in H; discriminate H.
Qed.

Lemma nameParams_lookup (pvName : string) (c : PersistentVolumeClaim) (t v : string) :
  nameParams pvName (Some c) !! t = Some v
  <-> (t = "pv.name" /\ v = pvName)
      \/ (t = "pvc.name" /\ v = pvc_Name c)
      \/ (t = "pvc.namespace" /\ v = pvc_Namespace c)
      \/ (exists k, t = ("pvc.annotations['" ++ k ++ "']")%string
                    /\ pvc_Annotations c !! k = Some v).
Proof.
  unfold nameParams.
  set (base := <[ "pvc.namespace" := pvc_Namespace c ]> _).
  assert (Hfold : forall t v,
             map_fold (fun k v (acc : gmap string string) =>
                         <[ ("pvc.annotations['" ++ k ++ "']")%string := v ]> acc)
               base (pvc_Annotations c) !! t = Some v
             <-> base !! t = Some v
                 \/ exists k, t = ("pvc.annotations['" ++ k ++ "']")%string
                              /\ pvc_Annotations c !! k = Some v).
  { apply (map_fold_weak_ind
             (fun (r : gmap string string) (m : gmap string string) =>
                forall t v,
                  r !! t = Some v
                  <-> base !! t = Some v
                      \/ exists k, t = ("pvc.annotations['" ++ k ++ "']")%string
                                   /\ m !! k = Some v)).
    - intros t0 v0. split; [auto|]. intros [H | (k & _ & H)]; [exact H|].
      rewrite lookup_empty in H. discriminate H.
    - intros i x m r Hi IH t0 v0. rewrite lookup_insert_Some. split.
      + intros [[<- <-] | [Hne H]].
        * right. exists i. split; [reflexivity|]. apply lookup_insert_eq.
        * apply IH in H as [H | (k & -> & H)]; [left; exact H|].
          right. exists k. split; [reflexivity|].
          rewrite lookup_insert_ne by congruence. exact H.
      + intros [H | (k & -> & H)].
        * right. split.
          { intros <-. unfold base in H.
            rewrite claim_tokens_not_annotation in H. discriminate H. }
          apply IH. left. exact H.
        * apply lookup_insert_Some in H as [[<- <-] | [Hne H]]; [left; auto|].
          right. split.
          { intros Heq. apply annotation_token_inj in Heq. congruence. }
          apply IH. right. exists k. auto. }
  rewrite Hfold. unfold base. rewrite claim_tokens_lookup. tauto.
Qed.

Lemma resolveTemplate_pieces_resolved (params : gmap string string) (ps : list piece)
    (resolved : string) :
  forallb wellFormed ps = true ->
  resolveTemplate (templateOf ps) params = (resolved, None) ->
  resolved = substitute params ps
  /\ forall t, In t (tokensOf ps) -> exists v, params !! t = Some v.
Proof.
  intros Hwf H. rewrite (resolveTemplate_templateOf params ps Hwf) in H.
  destruct (bool_decide (missingTokens params ps = [])) eqn:Hm; [|discriminate H].
  apply bool_decide_eq_true in Hm. injection H as <-. split; [reflexivity|].
  intros t Ht. destruct (params !! t) as [v|] eqn:Hv; [eauto|].
  assert (In t (missingTokens params ps)) as Hin
    by (apply In_missingTokens; split; assumption).
  rewrite Hm in Hin. destruct Hin.
Qed.

(** X21. Which tokens a secret reference can be made of. When both
    parameters are templates of literal text and [${token}] forms and
    [getSecretReference] returns a reference, its namespace and its name
    are the templates with each token replaced by its value, where: the
    namespace template uses only [pv.name] (the volume's name) and, with a
    claim, [pvc.namespace]; the name template uses only [pv.name] and,
    with a claim, [pvc.name], [pvc.namespace] and
    [pvc.annotations['<key>']] for an annotation key of the claim, which
    stands for that annotation's value. Without a claim, as for the
    provisioner secret, [pv.name] is the only token of either template. *)
Theorem getSecretReference_tokens (nameKey namespaceKey : string)
    (storageClassParams : gmap string string) (pvName : string)
    (pvc : option PersistentVolumeClaim) (namePs namespacePs : list piece)
    (ref : SecretReference) (e : option error) :
  forallb wellFormed namePs = true ->
  forallb wellFormed namespacePs = true ->
  storageClassParams !! nameKey = Some (templateOf namePs) ->
  storageClassParams !! namespaceKey = Some (templateOf namespacePs) ->
  getSecretReference nameKey namespaceKey storageClassParams pvName pvc
  = (Some ref, e) ->
  ref_Namespace ref = substitute (namespaceParams pvName pvc) namespacePs
  /\ ref_Name ref = substitute (nameParams pvName pvc) namePs
  /\ (forall t, In t (tokensOf namespacePs) ->
        exists v, namespaceParams pvName pvc !! t = Some v
          /\ ((t = "pv.name" /\ v = pvName)
              \/ exists c, pvc = Some c /\ t = "pvc.namespace" /\ v = pvc_Namespace c))
  /\ (forall t, In t (tokensOf namePs) ->
        exists v, nameParams pvName pvc !! t = Some v
          /\ ((t = "pv.name" /\ v = pvName)
              \/ exists c, pvc = Some c
                   /\ ((t = "pvc.name" /\ v = pvc_Name c)
                       \/ (t = "pvc.namespace" /\ v = pvc_Namespace c)
                       \/ exists k, t = ("pvc.annotations['" ++ k ++ "']")%string
                                    /\ pvc_Annotations c !! k = Some v))).
Proof.
  intros Hwfn Hwfs Hn Hs H.
  apply getSecretReference_Some in H
    as (nameT & nsT & Hn' & Hs' & _ & _ & Hrs & Hrn & _).
  rewrite Hn in Hn'. injection Hn' as <-. rewrite Hs in Hs'. injection Hs' as <-.
  apply (resolveTemplate_pieces_resolved _ _ _ Hwfs) in Hrs as [Hns Hstok].
  apply (resolveTemplate_pieces_resolved _ _ _ Hwfn) in Hrn as [Hname Hntok].
  split; [exact Hns|]. split; [exact Hname|]. split.
  - intros t Ht. destruct (Hstok t Ht) as [v Hv]. exists v. split; [exact Hv|].
    unfold namespaceParams in Hv. destruct pvc as [c|].
    + apply lookup_insert_Some in Hv as [[<- <-] | [_ Hv]].
      * right. exists c. auto.
      * apply lookup_singleton_Some in Hv as [<- <-]. left. auto.
    + apply lookup_singleton_Some in Hv as [<- <-]. left. auto.
  - intros t Ht. destruct (Hntok t Ht) as [v Hv]. exists v. split; [exact Hv|].
    destruct pvc as [c|].
    + apply nameParams_lookup in Hv as [Hv | Hv]; [left; exact Hv|].
      right. exists c. split; [reflexivity|]. exact Hv.
    + unfold nameParams in Hv. apply lookup_singleton_Some in Hv as [<- <-].
      left. auto.
Qed.

Lemma getSecretReference_tokens_witness :
  ref_Name {| ref_Name := "s3"; ref_Namespace := "team-a" |}
  = substitute (nameParams "pv1" (Some Demo.pvc))
      [Token "pvc.annotations['example.com/secret']"].
Proof.
  apply (getSecretReference_tokens
           nodePublishSecretNameKey nodePublishSecretNamespaceKey
           DemoSecrets.params "pv1" (Some Demo.pvc)
           [Token "pvc.annotations['example.com/secret']"] [Token "pvc.namespace"]
           {| ref_Name := "s3"; ref_Namespace := "team-a" |} None).
  - reflexivity.
  - reflexivity.
  - vm_compute. reflexivity.
  - vm_compute. reflexivity.
  - vm_compute. reflexivity.
Defined.

(** ** The secret references of a provisioned volume *)

Lemma prepare_Next_refs {D W} (p : csiProvisioner D) (options : VolumeOptions)
    (w w' : W) (prep : prepared) :
  prepare p options w = (Next prep, w') ->
  getSecretReference controllerPublishSecretNameKey controllerPublishSecretNamespaceKey
    (Parameters options) (pvName prep) (Some (PVC options))
  = (controllerPublishSecretRef prep, None)
  /\ getSecretReference nodeStageSecretNameKey nodeStageSecretNamespaceKey
       (Parameters options) (pvName prep) (Some (PVC options))
     = (nodeStageSecretRef prep, None)
  /\ getSecretReference nodePublishSecretNameKey nodePublishSecretNamespaceKey
       (Parameters options) (pvName prep) (Some (PVC options))
     = (nodePublishSecretRef prep, None).
Proof.
  unfold prepare. intros H.
  apply seq_Next_inv in H as (u & w1 & _ & H).
  apply seq_Next_inv in H as (need & w2 & _ & H).
  apply seq_Next_inv in H as (named & w3 & _ & H).
  lazy zeta in H.
  apply seq_Next_inv in H as (u' & w4 & _ & H).
  apply seq_Next_inv in H as (contentSource & w5 & _ & H).
  lazy zeta in H.
  apply seq_Next_inv in H as (u1 & w6 & _ & H).
  apply seq_Next_inv in H as (u2 & w7 & _ & H).
  apply seq_Next_inv in H as (u3 & w8 & Hc & H).
  apply returnIf_Next_inv in Hc as [Hc _].
  apply seq_Next_inv in H as (u4 & w9 & Hs & H).
  apply returnIf_Next_inv in Hs as [Hs _].
  apply seq_Next_inv in H as (u5 & w10 & Hn & H).
  apply returnIf_Next_inv in Hn as [Hn _].
  unfold next in H. injection H as <- _.
  cbn [pvName controllerPublishSecretRef nodeStageSecretRef nodePublishSecretRef].
  repeat split; (apply injective_projections; [reflexivity|]; cbn [snd]).
  - destruct (snd (getSecretReference controllerPublishSecretNameKey _ _ _ _));
      [|reflexivity].
    rewrite bool_decide_eq_true_2 in Hc by eauto. discriminate Hc.
  - destruct (snd (getSecretReference nodeStageSecretNameKey _ _ _ _)); [|reflexivity].
    rewrite bool_decide_eq_true_2 in Hs by eauto. discriminate Hs.
  - destruct (snd (getSecretReference nodePublishSecretNameKey _ _ _ _)); [|reflexivity].
    rewrite bool_decide_eq_true_2 in Hn by eauto. discriminate Hn.
Qed.

(** X22. The three secret references of a volume that [Provision] returns
    (controller publish, node stage, node publish) are what
    [getSecretReference] resolves, without error, from the options'
    parameters under the respective pair of keys, for the volume's own name
    and the claim. *)
Theorem Provision_volume_secret_refs {D} (DriverName : string) (p : csiProvisioner D)
    (options : VolumeOptions) (d0 : D) (pv : PersistentVolume)
    (err : option error) (w : world D) :
  Provision DriverName p options d0 = (Ret (Some pv, err), w) ->
  exists source,
    pv_CSI pv = Some source
    /\ getSecretReference controllerPublishSecretNameKey
         controllerPublishSecretNamespaceKey
         (Parameters options) (pv_Name pv) (Some (PVC options))
       = (csi_ControllerPublishSecretRef source, None)
    /\ getSecretReference nodeStageSecretNameKey nodeStageSecretNamespaceKey
         (Parameters options) (pv_Name pv) (Some (PVC options))
       = (csi_NodeStageSecretRef source, None)
    /\ getSecretReference nodePublishSecretNameKey nodePublishSecretNamespaceKey
         (Parameters options) (pv_Name pv) (Some (PVC options))
       = (csi_NodePublishSecretRef source, None).
Proof.
  intros Hrun.
  apply Provision_success in Hrun
    as (prep & pre & rep & volume & Hprep & _ & _ & _ & _ & _ & -> & _).
  pose proof (prepare_Next_refs p options _ _ prep
                (eq_trans (surjective_pairing _) (f_equal2 pair Hprep eq_refl)))
    as (Hc & Hs & Hn).
  eexists. split; [reflexivity|]. cbn. auto.
Qed.

Lemma Provision_volume_secret_refs_witness :
  exists pv source,
    fst (Provision "csi-lvm" DemoPublish.driver DemoPublish.options 0%nat)
    = Ret (Some pv, None)
    /\ pv_CSI pv = Some source
    /\ getSecretReference nodePublishSecretNameKey nodePublishSecretNamespaceKey
         DemoSecrets.params "pvc-0a1b-2c3d" (Some Demo.pvc)
       = (csi_NodePublishSecretRef source, None)
    /\ csi_NodePublishSecretRef source
       = Some {| ref_Name := "s3"; ref_Namespace := "team-a" |}.
Proof.
  destruct (Provision "csi-lvm" DemoPublish.driver DemoPublish.options 0%nat)
    as [r w] eqn:Hrun.
  assert (Hr : r = Ret (Some (provisionedVolume "csi-lvm" DemoPublish.driver
                                DemoPublish.options
                                {| pvName := "pvc-0a1b-2c3d";
                                   volSizeBytes := 1073741824;
                                   req :=
                                     {| req_Name := "pvc-0a1b-2c3d";
                                        req_Parameters := DemoSecrets.params;
                                        req_VolumeCapabilities :=
                                          [{| cap_Mode := SINGLE_NODE_WRITER |}];
                                        req_RequiredBytes := 1073741824;
                                        req_VolumeContentSource := None;
                                        req_ControllerCreateSecrets := ∅ |};
                                   provisionerCredentials := ∅;
                                   controllerPublishSecretRef := None;
                                   nodeStageSecretRef := None;
                                   nodePublishSecretRef :=
                                     Some {| ref_Name := "s3";
                                             ref_Namespace := "team-a" |} |}
                                DemoPublish.volume1Gi), None)).
  { apply (f_equal fst) in Hrun. cbn [fst] in Hrun. rewrite <- Hrun.
    vm_compute. reflexivity. }
  subst r.
  destruct (Provision_volume_secret_refs "csi-lvm" DemoPublish.driver
              DemoPublish.options 0%nat _ None w Hrun)
    as (source & Hsrc & _ & _ & Hn).
  eexists _, source. split; [reflexivity|]. split; [exact Hsrc|].
  split; [exact Hn|].
  injection Hsrc as <-. reflexivity.
Defined.

(** * [waitForDriverReady] *)

Section WaitFacts.
Import AttacherMain.
Context {W : Type}.
Variable time_Now : W -> Z * W.
Variable csiConn_Probe : Z -> W -> option error * W.
Variable time_Sleep : Z -> W -> W.

Lemma probeLoop_S (fuel : nat) (timeout finish : Z) (w : world W) :
  probeLoop time_Now csiConn_Probe time_Sleep (S fuel) timeout finish w
  = let probed := csiConn_Probe timeout (env w) in
    let w1 := {| env := snd probed;
                 log := log w ++ [ProbeCall timeout (fst probed)] |} in
    match fst probed with
    | None => (Some None, w1)
    | Some err =>
        let read := time_Now (env w1) in
        let now := fst read in
        let w2 := {| env := snd read; log := log w1 ++ [NowCall now] |} in
        if finish <? now then
          (Some (Some (Errorf "Failed to probe the attacher: %s" [VError err])), w2)
        else
          probeLoop time_Now csiConn_Probe time_Sleep fuel timeout finish
            {| env := time_Sleep Second (env w2);
               log := log w2 ++ [SleepCall Second] |}
    end.
Proof. reflexivity. Qed.

Lemma probeLoop_run (timeout finish : Z) (fuel : nat) :
  forall (w w' : world W) (r : option error),
    probeLoop time_Now csiConn_Probe time_Sleep fuel timeout finish w = (Some r, w') ->
    exists (rounds : list (error * Z)) (final : list event),
      log w' = (log w ++ concat (map (round timeout) rounds) ++ final)%list
      /\ Forall (fun x => snd x <= finish) rounds
      /\ (length rounds < fuel)%nat
      /\ ((r = None /\ final = [ProbeCall timeout None])
          \/ exists err t,
               r = Some (Errorf "Failed to probe the attacher: %s" [VError err])
               /\ final = [ProbeCall timeout (Some err); NowCall t]
               /\ finish < t).
Proof.
  induction fuel as [|fuel IH]; intros w w' r H; [discriminate H|].
  cbn [probeLoop] in H. cbv zeta in H.
  destruct (csiConn_Probe timeout (env w)) as [[err|] e1] eqn:Hp;
    cbn [fst snd env log] in H.
  - destruct (time_Now e1) as [now e2] eqn:Hn. cbn [fst snd env log] in H.
    destruct (finish <? now) eqn:Hlt.
    + injection H as <- <-. exists [], [ProbeCall timeout (Some err); NowCall now].
      cbn [log map concat app]. split; [rewrite <- app_assoc; reflexivity|].
      split; [constructor|]. split; [simpl; lia|].
      right. exists err, now. apply Z.ltb_lt in Hlt. auto.
    + apply IH in H as (rounds & final & Hlog & Hall & Hlen & Hfinal).
      cbn [log] in Hlog.
      exists ((err, now) :: rounds), final.
      split.
      { rewrite Hlog. cbn [map concat round fst snd].
        rewrite <- !app_assoc. reflexivity. }
      split; [constructor; [apply Z.ltb_ge; exact Hlt | exact Hall]|].
      split; [simpl; lia | exact Hfinal].
  - injection H as <- <-. exists [], [ProbeCall timeout None].
    cbn [log map concat app]. split; [reflexivity|].
    split; [constructor|]. split; [simpl; lia|]. left. auto.
Qed.

Lemma probeLoop_more_fuel (timeout finish : Z) (fuel : nat) :
  forall (k : nat) (w w' : world W) (r : option error),
    probeLoop time_Now csiConn_Probe time_Sleep fuel timeout finish w = (Some r, w') ->
    probeLoop time_Now csiConn_Probe time_Sleep (fuel + k) timeout finish w = (Some r, w').
Proof.
  induction fuel as [|fuel IH]; intros k w w' r H; [discriminate H|].
  cbn [probeLoop Nat.add] in *. cbv zeta in *.
  destruct (fst (csiConn_Probe timeout (env w))) as [err|]; [|exact H].
  destruct (finish <? _); [exact H|]. apply IH. exact H.
Qed.

Section Clock.
Variable clock : W -> Z.
Hypothesis Now_clock :
  forall e, clock e <= fst (time_Now e) /\ fst (time_Now e) <= clock (snd (time_Now e)).
Hypothesis Probe_clock :
  forall timeout e, clock e <= clock (snd (csiConn_Probe timeout e)).
Hypothesis Sleep_clock :
  forall d e, clock e + d <= clock (time_Sleep d e).

Lemma probeLoop_returns (timeout finish : Z) (n : nat) :
  forall w : world W,
    finish - clock (env w) < Z.of_nat n * Second ->
    exists r w', probeLoop time_Now csiConn_Probe time_Sleep (S n) timeout finish w = (Some r, w').
Proof.
  induction n as [|n IH]; intros w Hlt.
  - cbn [probeLoop]. cbv zeta.
    pose proof (Probe_clock timeout (env w)) as Hp.
    destruct (csiConn_Probe timeout (env w)) as [[err|] e1]; cbn [fst snd env] in *.
    + pose proof (Now_clock e1) as [Hn _].
      destruct (finish <? fst (time_Now e1)) eqn:Hcmp; [eauto|].
      apply Z.ltb_ge in Hcmp. lia.
    + eauto.
  - rewrite probeLoop_S. cbv zeta.
    pose proof (Probe_clock timeout (env w)) as Hp.
    destruct (csiConn_Probe timeout (env w)) as [[err|] e1]; cbn [fst snd env] in *.
    + pose proof (Now_clock e1) as [Hn Hn'].
      destruct (finish <? fst (time_Now e1)) eqn:Hcmp; [eauto|].
      apply IH. cbn [env].
      pose proof (Sleep_clock Second (snd (time_Now e1))) as Hs.
      unfold Second in *. lia.
    + eauto.
Qed.

End Clock.

End WaitFacts.

Lemma probes_of_rounds (timeout : Z) (rounds : list (error * Z)) :
  length (List.filter AttacherMain.isProbe
            (concat (map (AttacherMain.round timeout) rounds)))
  = length rounds.
Proof.
  induction rounds as [|x rounds IH]; [reflexivity|].
  cbn [map concat AttacherMain.round app List.filter AttacherMain.isProbe length].
  rewrite IH. reflexivity.
Qed.

(** X23. How a wait for the driver goes, whenever it returns. The clock is
    read once at the start, which sets the deadline [start + timeout].
    Then the driver is probed at least once, every probe with the full
    timeout as its own; after each failed probe the clock is read again,
    and as long as the reading is not after the deadline the wait sleeps
    exactly one second and probes again. The wait returns nil at the first
    probe that succeeds, however late it is; it returns an error only
    after a failed probe with the clock read strictly after the deadline,
    and that error is "Failed to probe the attacher: " followed by the
    error of this last probe. *)
Theorem waitForDriverReady_run {W : Type} (time_Now : W -> Z * W)
    (csiConn_Probe : Z -> W -> option error * W) (time_Sleep : Z -> W -> W)
    (fuel : nat) (timeout : Z) (e0 : W) (r : option error)
    (w' : AttacherMain.world W) :
  AttacherMain.waitForDriverReady time_Now csiConn_Probe time_Sleep fuel timeout e0
  = (Some r, w') ->
  let start := fst (time_Now e0) in
  exists (rounds : list (error * Z)) (final : list AttacherMain.event),
    AttacherMain.log w'
    = (AttacherMain.NowCall start
       :: concat (map (AttacherMain.round timeout) rounds) ++ final)%list
    /\ Forall (fun x => snd x <= start + timeout) rounds
    /\ ((r = None /\ final = [AttacherMain.ProbeCall timeout None])
        \/ exists err t,
             r = Some (Errorf "Failed to probe the attacher: %s" [VError err])
             /\ Error (Errorf "Failed to probe the attacher: %s" [VError err])
                = option_map (String.append "Failed to probe the attacher: ") (Error err)
             /\ final = [AttacherMain.ProbeCall timeout (Some err);
                         AttacherMain.NowCall t]
             /\ start + timeout < t).
Proof.
  unfold AttacherMain.waitForDriverReady. cbv zeta. intros H.
  apply probeLoop_run in H as (rounds & final & Hlog & Hall & _ & Hfinal).
  exists rounds, final. split; [exact Hlog|]. split; [exact Hall|].
  destruct Hfinal as [Hnil | (err & t & Hr & Hf & Hlt)]; [left; exact Hnil|].
  right. exists err, t. split; [exact Hr|]. split; [|split; assumption].
  cbn. destruct (Error err) as [s|]; [|reflexivity].
  cbn. rewrite ?app_empty_r. reflexivity.
Qed.

Lemma waitForDriverReady_run_witness :
  exists (rounds : list (error * Z)) (final : list AttacherMain.event),
    AttacherMain.log
      (snd (AttacherMain.waitForDriverReady AttacherMain.DemoWait.Now
              AttacherMain.DemoWait.Probe AttacherMain.DemoWait.Sleep 3
              AttacherMain.Second 0))
    = (AttacherMain.NowCall 0
       :: concat (map (AttacherMain.round AttacherMain.Second) rounds) ++ final)%list
    /\ Forall (fun x => snd x <= 0 + AttacherMain.Second) rounds
    /\ ((Some (Errorf "Failed to probe the attacher: %s"
                 [VError AttacherMain.DemoWait.notReady]) = None
         /\ final = [AttacherMain.ProbeCall AttacherMain.Second None])
        \/ exists err t,
             Some (Errorf "Failed to probe the attacher: %s"
                     [VError AttacherMain.DemoWait.notReady])
             = Some (Errorf "Failed to probe the attacher: %s" [VError err])
             /\ Error (Errorf "Failed to probe the attacher: %s" [VError err])
                = option_map (String.append "Failed to probe the attacher: ") (Error err)
             /\ final = [AttacherMain.ProbeCall AttacherMain.Second (Some err);
                         AttacherMain.NowCall t]
             /\ 0 + AttacherMain.Second < t).
Proof.
  apply (waitForDriverReady_run AttacherMain.DemoWait.Now AttacherMain.DemoWait.Probe
           AttacherMain.DemoWait.Sleep 3 AttacherMain.Second 0
           (Some (Errorf "Failed to probe the attacher: %s"
                    [VError AttacherMain.DemoWait.notReady]))).
  vm_compute. reflexivity.
Defined.

(** X24. The wait comes to an end on a clock that does not run backwards
    and on which a sleep lasts at least as long as asked: with [timeout]
    nanoseconds to wait, [waitForDriverReady] returns after at least one
    and at most [timeout / Second + 2] probes of the driver (exactly one
    probe for a negative timeout), whatever the driver answers. *)
Theorem waitForDriverReady_returns {W : Type} (time_Now : W -> Z * W)
    (csiConn_Probe : Z -> W -> option error * W) (time_Sleep : Z -> W -> W)
    (clock : W -> Z) (timeout : Z) (e0 : W) :
  (forall e, clock e <= fst (time_Now e)
             /\ fst (time_Now e) <= clock (snd (time_Now e))) ->
  (forall t e, clock e <= clock (snd (csiConn_Probe t e))) ->
  (forall d e, clock e + d <= clock (time_Sleep d e)) ->
  let bound := Z.to_nat (Z.max 1 (timeout / AttacherMain.Second + 2)) in
  exists (r : option error) (w' : AttacherMain.world W),
    (forall fuel, (bound <= fuel)%nat ->
       AttacherMain.waitForDriverReady time_Now csiConn_Probe time_Sleep
         fuel timeout e0 = (Some r, w'))
    /\ (1 <= length (List.filter AttacherMain.isProbe (AttacherMain.log w'))
        <= bound)%nat.
Proof.
  intros Hnow Hprobe Hsleep bound.
  set (n := (bound - 1)%nat).
  assert (Hbound : bound = S n) by (unfold n, bound; lia).
  pose proof (Hnow e0) as [_ Hstart].
  assert (Hq : timeout < Z.of_nat n * AttacherMain.Second).
  { pose proof (Z.mul_succ_div_gt timeout AttacherMain.Second eq_refl) as Hdiv.
    unfold n, bound. unfold AttacherMain.Second in *. lia. }
  destruct (probeLoop_returns time_Now csiConn_Probe time_Sleep clock
              Hnow Hprobe Hsleep timeout (fst (time_Now e0) + timeout) n
              {| AttacherMain.env := snd (time_Now e0);
                 AttacherMain.log := [AttacherMain.NowCall (fst (time_Now e0))] |})
    as (r & w' & Hrun).
  { cbn [AttacherMain.env]. lia. }
  exists r, w'. split.
  - intros fuel Hfuel. unfold AttacherMain.waitForDriverReady. cbv zeta.
    replace fuel with (S n + (fuel - S n))%nat by lia.
    apply probeLoop_more_fuel. exact Hrun.
  - apply probeLoop_run in Hrun as (rounds & final & Hlog & _ & Hlen & Hfinal).
    rewrite Hlog. cbn [AttacherMain.log].
    rewrite !List.filter_app, !length_app, probes_of_rounds.
    destruct Hfinal as [[_ ->] | (err & t & _ & -> & _)];
      cbn [List.filter AttacherMain.isProbe length]; lia.
Qed.

Lemma waitForDriverReady_returns_witness :
  exists (r : option error) (w' : AttacherMain.world Z),
    (forall fuel, (3 <= fuel)%nat ->
       AttacherMain.waitForDriverReady AttacherMain.DemoWait.Now AttacherMain.DemoWait.Probe
         AttacherMain.DemoWait.Sleep fuel AttacherMain.Second 0 = (Some r, w'))
    /\ (1 <= length (List.filter AttacherMain.isProbe (AttacherMain.log w')) <= 3)%nat.
Proof.
  apply (waitForDriverReady_returns AttacherMain.DemoWait.Now AttacherMain.DemoWait.Probe
           AttacherMain.DemoWait.Sleep (fun t => t) AttacherMain.Second 0).
  - intros e. cbn. lia.
  - intros t e. cbn. lia.
  - intros d e. unfold AttacherMain.DemoWait.Sleep. lia.
Defined.
